(** * Post-call intelligence: the extraction client of [routes/analysis.js]

    A shallow embedding of the Express router that sends a call transcript
    to an Azure OpenAI deployment and hands the decoded analysis back.

    Two revisions of the router are in the tree.  [src/routes/analysis.js]
    issues one completion request; the second revision (the one with the
    GPT-4/GPT-5 parameter fallback and the truncation check) is embedded in
    module [Part002].  Everything the two share is defined once, before the
    two modules.

    What the model covers and what it leaves out:
    - JavaScript data is kept untyped, as the code has it: a [value] is
      what [JSON.parse] or the SDK may hand over.  Numbers are exact
      decimals; the rounding of IEEE doubles is not modelled, and no
      statement below depends on arithmetic.
    - What is thrown is an [Error] object: the engine's [TypeError], the
      router's own [new Error(...)], the SDK's [APIError].
    - The provider, [JSON.parse] and the clock are a [Host] the router runs
      on; the statements about the router hold for every host.  One call of
      [openaiClient.chat.completions.create] is one event, whatever the SDK
      does on the wire for it.
    - Console output is not modelled, and neither is the Express
      middleware in front of the route. *)

From Stdlib Require Import ZArith String Ascii List Bool Lia DecimalString.
From stdpp Require Import base strings gmap.
Import ListNotations.

Set Warnings "-register-all".

Local Open Scope string_scope.
Local Open Scope list_scope.
Local Open Scope Z_scope.

(** ** Strings *)

(** The double-quote character, for JSON texts. *)
Definition dquote : ascii := ascii_of_nat 34.

(** [jtext "{'a': 1}"] is the text with every apostrophe turned into a
    double quote: a readable way to write JSON samples. *)
Fixpoint jtext (s : string) : string :=
  match s with
  | EmptyString => EmptyString
  | String c s' =>
      String (if Ascii.eqb c (ascii_of_nat 39) then dquote else c) (jtext s')
  end.

(** [String.prototype.includes]. *)
Fixpoint includes (s needle : string) : bool :=
  String.prefix needle s ||
  match s with
  | EmptyString => false
  | String _ s' => includes s' needle
  end.

(** [s.replace(/\/$/, '')]: one slash is dropped, and only at the very end. *)
Fixpoint strip_trailing_slash (s : string) : string :=
  match s with
  | EmptyString => EmptyString
  | String c EmptyString => if Ascii.eqb c "/" then EmptyString else s
  | String c s' => String c (strip_trailing_slash s')
  end.

(** ** Numbers *)

(** The number [mant * 10 ^ expo]. *)
Record number := { mant : Z; expo : Z }.

Definition num_of_Z (z : Z) : number := {| mant := z; expo := 0 |}.

Definition num_scale (a : number) (e : Z) : Z := mant a * 10 ^ (expo a - e).

Definition num_eqb (a b : number) : bool :=
  let e := Z.min (expo a) (expo b) in num_scale a e =? num_scale b e.

Definition num_leb (a b : number) : bool :=
  let e := Z.min (expo a) (expo b) in num_scale a e <=? num_scale b e.

Definition num_is_zero (a : number) : bool := mant a =? 0.

(** Digits of a natural number, then the same without the zeros at the end
    together with how many were dropped. *)
Definition digits_of (n : N) : string := NilZero.string_of_uint (N.to_uint n).

Fixpoint drop_zeros_rev (s : list ascii) (dropped : nat) : list ascii * nat :=
  match s with
  | c :: s' => if Ascii.eqb c "0" then drop_zeros_rev s' (S dropped) else (s, dropped)
  | [] => ([], dropped)
  end.

Definition significant (n : N) : string * nat :=
  let '(r, t) := drop_zeros_rev (rev (list_ascii_of_string (digits_of n))) 0 in
  (string_of_list_ascii (rev r), t).

Fixpoint zeros (n : nat) : string :=
  match n with O => EmptyString | S n' => String "0" (zeros n') end.

Definition string_take (n : nat) (s : string) : string := String.substring 0 n s.
Definition string_drop (n : nat) (s : string) : string :=
  String.substring n (String.length s - n) s.

(** [Number.prototype.toString()] (radix 10) as ECMA-262 words it, applied
    to the exact decimal: [k] significant digits [ds], decimal point after
    the [n]-th. *)
Definition Number_toString (a : number) : string :=
  if num_is_zero a then "0" else
  let '(ds, t) := significant (Z.abs_N (mant a)) in
  let k := Z.of_nat (String.length ds) in
  let n := k + expo a + Z.of_nat t in
  let sign := if mant a <? 0 then "-" else EmptyString in
  let body :=
    if (k <=? n) && (n <=? 21) then ds +:+ zeros (Z.to_nat (n - k))
    else if (0 <? n) && (n <=? 21) then
      string_take (Z.to_nat n) ds +:+ "." +:+ string_drop (Z.to_nat n) ds
    else if (-6 <? n) && (n <=? 0) then "0." +:+ zeros (Z.to_nat (- n)) +:+ ds
    else
      let e := n - 1 in
      let es := (if e <? 0 then "-" else "+") +:+ digits_of (Z.abs_N e) in
      if k =? 1 then ds +:+ "e" +:+ es
      else string_take 1 ds +:+ "." +:+ string_drop 1 ds +:+ "e" +:+ es in
  sign +:+ body.

(** ** Values *)

Inductive value :=
| VUndefined
| VNull
| VBool (b : bool)
| VNum (n : number)
| VStr (s : string)
| VArr (items : list value)
| VObj (props : list (string * value)).

Definition VInt (z : Z) : value := VNum (num_of_Z z).

(** Own property of an object literal; absent is [undefined]. *)
Fixpoint lookup_prop (k : string) (props : list (string * value)) : value :=
  match props with
  | [] => VUndefined
  | (k', v) :: rest => if String.eqb k k' then v else lookup_prop k rest
  end.

Definition has_prop (k : string) (props : list (string * value)) : bool :=
  existsb (fun kv => String.eqb k (fst kv)) props.

Definition nullish (v : value) : bool :=
  match v with VUndefined | VNull => true | _ => false end.

(** ToBoolean. *)
Definition truthy (v : value) : bool :=
  match v with
  | VUndefined | VNull => false
  | VBool b => b
  | VNum n => negb (num_is_zero n)
  | VStr s => negb (String.eqb s EmptyString)
  | VArr _ | VObj _ => true
  end.

(** [v === n] for a number literal [n], and [v === s] for a string literal. *)
Definition strict_eq_num (v : value) (n : Z) : bool :=
  match v with VNum m => num_eqb m (num_of_Z n) | _ => false end.

Definition strict_eq_str (v : value) (s : string) : bool :=
  match v with VStr t => String.eqb t s | _ => false end.

(** [a || b] *)
Definition js_or (a b : value) : value := if truthy a then a else b.

Fixpoint join_comma (l : list string) : string :=
  match l with
  | [] => EmptyString
  | [s] => s
  | s :: rest => s +:+ "," +:+ join_comma rest
  end.

(** ToString, as a template literal applies it, for a value that has a
    string form (every string, number, boolean, [null] and [undefined], and
    the objects and arrays without an own [toString] inside); [String_of]
    below is the conversion together with the [TypeError] of the others. *)
Fixpoint ToString (v : value) : string :=
  match v with
  | VUndefined => "undefined"
  | VNull => "null"
  | VBool true => "true"
  | VBool false => "false"
  | VNum n => Number_toString n
  | VStr s => s
  | VArr items =>
      join_comma (map (fun x => if nullish x then EmptyString else ToString x) items)
  | VObj _ => "[object Object]"
  end.

(** ** Errors and outcomes *)

(** An [Error] object: its [name] and [message], and whatever further own
    properties were put on it ([code], [status], [response], ...).  Every
    value the engine or the SDK throws is one. *)
Record JsError := {
  name : string;
  message : string;
  fields : list (string * value)
}.

Definition new_Error (msg : string) : JsError :=
  {| name := "Error"; message := msg; fields := [] |}.

Definition new_TypeError (msg : string) : JsError :=
  {| name := "TypeError"; message := msg; fields := [] |}.

(** [e.k] *)
Definition error_prop (e : JsError) (k : string) : value :=
  if String.eqb k "message" then VStr (message e)
  else if String.eqb k "name" then VStr (name e)
  else lookup_prop k (fields e).

(** How an evaluation ends: with a value, or with a thrown error. *)
Inductive Outcome (A : Type) :=
| Return (a : A)
| Throw (e : JsError).
Arguments Return {A} a.
Arguments Throw {A} e.

Definition cannot_read (what key : string) : JsError :=
  new_TypeError ("Cannot read properties of " +:+ what +:+ " (reading '" +:+ key +:+ "')").

(** [v.k], for the property names this router reads (none of them is built
    in on arrays, strings, numbers or booleans). *)
Definition get_member (v : value) (k : string) : Outcome value :=
  match v with
  | VUndefined => Throw (cannot_read "undefined" k)
  | VNull => Throw (cannot_read "null" k)
  | VObj props => Return (lookup_prop k props)
  | VBool _ | VNum _ | VStr _ | VArr _ => Return VUndefined
  end.

(** [v[0]] *)
Definition get_first (v : value) : Outcome value :=
  match v with
  | VUndefined => Throw (cannot_read "undefined" "0")
  | VNull => Throw (cannot_read "null" "0")
  | VObj props => Return (lookup_prop "0" props)
  | VArr items => Return (hd VUndefined items)
  | VStr (String c _) => Return (VStr (String c EmptyString))
  | VStr EmptyString | VBool _ | VNum _ => Return VUndefined
  end.

Definition value_of (o : Outcome value) : value :=
  match o with Return v => v | Throw _ => VUndefined end.

(** [v?.k] and [v?.[0]]: never throw. *)
Definition opt_member (v : value) (k : string) : value :=
  if nullish v then VUndefined else value_of (get_member v k).

Definition opt_first (v : value) : value :=
  if nullish v then VUndefined else value_of (get_first v).

(** ** The analysis schema *)

Inductive Schema :=
| SString (enum : option (list string)) (description : option string)
| SNumber (minimum maximum : option number) (description : option string)
| SArray (items : Schema) (description : option string)
| SObject (properties : list (string * Schema)) (required : list string)
    (additionalProperties : bool) (description : option string).

Definition customerServiceSchema : Schema :=
  SObject
    [ ("sentiment",
        SString (Some ["positive"; "neutral"; "negative"; "frustrated"])
          (Some "Overall customer sentiment"));
      ("escalationRisk",
        SString (Some ["low"; "medium"; "high"]) (Some "Risk of customer escalation"));
      ("primaryIntent", SString None (Some "Main reason for customer contact"));
      ("keyInformation",
        SObject
          [ ("orderNumber", SString None (Some "Extracted order number"));
            ("customerEmail", SString None (Some "Customer email address"));
            ("productSKU", SString None (Some "Product mentioned"));
            ("issueDate", SString None (Some "When issue occurred"));
            ("customerPhone", SString None (Some "Customer phone number")) ]
          ["orderNumber"; "customerEmail"; "productSKU"; "issueDate"; "customerPhone"]
          false None);
      ("suggestedActions", SArray (SString None None) (Some "Recommended next steps"));
      ("commitments", SArray (SString None None) (Some "Promises made to customer"));
      ("confidenceScore",
        SNumber (Some (num_of_Z 0)) (Some (num_of_Z 1)) (Some "Analysis confidence level"));
      ("summary", SString None (Some "Brief case summary for CRM")) ]
    ["sentiment"; "escalationRisk"; "primaryIntent"; "keyInformation";
     "suggestedActions"; "commitments"; "confidenceScore"; "summary"]
    false None.

Definition string_in (s : string) (l : list string) : bool :=
  existsb (String.eqb s) l.

(** What it is for a value to be an instance of a schema (JSON Schema's
    reading of [type], [enum], [minimum], [maximum], [items], [properties],
    [required] and [additionalProperties]). *)
Fixpoint conforms (sch : Schema) (v : value) {struct sch} : bool :=
  match sch, v with
  | SString en _, VStr s =>
      match en with Some allowed => string_in s allowed | None => true end
  | SNumber lo hi _, VNum n =>
      match lo with Some l => num_leb l n | None => true end &&
      match hi with Some h => num_leb n h | None => true end
  | SArray item _, VArr xs => forallb (conforms item) xs
  | SObject props req extra _, VObj fs =>
      forallb (fun r => has_prop r fs) req &&
      forallb (fun kv =>
        (fix member (ps : list (string * Schema)) : bool :=
           match ps with
           | [] => extra
           | (k, s) :: ps' => if String.eqb (fst kv) k then conforms s (snd kv) else member ps'
           end) props) fs
  | _, _ => false
  end.

(** ** Requests *)

Record ChatMessage := { role : string; content : string }.

Record JsonSchema := { schema_name : string; strict : bool; schema : Schema }.

Record ResponseFormat := { format_type : string; json_schema : JsonSchema }.

(** The argument of [chat.completions.create]; a key that the object
    literal does not have is [None]. *)
Record Params := {
  model : value;
  messages : list ChatMessage;
  response_format : ResponseFormat;
  temperature : option number;
  max_tokens : option number;
  max_completion_tokens : option number
}.

(** The options the [OpenAI] client was constructed with. *)
Record OpenAI := {
  apiKey : string;
  baseURL : string;
  defaultQuery : list (string * string);
  defaultHeaders : list (string * string)
}.

(** ** The process and its surroundings *)

(** What a call does that can be seen from outside: a completion request
    handed to the client (one call of [chat.completions.create]), and a
    call of [JSON.parse]. *)
Inductive Event :=
| EvCreate (client : OpenAI) (params : Params)
| EvParse (text : string).

(** The module's state: [process.env], the module-level [openaiClient]
    ([None] is [null]), and what has happened so far, oldest first. *)
Record World := {
  env : gmap string string;
  openaiClient : option OpenAI;
  trace : list Event
}.

(** What the router calls but does not define: the provider behind
    [openaiClient.chat.completions.create] (it may answer by what it has
    seen so far), [JSON.parse] on a text, and the clock behind
    [new Date().toISOString()]. *)
Record Host := {
  create : list Event -> OpenAI -> Params -> Outcome value;
  JSON_parse : string -> Outcome value;
  Date_toISOString : list Event -> string
}.

Definition outbound (t : list Event) : list (OpenAI * Params) :=
  flat_map (fun ev => match ev with EvCreate c p => [(c, p)] | EvParse _ => [] end) t.

Definition parsed (t : list Event) : list string :=
  flat_map (fun ev => match ev with EvParse s => [s] | EvCreate _ _ => [] end) t.

(** Evaluation in a world. *)
Definition M (A : Type) : Type := World -> Outcome A * World.

Definition ret {A} (a : A) : M A := fun w => (Return a, w).
Definition throw {A} (e : JsError) : M A := fun w => (Throw e, w).
Definition bind {A B} (m : M A) (k : A -> M B) : M B :=
  fun w => match m w with
           | (Return a, w') => k a w'
           | (Throw e, w') => (Throw e, w')
           end.
Definition try_catch {A} (body : M A) (handler : JsError -> M A) : M A :=
  fun w => match body w with
           | (Return a, w') => (Return a, w')
           | (Throw e, w') => handler e w'
           end.
Definition lift {A} (o : Outcome A) : M A := fun w => (o, w).
Definition get_world : M World := fun w => (Return w, w).

(** The world after some more events. *)
Definition after (w : World) (evs : list Event) : World :=
  {| env := env w; openaiClient := openaiClient w; trace := trace w ++ evs |}.

Definition emit (ev : Event) : M unit := fun w => (Return tt, after w [ev]).

Declare Scope js_scope.
Delimit Scope js_scope with js.
Notation "x <- m ;; k" := (bind m (fun x => k))
  (at level 100, m at next level, right associativity) : js_scope.
Notation "m ;; k" := (bind m (fun _ => k))
  (at level 100, right associativity) : js_scope.
Local Open Scope js_scope.

(** ** The router: what both revisions share *)

(** [process.env.K] *)
Definition env_get (w : World) (k : string) : value :=
  match env w !! k with Some s => VStr s | None => VUndefined end.

Definition with_client (w : World) (c : OpenAI) : World :=
  {| env := env w; openaiClient := Some c; trace := trace w |}.

(** [new OpenAI({...})] with the options [initializeOpenAI] passes. *)
Definition new_client (w : World) : OpenAI :=
  let cleanEndpoint :=
    strip_trailing_slash (ToString (env_get w "AZURE_OPENAI_ENDPOINT")) in
  {| apiKey := ToString (env_get w "AZURE_OPENAI_KEY");
     baseURL := cleanEndpoint +:+ "/openai/deployments/"
                +:+ ToString (env_get w "AZURE_OPENAI_DEPLOYMENT");
     defaultQuery := [("api-version", "2024-08-01-preview")];
     defaultHeaders := [("api-key", ToString (env_get w "AZURE_OPENAI_KEY"))] |}.

Definition initializeOpenAI (w : World) : World :=
  match openaiClient w with
  | Some _ => w
  | None =>
      if truthy (env_get w "AZURE_OPENAI_ENDPOINT")
         && truthy (env_get w "AZURE_OPENAI_KEY")
      then with_client w (new_client w)
      else w
  end.

Definition not_configured : JsError :=
  {| name := "Error";
     message := "Azure OpenAI client not configured. Please set AZURE_OPENAI_ENDPOINT, AZURE_OPENAI_KEY and AZURE_OPENAI_DEPLOYMENT.";
     fields := [("code", VStr "OPENAI_NOT_CONFIGURED")] |}.

Definition ensureOpenAIClient : M unit :=
  fun w =>
    let w' := initializeOpenAI w in
    match openaiClient w' with
    | None => (Throw not_configured, w')
    | Some _ => (Return tt, w')
    end.

(** [await openaiClient.chat.completions.create(params)] *)
Definition chat_completions_create (h : Host) (params : Params) : M value :=
  fun w =>
    match openaiClient w with
    | None => (Throw (cannot_read "null" "chat"), w)
    | Some c =>
        (create h (trace w) c params, after w [EvCreate c params])
    end.

(** [JSON.parse(v)]: the argument is first turned into a string. *)
Definition JSON_parse_value (h : Host) (v : value) : M value :=
  emit (EvParse (ToString v)) ;; lift (JSON_parse h (ToString v)).

Definition prompt (transcription : value) : string :=
  "Analyze this customer service call transcript and extract structured information for our CRM system.

TRANSCRIPT:
" +:+ ToString transcription +:+ "

Focus on:
- Customer sentiment and escalation risk
- Key information that should be recorded
- Specific commitments made to the customer
- Recommended next actions

Be precise and only extract information that's clearly stated in the conversation.".

Definition request_messages (transcription : value) : list ChatMessage :=
  [ {| role := "system";
       content := "You are a customer service analysis expert. Extract accurate information from call transcripts to populate CRM systems. Follow the schema exactly." |};
    {| role := "user"; content := prompt transcription |} ].

Definition request_format : ResponseFormat :=
  {| format_type := "json_schema";
     json_schema := {| schema_name := "customer_service_analysis";
                       strict := true;
                       schema := customerServiceSchema |} |}.

(** The first request, the same in both revisions:
    [temperature: 0.1, max_tokens: 1000]. *)
Definition legacy_params (w : World) (transcription : value) : Params :=
  {| model := env_get w "AZURE_OPENAI_DEPLOYMENT";
     messages := request_messages transcription;
     response_format := request_format;
     temperature := Some {| mant := 1; expo := -1 |};
     max_tokens := Some (num_of_Z 1000);
     max_completion_tokens := None |}.

Definition missing_content : JsError :=
  new_Error "Unexpected OpenAI response format: missing content".

Definition invalid_json : JsError :=
  new_Error "Failed to parse AI response. Response was not valid JSON.".

Definition deployment_not_found (w : World) : JsError :=
  new_Error ("Deployment '" +:+ ToString (env_get w "AZURE_OPENAI_DEPLOYMENT")
             +:+ "' not found. Check your deployment name.").

Definition authentication_failed : JsError :=
  new_Error "Authentication failed. Check your API key.".

(** [error?.response?.status || error?.status] *)
Definition http_status (error : JsError) : value :=
  js_or (opt_member (error_prop error "response") "status") (error_prop error "status").

(** The [catch (error)] block that closes [getAIAnalysis]. *)
Definition map_error {A} (error : JsError) : M A :=
  if strict_eq_str (error_prop error "code") "OPENAI_NOT_CONFIGURED" then throw error
  else
    let status := http_status error in
    if strict_eq_num status 404 then
      (w <- get_world ;; throw (deployment_not_found w))
    else if strict_eq_num status 401 then throw authentication_failed
    else throw error.

(** The error that block throws for [error], as a function. *)
Definition classified (w : World) (error : JsError) : JsError :=
  if strict_eq_str (error_prop error "code") "OPENAI_NOT_CONFIGURED" then error
  else if strict_eq_num (http_status error) 404 then deployment_not_found w
  else if strict_eq_num (http_status error) 401 then authentication_failed
  else error.

(** [response?.choices?.[0]?.message?.content] *)
Definition raw_content (response : value) : value :=
  opt_member (opt_member (opt_first (opt_member response "choices")) "message") "content".

(** From the content check on: the same statements in both revisions. *)
Definition parse_content (h : Host) (response : value) : M value :=
  let rawContent := raw_content response in
  if negb (truthy rawContent) then throw missing_content
  else try_catch (JSON_parse_value h rawContent) (fun parseErr => throw invalid_json).

(** The body of an HTTP answer, and the answer. *)
Record ResBody := {
  success : bool;
  analysis : option value;
  body_schema : option Schema;
  timestamp : option string;
  error : option string
}.

Record HttpResponse := { status : Z; body : ResBody }.

(** [const { transcription, scenarioId } = req.body] *)
Definition destructure_body (req_body : value) : Outcome (value * value) :=
  match req_body with
  | VUndefined =>
      Throw (new_TypeError "Cannot destructure property 'transcription' of 'req.body' as it is undefined.")
  | VNull =>
      Throw (new_TypeError "Cannot destructure property 'transcription' of 'req.body' as it is null.")
  | _ => Return (value_of (get_member req_body "transcription"),
                 value_of (get_member req_body "scenarioId"))
  end.

(** [res.status(500).json({ success: false, error: `Failed to analyze
    conversation: ${error.message}` })] *)
Definition failure_response (error : JsError) : HttpResponse :=
  {| status := 500;
     body := {| success := false;
                analysis := None;
                body_schema := None;
                timestamp := None;
                error := Some ("Failed to analyze conversation: "
                               +:+ ToString (error_prop error "message")) |} |}.

(** [router.post('/analyze', ...)], over the revision's [getAIAnalysis]. *)
Definition post_analyze (getAIAnalysis : Host -> value -> M value)
    (h : Host) (req_body : value) : M HttpResponse :=
  try_catch
    ( fields <- lift (destructure_body req_body) ;;
      (fun w => (Return tt, initializeOpenAI w)) ;;
      analysis <- getAIAnalysis h (fst fields) ;;
      w <- get_world ;;
      ret {| status := 200;
             body := {| success := true;
                        analysis := Some analysis;
                        body_schema := Some customerServiceSchema;
                        timestamp := Some (Date_toISOString h (trace w));
                        error := None |} |} )
    (fun error => ret (failure_response error)).

(** ** [src/routes/analysis.js]: one request, no truncation check *)

Module RoutesAnalysis.

Definition getAIAnalysis (h : Host) (transcription : value) : M value :=
  ensureOpenAIClient ;;
  try_catch
    ( w <- get_world ;;
      response <- chat_completions_create h (legacy_params w transcription) ;;
      parse_content h response )
    map_error.

Definition router_post_analyze : Host -> value -> M HttpResponse :=
  post_analyze getAIAnalysis.

End RoutesAnalysis.

(** ** The revision with the parameter fallback *)

Module Part002.

(** [baseParams] with [max_completion_tokens: 2000] and no temperature. *)
Definition alternate_params (w : World) (transcription : value) : Params :=
  {| model := env_get w "AZURE_OPENAI_DEPLOYMENT";
     messages := request_messages transcription;
     response_format := request_format;
     temperature := None;
     max_tokens := None;
     max_completion_tokens := Some (num_of_Z 2000) |}.

(** [gpt4Error.status === 400 && (gpt4Error.message?.includes('max_tokens')
    || gpt4Error.message?.includes('temperature'))] *)
Definition unsupported_parameter (gpt4Error : JsError) : bool :=
  strict_eq_num (error_prop gpt4Error "status") 400
  && (includes (message gpt4Error) "max_tokens"
      || includes (message gpt4Error) "temperature").

Definition truncated : JsError :=
  new_Error "Response was truncated due to token limit. The analysis may be incomplete.".

(** The inner [try]/[catch]: the request with the GPT-4 parameters, and
    the retry with the GPT-5 ones. *)
Definition request_completion (h : Host) (w : World) (transcription : value) : M value :=
  try_catch
    (chat_completions_create h (legacy_params w transcription))
    (fun gpt4Error =>
       if unsupported_parameter gpt4Error
       then chat_completions_create h (alternate_params w transcription)
       else throw gpt4Error).

(** [response.choices[0].finish_reason] *)
Definition finish_reason (response : value) : Outcome value :=
  match get_member response "choices" with
  | Throw e => Throw e
  | Return choices =>
      match get_first choices with
      | Throw e => Throw e
      | Return first => get_member first "finish_reason"
      end
  end.

(** From [// Validate response] to the end of the outer [try]. *)
Definition validate_response (h : Host) (response : value) : M value :=
  reason <- lift (finish_reason response) ;;
  if strict_eq_str reason "length" then throw truncated
  else parse_content h response.

Definition getAIAnalysis (h : Host) (transcription : value) : M value :=
  ensureOpenAIClient ;;
  w <- get_world ;;
  try_catch
    ( response <- request_completion h w transcription ;;
      validate_response h response )
    map_error.

Definition router_post_analyze : Host -> value -> M HttpResponse :=
  post_analyze getAIAnalysis.

(** How the last request of a call ends, for a call that starts in [w]
    with client [c]: the first request, or the second when the first asks
    for the retry. *)
Definition last_outcome (h : Host) (t : value) (w : World) (c : OpenAI) : Outcome value :=
  match create h (trace w) c (legacy_params w t) with
  | Return response => Return response
  | Throw e =>
      if unsupported_parameter e
      then create h (trace w ++ [EvCreate c (legacy_params w t)]) c (alternate_params w t)
      else Throw e
  end.

(** What the outer [try]/[catch] makes of the outcome of the last request:
    the rest of [getAIAnalysis] once [request_completion] has ended. *)
Definition conclude (h : Host) (last : Outcome value) : M value :=
  try_catch (response <- lift last ;; validate_response h response) map_error.

End Part002.

(** ** A [JSON.parse] for texts

    The JSON grammar of ECMA-404, by recursive descent.  The router's
    statements below hold for any [JSON_parse]; this one makes a [Host]
    that can be run.  Strings are byte strings: a [\u] escape is stored in
    UTF-8, and positions in messages count bytes.  The two messages are
    V8's; other engines word them differently.  The recursion is bounded
    by a counter that starts high enough never to run out (lemma
    [parse_fuel] below). *)

Module Json.

Inductive ParseError :=
| UnexpectedToken (c : ascii) (pos : nat)
| UnexpectedEnd
| OutOfFuel.   (* the recursion bound was reached *)

Inductive Parsed (A : Type) :=
| Ok (a : A) (pos : nat) (rest : string)
| Err (e : ParseError).
Arguments Ok {A} a pos rest.
Arguments Err {A} e.

Definition unexpected {A} (s : string) (pos : nat) : Parsed A :=
  match s with
  | EmptyString => Err UnexpectedEnd
  | String c _ => Err (UnexpectedToken c pos)
  end.

Definition is_ws (c : ascii) : bool :=
  let n := nat_of_ascii c in
  (n =? 32)%nat || (n =? 9)%nat || (n =? 10)%nat || (n =? 13)%nat.

Definition is_digit (c : ascii) : bool :=
  let n := nat_of_ascii c in (48 <=? n)%nat && (n <=? 57)%nat.

Definition digit_val (c : ascii) : Z := Z.of_nat (nat_of_ascii c) - 48.

Definition hex_val (c : ascii) : option N :=
  let n := N_of_ascii c in
  if (48 <=? n)%N && (n <=? 57)%N then Some (n - 48)%N
  else if (65 <=? n)%N && (n <=? 70)%N then Some (n - 55)%N
  else if (97 <=? n)%N && (n <=? 102)%N then Some (n - 87)%N
  else None.

Fixpoint skip_ws (s : string) (pos : nat) : string * nat :=
  match s with
  | String c s' => if is_ws c then skip_ws s' (S pos) else (s, pos)
  | EmptyString => (s, pos)
  end.

(** The longest run of digits at the front, its value and its length. *)
Fixpoint digits (s : string) (acc : Z) (len : nat) : Z * nat * string :=
  match s with
  | String c s' =>
      if is_digit c then digits s' (acc * 10 + digit_val c) (S len) else (acc, len, s)
  | EmptyString => (acc, len, s)
  end.

(** A code point in UTF-8 (surrogates that stand alone are written the
    same way as other three-byte code points). *)
Definition utf8 (cp : N) : string :=
  let byte (n : N) := String (ascii_of_N n) EmptyString in
  if (cp <? 128)%N then byte cp
  else if (cp <? 2048)%N then byte (192 + cp / 64)%N +:+ byte (128 + cp mod 64)%N
  else if (cp <? 65536)%N then
    byte (224 + cp / 4096)%N +:+ byte (128 + (cp / 64) mod 64)%N +:+ byte (128 + cp mod 64)%N
  else
    byte (240 + cp / 262144)%N +:+ byte (128 + (cp / 4096) mod 64)%N
    +:+ byte (128 + (cp / 64) mod 64)%N +:+ byte (128 + cp mod 64)%N.

(** [n] hexadecimal digits. *)
Fixpoint hex_digits (n : nat) (s : string) (pos : nat) (acc : N) : Parsed N :=
  match n with
  | O => Ok acc pos s
  | S n' =>
      match s with
      | EmptyString => Err UnexpectedEnd
      | String c s' =>
          match hex_val c with
          | Some d => hex_digits n' s' (S pos) (acc * 16 + d)%N
          | None => Err (UnexpectedToken c pos)
          end
      end
  end.

Definition hex4 (s : string) (pos : nat) : Parsed N := hex_digits 4 s pos 0%N.

Definition is_high (u : N) : bool := (55296 <=? u)%N && (u <=? 56319)%N.
Definition is_low (u : N) : bool := (56320 <=? u)%N && (u <=? 57343)%N.

(** After a high surrogate: a [\u] escape of a low one makes a pair. *)
Definition low_escape (s : string) (pos : nat) : option (N * nat * string) :=
  match s with
  | String b (String u rest) =>
      if Ascii.eqb b "\" && Ascii.eqb u "u" then
        match hex4 rest (pos + 2) with
        | Ok lo pos' rest' => if is_low lo then Some (lo, pos', rest') else None
        | Err _ => None
        end
      else None
  | _ => None
  end.

(** The characters of a string literal, after its opening quote. *)
Fixpoint string_body (fuel : nat) (s : string) (pos : nat) (acc : string)
    : Parsed string :=
  match fuel with
  | O => Err OutOfFuel
  | S fuel' =>
      match s with
      | EmptyString => Err UnexpectedEnd
      | String c s' =>
          if Ascii.eqb c dquote then Ok acc (S pos) s'
          else if (nat_of_ascii c <? 32)%nat then Err (UnexpectedToken c pos)
          else if Ascii.eqb c "\" then
            match s' with
            | EmptyString => Err UnexpectedEnd
            | String e s'' =>
                let plain (n : nat) :=
                  string_body fuel' s'' (pos + 2) (acc +:+ String (ascii_of_nat n) EmptyString) in
                if Ascii.eqb e dquote then plain 34%nat
                else if Ascii.eqb e "\" then plain 92%nat
                else if Ascii.eqb e "/" then plain 47%nat
                else if Ascii.eqb e "b" then plain 8%nat
                else if Ascii.eqb e "f" then plain 12%nat
                else if Ascii.eqb e "n" then plain 10%nat
                else if Ascii.eqb e "r" then plain 13%nat
                else if Ascii.eqb e "t" then plain 9%nat
                else if Ascii.eqb e "u" then
                  match hex4 s'' (pos + 2) with
                  | Err err => Err err
                  | Ok u pos' rest =>
                      match (if is_high u then low_escape rest pos' else None) with
                      | Some (lo, pos'', rest') =>
                          string_body fuel' rest' pos''
                            (acc +:+ utf8 (65536 + (u - 55296) * 1024 + (lo - 56320))%N)
                      | None => string_body fuel' rest pos' (acc +:+ utf8 u)
                      end
                  end
                else Err (UnexpectedToken e (S pos))
            end
          else string_body fuel' s' (S pos) (acc +:+ String c EmptyString)
      end
  end.

(** The rest of the text when it starts with [c]. *)
Definition eat (c : ascii) (s : string) : option string :=
  match s with
  | String d s' => if Ascii.eqb c d then Some s' else None
  | EmptyString => None
  end.

(** The digits after the decimal point, appended to the integer part
    [ip]: the new mantissa and how many digits were read. *)
Definition fraction (ip : Z) (s : string) (pos : nat) : Parsed (Z * Z) :=
  match eat "." s with
  | Some s' =>
      match digits s' ip 0 with
      | (_, O, _) => unexpected s' (S pos)
      | (m, flen, rest) => Ok (m, Z.of_nat flen) (S pos + flen)%nat rest
      end
  | None => Ok (ip, 0) pos s
  end.

(** The exponent part, if there is one. *)
Definition exponent (s : string) (pos : nat) : Parsed Z :=
  match s with
  | String c s' =>
      if Ascii.eqb c "e" || Ascii.eqb c "E" then
        let '(eneg, s1, p1) :=
          match eat "-" s', eat "+" s' with
          | Some s'', _ => (true, s'', (pos + 2)%nat)
          | None, Some s'' => (false, s'', (pos + 2)%nat)
          | None, None => (false, s', S pos)
          end in
        match digits s1 0 0 with
        | (_, O, _) => unexpected s1 p1
        | (ex, elen, rest) => Ok (if eneg then - ex else ex) (p1 + elen)%nat rest
        end
      else Ok 0 pos s
  | EmptyString => Ok 0 pos s
  end.

(** A number, from its first character (a digit or the minus sign). *)
Definition number_literal (s : string) (pos : nat) : Parsed number :=
  let '(neg, s1, p1) :=
    match eat "-" s with
    | Some s' => (true, s', S pos)
    | None => (false, s, pos)
    end in
  match s1 with
  | EmptyString => Err UnexpectedEnd
  | String d s1' =>
      if negb (is_digit d) then Err (UnexpectedToken d p1) else
      let '(ip, ilen, s2) :=
        if Ascii.eqb d "0" then (0, 1%nat, s1') else digits s1 0 0 in
      match fraction ip s2 (p1 + ilen) with
      | Err e => Err e
      | Ok (m, flen) p3 s3 =>
          match exponent s3 p3 with
          | Err e => Err e
          | Ok ex p4 s4 =>
              Ok {| mant := if neg then - m else m; expo := ex - flen |} p4 s4
          end
      end
  end.

(** One of the words [true], [false], [null]. *)
Fixpoint word (w : string) (s : string) (pos : nat) : Parsed unit :=
  match w with
  | EmptyString => Ok tt pos s
  | String c w' =>
      match s with
      | EmptyString => Err UnexpectedEnd
      | String d s' =>
          if Ascii.eqb c d then word w' s' (S pos) else Err (UnexpectedToken d pos)
      end
  end.

Definition literal (w : string) (v : value) (s : string) (pos : nat) : Parsed value :=
  match word w s pos with
  | Ok _ pos' rest => Ok v pos' rest
  | Err e => Err e
  end.

(** [obj[k] = v]: a key that comes again keeps its place and takes the
    later value. *)
Fixpoint set_prop (k : string) (v : value) (props : list (string * value))
    : list (string * value) :=
  match props with
  | [] => [(k, v)]
  | (k', v') :: rest =>
      if String.eqb k k' then (k, v) :: rest else (k', v') :: set_prop k v rest
  end.

Fixpoint parse_value (fuel : nat) (s : string) (pos : nat) : Parsed value :=
  match fuel with
  | O => Err OutOfFuel
  | S fuel' =>
      let '(s0, p0) := skip_ws s pos in
      match s0 with
      | EmptyString => Err UnexpectedEnd
      | String c s1 =>
          if Ascii.eqb c "{" then
            let '(s2, p2) := skip_ws s1 (S p0) in
            match eat "}" s2 with
            | Some s3 => Ok (VObj []) (S p2) s3
            | None => parse_members fuel' s2 p2 []
            end
          else if Ascii.eqb c "[" then
            let '(s2, p2) := skip_ws s1 (S p0) in
            match eat "]" s2 with
            | Some s3 => Ok (VArr []) (S p2) s3
            | None => parse_elements fuel' s2 p2 []
            end
          else if Ascii.eqb c dquote then
            match string_body (S (String.length s1)) s1 (S p0) EmptyString with
            | Ok str p r => Ok (VStr str) p r
            | Err e => Err e
            end
          else if Ascii.eqb c "-" || is_digit c then
            match number_literal s0 p0 with
            | Ok n p r => Ok (VNum n) p r
            | Err e => Err e
            end
          else if Ascii.eqb c "t" then literal "true" (VBool true) s0 p0
          else if Ascii.eqb c "f" then literal "false" (VBool false) s0 p0
          else if Ascii.eqb c "n" then literal "null" VNull s0 p0
          else Err (UnexpectedToken c p0)
      end
  end

with parse_elements (fuel : nat) (s : string) (pos : nat) (acc : list value)
    : Parsed value :=
  match fuel with
  | O => Err OutOfFuel
  | S fuel' =>
      match parse_value fuel' s pos with
      | Err e => Err e
      | Ok v p r =>
          let '(r1, p1) := skip_ws r p in
          match eat "," r1, eat "]" r1 with
          | Some r2, _ => parse_elements fuel' r2 (S p1) (acc ++ [v])
          | None, Some r2 => Ok (VArr (acc ++ [v])) (S p1) r2
          | None, None => unexpected r1 p1
          end
      end
  end

with parse_members (fuel : nat) (s : string) (pos : nat) (acc : list (string * value))
    : Parsed value :=
  match fuel with
  | O => Err OutOfFuel
  | S fuel' =>
      let '(s0, p0) := skip_ws s pos in
      match eat dquote s0 with
      | None => unexpected s0 p0
      | Some s1 =>
          match string_body (S (String.length s1)) s1 (S p0) EmptyString with
          | Err e => Err e
          | Ok k p r =>
              let '(r1, p1) := skip_ws r p in
              match eat ":" r1 with
              | None => unexpected r1 p1
              | Some r2 =>
                  match parse_value fuel' r2 (S p1) with
                  | Err e => Err e
                  | Ok v p2 r3 =>
                      let '(r4, p4) := skip_ws r3 p2 in
                      match eat "," r4, eat "}" r4 with
                      | Some r5, _ => parse_members fuel' r5 (S p4) (set_prop k v acc)
                      | None, Some r5 => Ok (VObj (set_prop k v acc)) (S p4) r5
                      | None, None => unexpected r4 p4
                      end
                  end
              end
          end
      end
  end.

Definition syntax_error (e : ParseError) : JsError :=
  {| name := "SyntaxError";
     message :=
       match e with
       | OutOfFuel => "JSON text nested beyond the recursion bound"
       | UnexpectedEnd => "Unexpected end of JSON input"
       | UnexpectedToken c pos =>
           "Unexpected token " +:+ String c EmptyString +:+ " in JSON at position "
           +:+ digits_of (N.of_nat pos)
       end;
     fields := [] |}.

(** [JSON.parse(text)] *)
Definition parse (text : string) : Outcome value :=
  match parse_value (2 * String.length text + 2) text 0 with
  | Err e => Throw (syntax_error e)
  | Ok v p r =>
      match skip_ws r p with
      | (EmptyString, _) => Return v
      | (String c _, p') => Throw (syntax_error (UnexpectedToken c p'))
      end
  end.

(** A result that did not stop at the recursion bound and, when it is a
    value, left less of the text [s] (for [keeps]: no more of it). *)
Definition consumes {A} (res : Parsed A) (s : string) : Prop :=
  match res with
  | Ok _ _ r => (String.length r < String.length s)%nat
  | Err e => e <> OutOfFuel
  end.

Definition keeps {A} (res : Parsed A) (s : string) : Prop :=
  match res with
  | Ok _ _ r => (String.length r <= String.length s)%nat
  | Err e => e <> OutOfFuel
  end.

End Json.

(** The host that runs on [Json.parse], for a given provider and clock. *)
Definition node (provider : list Event -> OpenAI -> Params -> Outcome value)
    (clock : string) : Host :=
  {| create := provider; JSON_parse := Json.parse; Date_toISOString := fun _ => clock |}.

(** ** Sample surroundings, for running the router *)

Module Sample.

Definition newline : string := String (ascii_of_nat 10) EmptyString.

(** The process before the first request: no client yet, nothing done. *)
Definition fresh (e : gmap string string) : World :=
  {| env := e; openaiClient := None; trace := [] |}.

Definition env_full : gmap string string :=
  <["AZURE_OPENAI_ENDPOINT" := "https://contoso.openai.azure.com/"]>
  (<["AZURE_OPENAI_KEY" := "0123456789abcdef"]>
  (<["AZURE_OPENAI_DEPLOYMENT" := "gpt-4o"]> ∅)).

(** The three ways of leaving one value out. *)
Definition env_no_endpoint : gmap string string := delete "AZURE_OPENAI_ENDPOINT" env_full.
Definition env_no_key : gmap string string := delete "AZURE_OPENAI_KEY" env_full.
Definition env_no_deployment : gmap string string := delete "AZURE_OPENAI_DEPLOYMENT" env_full.

Definition transcript : value :=
  VStr ("Agent: How can I help?" +:+ newline +:+ newline
        +:+ "Customer: My order 12345 never arrived.").

(** A chat completion with one choice. *)
Definition completion (finish : string) (content : value) : value :=
  VObj [ ("id", VStr "chatcmpl-1");
         ("object", VStr "chat.completion");
         ("choices",
           VArr [ VObj [ ("index", VInt 0);
                         ("finish_reason", VStr finish);
                         ("message", VObj [ ("role", VStr "assistant");
                                            ("content", content) ]) ] ]) ].

(** An analysis that fits the schema, as the provider would write it. *)
Definition analysis_text : string :=
  jtext "{'sentiment':'negative','escalationRisk':'medium','primaryIntent':'Missing delivery','keyInformation':{'orderNumber':'12345','customerEmail':'','productSKU':'','issueDate':'','customerPhone':''},'suggestedActions':['Trace the parcel'],'commitments':[],'confidenceScore':0.9,'summary':'Order 12345 never arrived.'}".

(** The SDK's [APIError] for an HTTP status. *)
Definition api_error (code : Z) (msg : string) : JsError :=
  {| name := "Error";
     message := Number_toString (num_of_Z code) +:+ " " +:+ msg;
     fields := [("status", VInt code)] |}.

Definition unsupported_max_tokens : JsError :=
  api_error 400 "Unsupported parameter: 'max_tokens' is not supported with this model. Use 'max_completion_tokens' instead.".

(** Providers: one that answers every request alike, one that fails every
    request alike, and one of the newer generation, which refuses
    [max_tokens] and answers otherwise. *)
Definition answers (response : value) : list Event -> OpenAI -> Params -> Outcome value :=
  fun _ _ _ => Return response.

Definition fails (e : JsError) : list Event -> OpenAI -> Params -> Outcome value :=
  fun _ _ _ => Throw e.

Definition newer (o : Outcome value) : list Event -> OpenAI -> Params -> Outcome value :=
  fun _ _ p => match max_tokens p with
               | Some _ => Throw unsupported_max_tokens
               | None => o
               end.

Definition clock : string := "2025-01-01T00:00:00.000Z".

End Sample.

(** ** Words for the statements *)

(** The requests of a call go through the client that is in place after
    [initializeOpenAI], name the deployment the environment has, and ask
    for the analysis schema. *)
Definition through (w : World) (requests : list (OpenAI * Params)) : Prop :=
  Forall (fun r => openaiClient (initializeOpenAI w) = Some (fst r)
                   /\ model (snd r) = env_get w "AZURE_OPENAI_DEPLOYMENT"
                   /\ response_format (snd r) = request_format) requests.

(** The subschema a property name has, if any. *)
Fixpoint schema_of (k : string) (props : list (string * Schema)) : option Schema :=
  match props with
  | [] => None
  | (k', s) :: rest => if String.eqb k k' then Some s else schema_of k rest
  end.

Definition top_fields : list string :=
  ["sentiment"; "escalationRisk"; "primaryIntent"; "keyInformation";
   "suggestedActions"; "commitments"; "confidenceScore"; "summary"].

Definition key_fields : list string :=
  ["orderNumber"; "customerEmail"; "productSKU"; "issueDate"; "customerPhone"].

(** The closed schema, in the words of the specification: an object with
    all eight fields and no other, whose [keyInformation] is an object with
    its five fields, each a string, and no other. *)
Definition closed_analysis (v : value) : Prop :=
  exists fs,
    v = VObj fs
    /\ (forall k, In k top_fields -> has_prop k fs = true)
    /\ (forall k x, In (k, x) fs -> In k top_fields)
    /\ exists ks,
         lookup_prop "keyInformation" fs = VObj ks
         /\ (forall k, In k key_fields -> exists s, lookup_prop k ks = VStr s)
         /\ (forall k x, In (k, x) ks -> In k key_fields).

(** * The rest of the router, and the page that calls it *)

(** ** Evaluation without a world *)

Definition and_then {A B} (o : Outcome A) (k : A -> Outcome B) : Outcome B :=
  match o with
  | Return a => k a
  | Throw e => Throw e
  end.

(** ** Strings of values *)

Definition not_primitive : JsError :=
  new_TypeError "Cannot convert object to primitive value".

(** [String(v)] and [`${v}`] for a value of a JSON body.  An array is
    joined, its elements turned into strings in turn; an object inherits
    [toString] unless an own property of that name hides it, and as an own
    property of a parsed body is never a function, the conversion then
    throws. *)
Fixpoint String_of (v : value) : Outcome string :=
  match v with
  | VArr items =>
      and_then
        ((fix pieces (l : list value) : Outcome (list string) :=
            match l with
            | [] => Return []
            | x :: rest =>
                and_then (if nullish x then Return EmptyString else String_of x) (fun s =>
                and_then (pieces rest) (fun ss => Return (s :: ss)))
            end) items)
        (fun ss => Return (join_comma ss))
  | VObj props =>
      if has_prop "toString" props then Throw not_primitive
      else Return "[object Object]"
  | _ => Return (ToString v)
  end.

Definition printable (v : value) : bool :=
  match String_of v with Return _ => true | Throw _ => false end.

(** Induction on a value that reaches the elements of its arrays. *)
Section value_nested_ind.

Variable P : value -> Prop.
Hypothesis Hundefined : P VUndefined.
Hypothesis Hnull : P VNull.
Hypothesis Hbool : forall b, P (VBool b).
Hypothesis Hnum : forall n, P (VNum n).
Hypothesis Hstr : forall s, P (VStr s).
Hypothesis Harr : forall items, Forall P items -> P (VArr items).
Hypothesis Hobj : forall props, P (VObj props).

Fixpoint value_nested_ind (v : value) : P v :=
  match v with
  | VUndefined => Hundefined
  | VNull => Hnull
  | VBool b => Hbool b
  | VNum n => Hnum n
  | VStr s => Hstr s
  | VArr items =>
      Harr items
        ((fix all (l : list value) : Forall P l :=
            match l with
            | [] => @List.Forall_nil value P
            | x :: rest => @List.Forall_cons value P x rest (value_nested_ind x) (all rest)
            end) items)
  | VObj props => Hobj props
  end.

End value_nested_ind.

(** ** Dates *)

(** [new Date(t).toISOString()]: the engine's formatting [iso] of a time
    value, and a [RangeError] beyond the range of time values. *)
Definition Date_toISOString_at (iso : Z -> string) (t : Z) : Outcome string :=
  if Z.abs t <=? 8640000000000000 then Return (iso t)
  else Throw {| name := "RangeError"; message := "Invalid time value"; fields := [] |}.

(** A time value the clock can show and that leaves room for the longest
    deadline the router adds to it. *)
Definition clock_reading (t : Z) : Prop := 0 <= t <= 8640000000000000 - 72 * 60 * 60 * 1000.

(** ** [createMockCRMRecord] and the route [/finalize] *)

(** [const hours = riskLevel === 'high' ? 4 : riskLevel === 'medium' ? 24 : 72] *)
Definition resolution_hours (riskLevel : value) : Z :=
  if strict_eq_str riskLevel "high" then 4
  else if strict_eq_str riskLevel "medium" then 24
  else 72.

(** [now] is what [new Date()] reads. *)
Definition getEstimatedResolution (iso : Z -> string) (now : Z) (riskLevel : value)
    : Outcome string :=
  Date_toISOString_at iso (now + resolution_hours riskLevel * 60 * 60 * 1000).

Record CrmRecord := {
  caseId : string;
  title : string;
  priority : string;
  case_status : string;
  assignedTo : string;
  category : value;
  description : value;
  sentiment : value;
  customerInfo : value;
  nextActions : value;
  commitments : value;
  createdAt : string;
  estimatedResolution : string;
  confidenceScore : value
}.

(** [analysis.escalationRisk === 'high' ? 'High' : ... === 'medium' ? 'Medium' : 'Low'] *)
Definition priority_of (escalationRisk : value) : string :=
  if strict_eq_str escalationRisk "high" then "High"
  else if strict_eq_str escalationRisk "medium" then "Medium"
  else "Low".

(** The clock is read three times, in this order: [Date.now()] for the case
    number, [new Date()] for [createdAt], [new Date()] inside
    [getEstimatedResolution]; [now k] is the [k]-th reading.  The wait of
    1.5 seconds before them is not modelled. *)
Definition createMockCRMRecord (iso : Z -> string) (now : nat -> Z)
    (analysis scenarioId : value) : Outcome CrmRecord :=
  let caseId := "CASE-" +:+ Number_toString (num_of_Z (now 0%nat)) in
  and_then (get_member analysis "primaryIntent") (fun primaryIntent =>
  and_then (String_of primaryIntent) (fun shown =>
  and_then (get_member analysis "escalationRisk") (fun escalationRisk =>
  and_then (get_member analysis "summary") (fun summary =>
  and_then (get_member analysis "sentiment") (fun sentiment =>
  and_then (get_member analysis "keyInformation") (fun keyInformation =>
  and_then (get_member analysis "suggestedActions") (fun suggestedActions =>
  and_then (get_member analysis "commitments") (fun commitments =>
  and_then (Date_toISOString_at iso (now 1%nat)) (fun createdAt =>
  and_then (getEstimatedResolution iso (now 2%nat) escalationRisk) (fun estimatedResolution =>
  and_then (get_member analysis "confidenceScore") (fun confidenceScore =>
  Return {| caseId := caseId;
            title := "Customer Service Case - " +:+ shown;
            priority := priority_of escalationRisk;
            case_status := "Active";
            assignedTo := "Customer Service Team";
            category := primaryIntent;
            description := summary;
            sentiment := sentiment;
            customerInfo := keyInformation;
            nextActions := suggestedActions;
            commitments := commitments;
            createdAt := createdAt;
            estimatedResolution := estimatedResolution;
            confidenceScore := confidenceScore |}))))))))))).

(** The answer of [/finalize]: its status and the object given to
    [res.json]. *)
Record FinalizeBody := {
  finalize_success : bool;
  crmRecord : option CrmRecord;
  finalize_message : option string;
  finalize_timestamp : option string;
  finalize_error : option string
}.

Record FinalizeResponse := { finalize_status : Z; finalize_body : FinalizeBody }.

(** [const { analysis, scenarioId } = req.body] *)
Definition destructure_finalize (req_body : value) : Outcome (value * value) :=
  match req_body with
  | VUndefined =>
      Throw (new_TypeError "Cannot destructure property 'analysis' of 'req.body' as it is undefined.")
  | VNull =>
      Throw (new_TypeError "Cannot destructure property 'analysis' of 'req.body' as it is null.")
  | _ => Return (value_of (get_member req_body "analysis"),
                 value_of (get_member req_body "scenarioId"))
  end.

(** What the route writes to the console before it creates the record:
    [routes/analysis.js] formats the scenario id into a line, [part_002]
    writes nothing. *)
Definition announce_scenario (scenarioId : value) : Outcome unit :=
  and_then (String_of scenarioId) (fun _ => Return tt).

Definition announce_nothing (scenarioId : value) : Outcome unit := Return tt.

(** [router.post('/finalize', ...)], over what the revision writes to the
    console; its own [new Date()] is the fourth reading of the clock. *)
Definition post_finalize (announce : value -> Outcome unit)
    (iso : Z -> string) (now : nat -> Z) (req_body : value) : FinalizeResponse :=
  match
    and_then (destructure_finalize req_body) (fun fields =>
    and_then (announce (snd fields)) (fun _ =>
    and_then (createMockCRMRecord iso now (fst fields) (snd fields)) (fun record =>
    and_then (Date_toISOString_at iso (now 3%nat)) (fun timestamp =>
    Return {| finalize_status := 200;
              finalize_body :=
                {| finalize_success := true;
                   crmRecord := Some record;
                   finalize_message := Some "Analysis finalized and sent to CRM";
                   finalize_timestamp := Some timestamp;
                   finalize_error := None |} |}))))
  with
  | Return answer => answer
  | Throw error =>
      {| finalize_status := 500;
         finalize_body :=
           {| finalize_success := false;
              crmRecord := None;
              finalize_message := None;
              finalize_timestamp := None;
              finalize_error := Some ("Failed to finalize analysis: "
                                      +:+ ToString (error_prop error "message")) |} |}
  end.

(** ** The scenario routes *)

(** [scenarios.find(s => s.id === id)] *)
Fixpoint find_scenario (id : string) (scenarios : list value) : Outcome value :=
  match scenarios with
  | [] => Return VUndefined
  | s :: rest =>
      and_then (get_member s "id") (fun s_id =>
        if strict_eq_str s_id id then Return s else find_scenario id rest)
  end.

(** [router.get('/scenarios/:id', ...)] over the array read from
    [data/scenarios.json]: the status and the object given to [res.json].
    An error thrown here is not caught by the route. *)
Definition get_scenario (scenarios : list value) (id : string) : Outcome (Z * value) :=
  and_then (find_scenario id scenarios) (fun scenario =>
    if negb (truthy scenario)
    then Return (404, VObj [("error", VStr "Scenario not found")])
    else Return (200, scenario)).

(** [router.get('/scenarios', ...)] *)
Definition get_scenarios (scenarios : list value) : Z * value := (200, VArr scenarios).

(** ** [public/app.js]: strings *)

Module App.

Definition bytes (l : list Z) : string :=
  string_of_list_ascii (map (fun n => ascii_of_N (Z.to_N n)) l).

(** The characters [String.prototype.trim] removes (white space and line
    terminators of ECMA-262), in UTF-8. *)
Definition white_space : list string :=
  [ bytes [9]; bytes [10]; bytes [11]; bytes [12]; bytes [13]; bytes [32];
    bytes [194; 160];                                   (* U+00A0 *)
    bytes [225; 154; 128];                              (* U+1680 *)
    bytes [226; 128; 128]; bytes [226; 128; 129]; bytes [226; 128; 130];
    bytes [226; 128; 131]; bytes [226; 128; 132]; bytes [226; 128; 133];
    bytes [226; 128; 134]; bytes [226; 128; 135]; bytes [226; 128; 136];
    bytes [226; 128; 137]; bytes [226; 128; 138];       (* U+2000 .. U+200A *)
    bytes [226; 128; 168]; bytes [226; 128; 169];       (* U+2028, U+2029 *)
    bytes [226; 128; 175];                              (* U+202F *)
    bytes [226; 129; 159];                              (* U+205F *)
    bytes [227; 128; 128];                              (* U+3000 *)
    bytes [239; 187; 191] ].                            (* U+FEFF *)

Fixpoint string_rev (s : string) : string :=
  match s with
  | EmptyString => EmptyString
  | String c s' => string_rev s' +:+ String c EmptyString
  end.

(** The length of the mark (one of [marks]) that [s] starts with, or 0. *)
Definition mark_length (marks : list string) (s : string) : nat :=
  match List.find (fun m => String.prefix m s) marks with
  | Some m => String.length m
  | None => O
  end.

(** Drop marks from the front for as long as there is one; [skip] counts
    the bytes of the current mark still to drop. *)
Fixpoint strip_marks (marks : list string) (skip : nat) (s : string) : string :=
  match s with
  | EmptyString => EmptyString
  | String _ s' =>
      match skip with
      | S k => strip_marks marks k s'
      | O =>
          match mark_length marks s with
          | O => s
          | S k => strip_marks marks k s'
          end
      end
  end.

Definition trimStart (s : string) : string := strip_marks white_space 0 s.

Definition trimEnd (s : string) : string :=
  string_rev (strip_marks (map string_rev white_space) 0 (string_rev s)).

(** [s.trim()] *)
Definition trim (s : string) : string := trimEnd (trimStart s).

(** [s.split(sep)] for a separator that is not empty: [cur] is the piece
    being read, [skip] the bytes of a separator still to pass. *)
Fixpoint split_from (sep : string) (skip : nat) (cur : string) (s : string) : list string :=
  match s with
  | EmptyString => [cur]
  | String c s' =>
      match skip with
      | S k => split_from sep k cur s'
      | O =>
          if String.prefix sep s
          then cur :: split_from sep (String.length sep - 1) EmptyString s'
          else split_from sep 0 (cur +:+ String c EmptyString) s'
      end
  end.

Definition split (sep : string) (s : string) : list string :=
  split_from sep 0 EmptyString s.

(** [l.join(sep)] for an array of strings. *)
Fixpoint join (sep : string) (l : list string) : string :=
  match l with
  | [] => EmptyString
  | [s] => s
  | s :: rest => s +:+ sep +:+ join sep rest
  end.

(** [s.replace(pattern, replacement)] for a pattern that is a string: the
    first occurrence only.  (The replacements used here have no [$].) *)
Fixpoint replace_first (pattern replacement : string) (s : string) : string :=
  if String.prefix pattern s
  then replacement +:+ string_drop (String.length pattern) s
  else match s with
       | EmptyString => EmptyString
       | String c s' => String c (replace_first pattern replacement s')
       end.

(** [s.replace(/c/g, replacement)] for a single character [c]. *)
Fixpoint replace_char (c : ascii) (replacement : string) (s : string) : string :=
  match s with
  | EmptyString => EmptyString
  | String d s' =>
      (if Ascii.eqb c d then replacement else String d EmptyString)
      +:+ replace_char c replacement s'
  end.

(** What a method call on a value that lacks the method throws. *)
Definition not_a_function (what method : string) : JsError :=
  new_TypeError (what +:+ "." +:+ method +:+ " is not a function").

(** The receiver of a string method: the string, or the [TypeError] of the
    call [what.method(...)]. *)
Definition string_receiver (what method : string) (v : value) : Outcome string :=
  match v with
  | VStr s => Return s
  | VUndefined => Throw (cannot_read "undefined" method)
  | VNull => Throw (cannot_read "null" method)
  | _ => Throw (not_a_function what method)
  end.

(** The receiver of an array method. *)
Definition array_receiver (what method : string) (v : value) : Outcome (list value) :=
  match v with
  | VArr items => Return items
  | VUndefined => Throw (cannot_read "undefined" method)
  | VNull => Throw (cannot_read "null" method)
  | _ => Throw (not_a_function what method)
  end.

(** ** [public/app.js]: the functions *)

Record ChatLine := { type : string; content : string }.

(** The callback of [.map] in [parseTranscription]; [None] is [null]. *)
Definition parse_line (line : string) : option ChatLine :=
  if String.prefix "Agent:" line then
    Some {| type := "agent"; content := trim (replace_first "Agent:" EmptyString line) |}
  else if String.prefix "Customer:" line then
    Some {| type := "customer"; content := trim (replace_first "Customer:" EmptyString line) |}
  else None.

Definition some_list {A} (o : option A) : list A :=
  match o with Some a => [a] | None => [] end.

Definition parseTranscription (transcription : value) : Outcome (list ChatLine) :=
  and_then (string_receiver "transcription" "split" transcription) (fun s =>
    Return
      (flat_map some_list
         (map parse_line
            (List.filter (fun line => negb (String.eqb (trim line) EmptyString))
               (split (bytes [10; 10]) s))))).

Definition escapeHtml (unsafe : value) : string :=
  if nullish unsafe then EmptyString else
  replace_char "'" "&#039;"
    (replace_char dquote "&quot;"
       (replace_char ">" "&gt;"
          (replace_char "<" "&lt;"
             (replace_char "&" "&amp;" (ToString unsafe))))).

Definition parseCommaSeparatedValues (inputString : string) : list string :=
  List.filter (fun value => negb (String.eqb value EmptyString))
    (map trim (split "," inputString)).

(** [\w] *)
Definition is_word (c : ascii) : bool :=
  let n := nat_of_ascii c in
  ((48 <=? n) && (n <=? 57) || (65 <=? n) && (n <=? 90)
   || (97 <=? n) && (n <=? 122) || (n =? 95))%nat.

(** [letter.toUpperCase()] for a character that [\w] matches. *)
Definition upper (c : ascii) : ascii :=
  let n := nat_of_ascii c in
  if ((97 <=? n) && (n <=? 122))%nat then ascii_of_nat (n - 32) else c.

(** [s.replace(/\b\w/g, letter => letter.toUpperCase())]: a word character
    is replaced when the character before it is not one; [inside] tells
    whether the character before is a word character. *)
Fixpoint upper_word_starts (inside : bool) (s : string) : string :=
  match s with
  | EmptyString => EmptyString
  | String c s' =>
      String (if is_word c && negb inside then upper c else c)
        (upper_word_starts (is_word c) s')
  end.

Definition formatIntent (intent : value) : Outcome string :=
  and_then (string_receiver "intent" "replace" intent) (fun s =>
    Return (upper_word_starts false (replace_char "_" " " s))).

Definition formatAction (action : value) : Outcome string :=
  and_then (string_receiver "action" "replace" action) (fun s =>
    Return (upper_word_starts false (replace_char "_" " " s))).

(** [items.map(f)] for an [f] that may throw. *)
Fixpoint map_outcome {A B} (f : A -> Outcome B) (l : list A) : Outcome (list B) :=
  match l with
  | [] => Return []
  | a :: rest =>
      and_then (f a) (fun b => and_then (map_outcome f rest) (fun bs => Return (b :: bs)))
  end.

Definition action_tag (action : value) : Outcome string :=
  and_then (formatAction action) (fun formatted =>
    Return ("<span class=" +:+ String dquote "action-tag" +:+ String dquote ">"
            +:+ escapeHtml (VStr formatted) +:+ "</span>")).

Definition createActionTags (actions : value) : Outcome string :=
  and_then (array_receiver "actions" "map" actions) (fun items =>
  and_then (map_outcome action_tag items) (fun tags =>
    Return (join EmptyString tags))).

Definition buildCrmPayload (analysis : value) : Outcome value :=
  and_then (get_member analysis "sentiment") (fun sentiment =>
  and_then (get_member analysis "escalationRisk") (fun escalationRisk =>
  and_then (get_member analysis "primaryIntent") (fun primaryIntent =>
  and_then (get_member analysis "keyInformation") (fun keyInformation =>
  and_then (get_member analysis "suggestedActions") (fun suggestedActions =>
  and_then (get_member analysis "commitments") (fun commitments =>
  and_then (get_member analysis "confidenceScore") (fun confidenceScore =>
  and_then (get_member analysis "summary") (fun summary =>
    Return (VObj [ ("sentiment", sentiment);
                   ("escalationRisk", escalationRisk);
                   ("primaryIntent", primaryIntent);
                   ("keyInformation", keyInformation);
                   ("suggestedActions", suggestedActions);
                   ("commitments", commitments);
                   ("confidenceScore", confidenceScore);
                   ("summary", summary) ]))))))))).

(** [const escalationHours = priority === 'High' ? 2 : priority === 'Medium' ? 8 : 24] *)
Definition escalationHours (priority : value) : Z :=
  if strict_eq_str priority "High" then 2
  else if strict_eq_str priority "Medium" then 8
  else 24.

(** [now] is what [Date.now()] reads; [toLocaleString] is the engine's
    formatting for the user's locale. *)
Definition getEscalationTime (toLocaleString : Z -> string) (now : Z) (priority : value)
    : string :=
  toLocaleString (now + escalationHours priority * 60 * 60 * 1000).

(** What [fetch] resolves to, as far as the page reads it: [ok], [status],
    and what [response.json()] gives. *)
Record FetchResponse := {
  response_ok : bool;
  response_status : value;
  response_json : Outcome value
}.

(** The browser the page runs in: [fetch] (by URL and request body; the
    method and the headers are the same in every call) and
    [JSON.stringify]. *)
Record Browser := {
  fetch : string -> string -> Outcome FetchResponse;
  JSON_stringify : value -> string
}.

Definition requestAnalysis (b : Browser) (selectedScenario : value) : Outcome value :=
  and_then (get_member selectedScenario "transcription") (fun transcription =>
  and_then (get_member selectedScenario "id") (fun id =>
  and_then (fetch b "/api/analyze"
              (JSON_stringify b (VObj [("transcription", transcription); ("scenarioId", id)])))
    (fun response =>
       if negb (response_ok response)
       then Throw (new_Error ("Analysis request failed: HTTP "
                              +:+ ToString (response_status response)))
       else response_json response))).

Definition submitFinalAnalysis (b : Browser) (currentAnalysisResult selectedScenario : value)
    : Outcome value :=
  and_then (get_member selectedScenario "id") (fun id =>
  and_then (fetch b "/api/finalize"
              (JSON_stringify b (VObj [("analysis", currentAnalysisResult); ("scenarioId", id)])))
    (fun response =>
       if negb (response_ok response)
       then Throw (new_Error ("Finalization failed: HTTP "
                              +:+ ToString (response_status response)))
       else response_json response)).

End App.

(** ** Sample surroundings for the rest *)

Module Sample2.

Definition pad (width : nat) (n : Z) : string :=
  let ds := digits_of (Z.to_N n) in
  zeros (width - String.length ds) +:+ ds.

(** [toISOString] for the years 0 to 9999: the civil date of a day number
    (days since 1970-01-01), then the time of day. *)
Definition iso (t : Z) : string :=
  let day := t / 86400000 in
  let ms := t mod 86400000 in
  let z := day + 719468 in
  let era := z / 146097 in
  let doe := z mod 146097 in
  let yoe := (doe - doe / 1460 + doe / 36524 - doe / 146096) / 365 in
  let doy := doe - (365 * yoe + yoe / 4 - yoe / 100) in
  let mp := (5 * doy + 2) / 153 in
  let d := doy - (153 * mp + 2) / 5 + 1 in
  let m := if mp <? 10 then mp + 3 else mp - 9 in
  let y := yoe + era * 400 + (if m <=? 2 then 1 else 0) in
  pad 4 y +:+ "-" +:+ pad 2 m +:+ "-" +:+ pad 2 d +:+ "T"
  +:+ pad 2 (ms / 3600000) +:+ ":" +:+ pad 2 (ms / 60000 mod 60) +:+ ":"
  +:+ pad 2 (ms / 1000 mod 60) +:+ "." +:+ pad 3 (ms mod 1000) +:+ "Z".

(** A clock that starts on 2025-01-01 and is one millisecond further at
    each of the first readings. *)
Definition now (k : nat) : Z := 1735689600000 + Z.of_nat (Nat.min k 10).

Definition analysis : value :=
  match Json.parse Sample.analysis_text with
  | Return v => v
  | Throw _ => VUndefined
  end.

Definition scenarios : list value :=
  [ VObj [("id", VStr "airline"); ("title", VStr "Contoso Airlines");
          ("transcription", Sample.transcript)];
    VObj [("id", VStr "electronics"); ("title", VStr "Contoso Electronics");
          ("transcription", VStr "Agent: Hello.")] ].

(** A browser whose [fetch] answers every request with [response]. *)
Definition browser (response : App.FetchResponse) : App.Browser :=
  {| App.fetch := fun _ _ => Return response;
     App.JSON_stringify := fun _ => EmptyString |}.

End Sample2.

(** ** More words for the statements *)

(** The character [c] occurs in [s]; how often it does. *)
Fixpoint has_char (c : ascii) (s : string) : bool :=
  match s with
  | EmptyString => false
  | String d s' => Ascii.eqb c d || has_char c s'
  end.

Fixpoint count_char (c : ascii) (s : string) : nat :=
  match s with
  | EmptyString => O
  | String d s' => ((if Ascii.eqb c d then 1 else 0) + count_char c s')%nat
  end.

(** What [escapeHtml] writes for one character. *)
Definition escape_char (c : ascii) : string :=
  if Ascii.eqb c "&" then "&amp;"
  else if Ascii.eqb c "<" then "&lt;"
  else if Ascii.eqb c ">" then "&gt;"
  else if Ascii.eqb c dquote then "&quot;"
  else if Ascii.eqb c "'" then "&#039;"
  else String c EmptyString.

Fixpoint escape_chars (s : string) : string :=
  match s with
  | EmptyString => EmptyString
  | String c s' => escape_char c +:+ escape_chars s'
  end.

(** [s] without its first [n] characters. *)
Fixpoint skip_chars (n : nat) (s : string) : string :=
  match n, s with
  | S k, String _ s' => skip_chars k s'
  | _, _ => s
  end.

Fixpoint concat_strings (l : list string) : string :=
  match l with
  | [] => EmptyString
  | s :: rest => s +:+ concat_strings rest
  end.

(** Marks are not empty. *)
Definition proper_marks (marks : list string) : Prop :=
  Forall (fun m => m <> EmptyString) marks.

(** A value an edit field can hold: not empty, no comma, nothing to trim. *)
Definition plain_value (x : string) : Prop :=
  x <> EmptyString /\ has_char "," x = false /\ App.trim x = x.

(** [String.prefix], read off the first string. *)
Fixpoint starts_with (m s : string) : bool :=
  match m, s with
  | EmptyString, _ => true
  | String c m', String d s' => Ascii.eqb c d && starts_with m' s'
  | String _ _, EmptyString => false
  end.

Definition line_feed : ascii := ascii_of_nat 10.

(** How a transcript writes one utterance. *)
Definition show_line (l : App.ChatLine) : string :=
  (if String.eqb (App.type l) "agent" then "Agent:" else "Customer:")
  +:+ " " +:+ App.content l.

(** A chat line of one of the two speakers with nothing left to trim. *)
Definition utterance (l : App.ChatLine) : Prop :=
  (App.type l = "agent" \/ App.type l = "customer")
  /\ App.trim (App.content l) = App.content l.

Definition is_string (v : value) : Prop := exists s, v = VStr s.

(** What [fetch] resolves to when the server answers with [status] and a
    body that [response.json()] reads as [json]: [ok] is a status from 200
    to 299. *)
Definition answered (status : Z) (json : Outcome value) : App.FetchResponse :=
  {| App.response_ok := (200 <=? status) && (status <=? 299);
     App.response_status := VInt status;
     App.response_json := json |}.

(** The first request is answered with something the truncation check can
    read and passes, or fails with an error that asks for no retry. *)
Definition plainly_answered (first : Outcome value) : Prop :=
  match first with
  | Return response =>
      exists reason,
        Part002.finish_reason response = Return reason
        /\ strict_eq_str reason "length" = false
  | Throw e => Part002.unsupported_parameter e = false
  end.

(** A block that starts with one of the two labels, and the line such a
    block is read as: the speaker of its label and what follows the label,
    trimmed. *)
Definition labelled (block : string) : bool :=
  String.prefix "Agent:" block || String.prefix "Customer:" block.

Definition line_of (block : string) : App.ChatLine :=
  if String.prefix "Agent:" block
  then {| App.type := "agent"; App.content := App.trim (skip_chars 6 block) |}
  else {| App.type := "customer"; App.content := App.trim (skip_chars 9 block) |}.

(** * Properties *)

(** ** Worlds and traces *)

Lemma after_nil (w : World) : after w [] = w.
Proof. destruct w as [e c t]. unfold after. simpl. now rewrite app_nil_r. Qed.

Lemma after_after (w : World) (a b : list Event) :
  after (after w a) b = after w (a ++ b).
Proof. unfold after. simpl. now rewrite app_assoc. Qed.

Lemma outbound_app (a b : list Event) : outbound (a ++ b) = outbound a ++ outbound b.
Proof. unfold outbound. apply flat_map_app. Qed.

Lemma parsed_app (a b : list Event) : parsed (a ++ b) = parsed a ++ parsed b.
Proof. unfold parsed. apply flat_map_app. Qed.

Lemma env_get_after (w : World) (evs : list Event) (k : string) :
  env_get (after w evs) k = env_get w k.
Proof. reflexivity. Qed.

(** ** Numbers *)

(** A number equals at most one integer. *)
Lemma num_eqb_of_Z_inj (n : number) (a b : Z) :
  num_eqb n (num_of_Z a) = true -> num_eqb n (num_of_Z b) = true -> a = b.
Proof.
  unfold num_eqb, num_scale. simpl. set (e := Z.min (expo n) 0).
  rewrite !Z.eqb_eq. intros Ha Hb.
  assert (0 < 10 ^ (0 - e)) by (apply Z.pow_pos_nonneg; lia).
  nia.
Qed.

Lemma strict_eq_num_inj (v : value) (a b : Z) :
  strict_eq_num v a = true -> strict_eq_num v b = true -> a = b.
Proof. destruct v; try discriminate. apply num_eqb_of_Z_inj. Qed.

(** ** Reading properties *)

(** Optional chaining and plain access agree away from [null] and
    [undefined], and only there does optional chaining find anything. *)
Lemma get_member_opt (v : value) (k : string) :
  nullish v = false -> get_member v k = Return (opt_member v k).
Proof. now destruct v. Qed.

Lemma get_first_opt (v : value) :
  nullish v = false -> get_first v = Return (opt_first v).
Proof. destruct v as [| | | |s| |]; try easy. now destruct s. Qed.

Lemma opt_member_defined (v : value) (k : string) :
  nullish (opt_member v k) = false -> nullish v = false.
Proof. now destruct v. Qed.

Lemma opt_first_defined (v : value) :
  nullish (opt_first v) = false -> nullish v = false.
Proof. now destruct v. Qed.

Lemma truthy_defined (v : value) : truthy v = true -> nullish v = false.
Proof. now destruct v. Qed.

(** The finish reason can be read exactly when there is a first choice. *)
Lemma finish_reason_first (response : value) :
  nullish (opt_first (opt_member response "choices")) = false ->
  Part002.finish_reason response
  = Return (opt_member (opt_first (opt_member response "choices")) "finish_reason").
Proof.
  intros Hfirst. unfold Part002.finish_reason.
  pose proof (opt_first_defined _ Hfirst) as Hchoices.
  pose proof (opt_member_defined _ _ Hchoices) as Hresponse.
  rewrite (get_member_opt _ _ Hresponse), (get_first_opt _ Hchoices).
  now apply get_member_opt.
Qed.

(** Content that is truthy sits under a first choice, so reading the
    finish reason does not throw. *)
Lemma raw_content_finish_reason (response : value) :
  truthy (raw_content response) = true ->
  exists reason, Part002.finish_reason response = Return reason.
Proof.
  unfold raw_content. intros Htruthy. eexists. apply finish_reason_first.
  now apply opt_member_defined with "message", opt_member_defined with "content",
    truthy_defined.
Qed.

Lemma finish_reason_no_first (response : value) :
  nullish (opt_first (opt_member response "choices")) = true ->
  exists what key, Part002.finish_reason response = Throw (cannot_read what key).
Proof.
  intros Hnone. unfold Part002.finish_reason.
  destruct (nullish response) eqn:Hresponse.
  { destruct response; try discriminate; simpl; eauto. }
  rewrite (get_member_opt _ _ Hresponse).
  destruct (nullish (opt_member response "choices")) eqn:Hchoices.
  { destruct (opt_member response "choices"); try discriminate; simpl; eauto. }
  rewrite (get_first_opt _ Hchoices).
  destruct (opt_first (opt_member response "choices")); try discriminate; simpl; eauto.
Qed.

(** Reading [response.choices[0].finish_reason] fails only with the
    engine's [TypeError]. *)
Lemma finish_reason_throws (response : value) (e : JsError) :
  Part002.finish_reason response = Throw e ->
  exists what key, e = cannot_read what key.
Proof.
  unfold Part002.finish_reason. intros H.
  destruct (get_member response "choices") as [choices|e1] eqn:H1.
  - destruct (get_first choices) as [first|e2] eqn:H2.
    + destruct first; simpl in H; try discriminate;
        injection H as <-; eauto.
    + injection H as <-.
      destruct choices as [| | | | s | |]; simpl in H2; try discriminate;
        try (injection H2 as <-; eauto).
      now destruct s.
  - injection H as <-.
    destruct response; simpl in H1; try discriminate; injection H1 as <-; eauto.
Qed.

(** ** The recursion bound of the parser *)

Lemma consumes_keeps {A} (res : Json.Parsed A) (s : string) :
  Json.consumes res s -> Json.keeps res s.
Proof. destruct res; simpl; [lia|auto]. Qed.

Lemma consumes_longer {A} (res : Json.Parsed A) (s s' : string) :
  Json.consumes res s -> (String.length s <= String.length s')%nat -> Json.consumes res s'.
Proof. destruct res; simpl; [lia|auto]. Qed.

Lemma unexpected_consumes {A} (s : string) (pos : nat) (s' : string) :
  Json.consumes (@Json.unexpected A s pos) s'.
Proof. destruct s; simpl; discriminate. Qed.

Lemma skip_ws_length (s : string) (pos : nat) :
  (String.length (fst (Json.skip_ws s pos)) <= String.length s)%nat.
Proof.
  revert pos. induction s as [|c s IH]; intros pos; simpl; [lia|].
  destruct (Json.is_ws c); simpl; [specialize (IH (S pos)); lia | lia].
Qed.

Lemma eat_length (c : ascii) (s r : string) :
  Json.eat c s = Some r -> String.length s = S (String.length r).
Proof.
  destruct s as [|d s']; simpl; [discriminate|].
  destruct (Ascii.eqb c d); [|discriminate]. now intros [= ->].
Qed.

Lemma digits_length (s : string) (acc : Z) (len : nat) :
  (String.length (snd (Json.digits s acc len)) <= String.length s)%nat.
Proof.
  revert acc len. induction s as [|c s IH]; intros acc len; simpl; [lia|].
  destruct (Json.is_digit c); simpl; [|lia].
  specialize (IH (acc * 10 + Json.digit_val c) (S len)). lia.
Qed.

Lemma hex_digits_length (n : nat) (s : string) (pos : nat) (acc : N) :
  Json.keeps (Json.hex_digits n s pos acc) s.
Proof.
  revert s pos acc. induction n as [|n IH]; intros s pos acc; simpl; [lia|].
  destruct s as [|c s']; [discriminate|].
  destruct (Json.hex_val c); [|discriminate].
  specialize (IH s' (S pos) (acc * 16 + n0)%N).
  destruct (Json.hex_digits n s' (S pos) (acc * 16 + n0)%N); simpl in *; [lia|auto].
Qed.

Lemma low_escape_length (s : string) (pos : nat) (lo : N) (pos' : nat) (rest : string) :
  Json.low_escape s pos = Some (lo, pos', rest) ->
  (String.length rest <= String.length s)%nat.
Proof.
  unfold Json.low_escape. destruct s as [|b [|u s']]; try discriminate.
  destruct (Ascii.eqb b "\" && Ascii.eqb u "u"); [|discriminate].
  pose proof (hex_digits_length 4 s' (pos + 2) 0%N) as Hhex. unfold Json.hex4.
  destruct (Json.hex_digits 4 s' (pos + 2) 0) as [a p r|e]; [|discriminate].
  destruct (Json.is_low a); [|discriminate]. intros [= <- <- <-]. simpl in *. lia.
Qed.

Lemma string_body_consumes (fuel : nat) (s : string) (pos : nat) (acc : string) :
  (String.length s < fuel)%nat -> Json.consumes (Json.string_body fuel s pos acc) s.
Proof.
  revert s pos acc. induction fuel as [|fuel IH]; intros s pos acc Hfuel; [lia|].
  simpl. destruct s as [|c s']; [discriminate|]. simpl in Hfuel.
  destruct (Ascii.eqb c dquote); [simpl; lia|].
  destruct (nat_of_ascii c <? 32)%nat; [discriminate|].
  destruct (Ascii.eqb c "\").
  - destruct s' as [|e s'']; [discriminate|]. simpl in Hfuel.
    assert (Hplain : forall n,
              Json.consumes
                (Json.string_body fuel s'' (pos + 2) (acc +:+ String (ascii_of_nat n) EmptyString))
                (String c (String e s''))).
    { intros n. eapply consumes_longer; [apply IH; lia | simpl; lia]. }
    repeat (match goal with |- context [if Ascii.eqb e ?x then _ else _] =>
              destruct (Ascii.eqb e x); [first [apply Hplain | idtac]|] end);
      try discriminate.
    pose proof (hex_digits_length 4 s'' (pos + 2) 0%N) as Hhex. unfold Json.hex4.
    destruct (Json.hex_digits 4 s'' (pos + 2) 0) as [u p rest|err]; [|exact Hhex].
    simpl in Hhex.
    destruct (if Json.is_high u then Json.low_escape rest p else None)
      as [[[lo p'] rest']|] eqn:Hlow.
    + destruct (Json.is_high u); [|discriminate].
      apply low_escape_length in Hlow.
      eapply consumes_longer; [apply IH; lia | simpl; lia].
    + eapply consumes_longer; [apply IH; lia | simpl; lia].
  - eapply consumes_longer; [apply IH; lia | simpl; lia].
Qed.

Lemma fraction_keeps (ip : Z) (s : string) (pos : nat) :
  Json.keeps (Json.fraction ip s pos) s.
Proof.
  unfold Json.fraction. destruct (Json.eat "." s) as [s'|] eqn:Heat; [|simpl; lia].
  apply eat_length in Heat. pose proof (digits_length s' ip 0) as Hlen.
  destruct (Json.digits s' ip 0) as [[m flen] rest]. simpl in Hlen.
  destruct flen; [apply consumes_keeps, unexpected_consumes | simpl; lia].
Qed.

Lemma exponent_keeps (s : string) (pos : nat) : Json.keeps (Json.exponent s pos) s.
Proof.
  unfold Json.exponent. destruct s as [|c s']; [simpl; lia|].
  destruct (Ascii.eqb c "e" || Ascii.eqb c "E"); [|simpl; lia].
  assert (Hsign : forall eneg s1 p1,
            (String.length s1 <= String.length s')%nat ->
            Json.keeps
              (match Json.digits s1 0 0 with
               | (_, O, _) => Json.unexpected s1 p1
               | (ex, (S _) as elen, rest) =>
                   Json.Ok (if eneg : bool then - ex else ex) (p1 + elen)%nat rest
               end) (String c s')).
  { intros eneg s1 p1 Hs1. pose proof (digits_length s1 0 0) as Hlen.
    destruct (Json.digits s1 0 0) as [[ex elen] rest]. simpl in Hlen.
    destruct elen; [apply consumes_keeps, unexpected_consumes | simpl; lia]. }
  destruct (Json.eat "-" s') as [s''|] eqn:Hminus.
  - apply eat_length in Hminus. apply (Hsign true s'' (pos + 2)%nat). lia.
  - destruct (Json.eat "+" s') as [s''|] eqn:Hplus.
    + apply eat_length in Hplus. apply (Hsign false s'' (pos + 2)%nat). lia.
    + apply (Hsign false s' (S pos)). lia.
Qed.

Lemma number_literal_consumes (s : string) (pos : nat) :
  Json.consumes (Json.number_literal s pos) s.
Proof.
  unfold Json.number_literal.
  assert (Hrest : forall neg s1 p1,
            (String.length s1 <= String.length s)%nat ->
            Json.consumes
              (match s1 with
               | EmptyString => Json.Err Json.UnexpectedEnd
               | String d s1' =>
                   if negb (Json.is_digit d) then Json.Err (Json.UnexpectedToken d p1) else
                   let '(ip, ilen, s2) :=
                     if Ascii.eqb d "0" then (0, 1%nat, s1') else Json.digits s1 0 0 in
                   match Json.fraction ip s2 (p1 + ilen) with
                   | Json.Err e => Json.Err e
                   | Json.Ok (m, flen) p3 s3 =>
                       match Json.exponent s3 p3 with
                       | Json.Err e => Json.Err e
                       | Json.Ok ex p4 s4 =>
                           Json.Ok {| mant := if neg : bool then - m else m;
                                      expo := ex - flen |} p4 s4
                       end
                   end
               end) s).
  { intros neg s1 p1 Hs1. destruct s1 as [|d s1']; [discriminate|].
    destruct (Json.is_digit d) eqn:Hd; simpl negb; cbv iota; [|discriminate].
    assert (Hint : exists ip ilen s2,
              (if Ascii.eqb d "0" then (0, 1%nat, s1') else Json.digits (String d s1') 0 0)
              = (ip, ilen, s2) /\ (String.length s2 <= String.length s1')%nat).
    { destruct (Ascii.eqb d "0"); [eexists _, _, _; split; [reflexivity | lia]|].
      simpl Json.digits. rewrite Hd.
      pose proof (digits_length s1' (0 * 10 + Json.digit_val d) 1) as Hlen.
      destruct (Json.digits s1' _ 1) as [[ip ilen] s2]. eexists _, _, _. split; eauto. }
    destruct Hint as (ip & ilen & s2 & -> & Hs2). simpl in Hs1.
    pose proof (fraction_keeps ip s2 (p1 + ilen)) as Hfrac.
    destruct (Json.fraction ip s2 (p1 + ilen)) as [[m flen] p3 s3|e]; [|exact Hfrac].
    simpl in Hfrac. pose proof (exponent_keeps s3 p3) as Hexp.
    destruct (Json.exponent s3 p3) as [ex p4 s4|e]; [|exact Hexp].
    simpl in Hexp |- *. lia. }
  destruct (Json.eat "-" s) as [s'|] eqn:Hminus.
  - apply eat_length in Hminus. apply (Hrest true s' (S pos)). lia.
  - apply (Hrest false s pos). lia.
Qed.

Lemma word_length (w s : string) (pos : nat) :
  match Json.word w s pos with
  | Json.Ok _ _ r => (String.length r + String.length w = String.length s)%nat
  | Json.Err e => e <> Json.OutOfFuel
  end.
Proof.
  revert s pos. induction w as [|c w IH]; intros s pos; simpl; [lia|].
  destruct s as [|d s']; [discriminate|].
  destruct (Ascii.eqb c d); [|discriminate].
  specialize (IH s' (S pos)). destruct (Json.word w s' (S pos)); simpl; [lia|auto].
Qed.

Lemma literal_consumes (w : string) (v : value) (s : string) (pos : nat) :
  (0 < String.length w)%nat -> Json.consumes (Json.literal w v s pos) s.
Proof.
  intros Hw. unfold Json.literal. pose proof (word_length w s pos) as Hword.
  destruct (Json.word w s pos); simpl; [lia|auto].
Qed.

(** Fuel for twice the length of the text (and one or two more) is never
    used up, and a value that is read takes at least one character. *)
Lemma parse_within_fuel (fuel : nat) :
  (forall s pos,
     (2 * String.length s + 1 <= fuel)%nat ->
     Json.consumes (Json.parse_value fuel s pos) s)
  /\ (forall s pos acc,
        (2 * String.length s + 2 <= fuel)%nat ->
        Json.consumes (Json.parse_elements fuel s pos acc) s)
  /\ (forall s pos acc,
        (2 * String.length s + 2 <= fuel)%nat ->
        Json.consumes (Json.parse_members fuel s pos acc) s).
Proof.
  induction fuel as [|fuel (IHv & IHe & IHm)]; [repeat split; intros; lia|].
  split; [|split].
  - intros s pos Hfuel.
    cbn -[Json.string_body Json.number_literal Json.literal Json.skip_ws Json.eat Nat.mul].
    pose proof (skip_ws_length s pos) as Hws.
    destruct (Json.skip_ws s pos) as [s0 p0]. simpl in Hws.
    destruct s0 as [|c s1]; [discriminate|]. simpl in Hws.
    destruct (Ascii.eqb c "{").
    { pose proof (skip_ws_length s1 (S p0)) as Hws2.
      destruct (Json.skip_ws s1 (S p0)) as [s2 p2]. simpl in Hws2.
      destruct (Json.eat "}" s2) as [s3|] eqn:Heat.
      - apply eat_length in Heat. simpl. lia.
      - eapply consumes_longer; [apply IHm|]; lia. }
    destruct (Ascii.eqb c "[").
    { pose proof (skip_ws_length s1 (S p0)) as Hws2.
      destruct (Json.skip_ws s1 (S p0)) as [s2 p2]. simpl in Hws2.
      destruct (Json.eat "]" s2) as [s3|] eqn:Heat.
      - apply eat_length in Heat. simpl. lia.
      - eapply consumes_longer; [apply IHe|]; lia. }
    destruct (Ascii.eqb c dquote).
    { pose proof (string_body_consumes (S (String.length s1)) s1 (S p0) EmptyString
                    ltac:(lia)) as Hstr.
      destruct (Json.string_body _ s1 (S p0) EmptyString); simpl in Hstr |- *; [lia|auto]. }
    destruct (Ascii.eqb c "-" || Json.is_digit c).
    { pose proof (number_literal_consumes (String c s1) p0) as Hnum.
      destruct (Json.number_literal (String c s1) p0); simpl in *; [lia|auto]. }
    repeat (match goal with |- context [if Ascii.eqb c ?x then _ else _] =>
              destruct (Ascii.eqb c x);
                [eapply consumes_longer; [apply literal_consumes; simpl; lia | simpl; lia]|]
            end).
    discriminate.
  - intros s pos acc Hfuel.
    cbn -[Json.string_body Json.number_literal Json.literal Json.skip_ws Json.eat Nat.mul].
    pose proof (IHv s pos ltac:(lia)) as Hval.
    destruct (Json.parse_value fuel s pos) as [v p r|e]; [|exact Hval]. simpl in Hval.
    pose proof (skip_ws_length r p) as Hws.
    destruct (Json.skip_ws r p) as [r1 p1]. simpl in Hws.
    destruct (Json.eat "," r1) as [r2|] eqn:Hcomma.
    + apply eat_length in Hcomma. eapply consumes_longer; [apply IHe|]; lia.
    + destruct (Json.eat "]" r1) as [r2|] eqn:Hclose.
      * apply eat_length in Hclose. simpl. lia.
      * apply unexpected_consumes.
  - intros s pos acc Hfuel.
    cbn -[Json.string_body Json.number_literal Json.literal Json.skip_ws Json.eat Nat.mul].
    pose proof (skip_ws_length s pos) as Hws.
    destruct (Json.skip_ws s pos) as [s0 p0]. simpl in Hws.
    destruct (Json.eat dquote s0) as [s1|] eqn:Hquote; [|apply unexpected_consumes].
    apply eat_length in Hquote.
    pose proof (string_body_consumes (S (String.length s1)) s1 (S p0) EmptyString
                  ltac:(lia)) as Hstr.
    destruct (Json.string_body _ s1 (S p0) EmptyString) as [k p r|e]; [|exact Hstr].
    simpl in Hstr.
    pose proof (skip_ws_length r p) as Hws1.
    destruct (Json.skip_ws r p) as [r1 p1]. simpl in Hws1.
    destruct (Json.eat ":" r1) as [r2|] eqn:Hcolon; [|apply unexpected_consumes].
    apply eat_length in Hcolon.
    pose proof (IHv r2 (S p1) ltac:(lia)) as Hval.
    destruct (Json.parse_value fuel r2 (S p1)) as [v p2 r3|e]; [|exact Hval].
    simpl in Hval.
    pose proof (skip_ws_length r3 p2) as Hws3.
    destruct (Json.skip_ws r3 p2) as [r4 p4]. simpl in Hws3.
    destruct (Json.eat "," r4) as [r5|] eqn:Hcomma.
    + apply eat_length in Hcomma. eapply consumes_longer; [apply IHm|]; lia.
    + destruct (Json.eat "}" r4) as [r5|] eqn:Hclose.
      * apply eat_length in Hclose. simpl. lia.
      * apply unexpected_consumes.
Qed.

(** [Json.parse] never stops at its recursion bound: what it throws is a
    syntax error of the text. *)
Lemma parse_fuel (text : string) :
  Json.parse text <> Throw (Json.syntax_error Json.OutOfFuel).
Proof.
  unfold Json.parse.
  pose proof (proj1 (parse_within_fuel (2 * String.length text + 2)) text 0%nat
                ltac:(lia)) as Hvalue.
  destruct (Json.parse_value _ text 0) as [v p r|e].
  - destruct (Json.skip_ws r p) as [[|c r'] p']; [discriminate|]. now intros [=].
  - simpl in Hvalue. destruct e as [c p| |]; [| |contradiction]; now intros [=].
Qed.

(** ** The schema *)

Lemma has_prop_lookup (k : string) (fs : list (string * value)) :
  has_prop k fs = true -> In (k, lookup_prop k fs) fs.
Proof.
  induction fs as [|[k' v] fs IH]; simpl; [discriminate|].
  destruct (String.eqb_spec k k') as [->|Hne]; simpl; auto.
Qed.

(** An instance of an object schema has the required properties, and each
    of its properties fits the subschema of its name; a name without one is
    allowed only if additional properties are. *)
Lemma conforms_object (props : list (string * Schema)) (req : list string)
    (extra : bool) (d : option string) (v : value) :
  conforms (SObject props req extra d) v = true ->
  exists fs,
    v = VObj fs
    /\ (forall r, In r req -> has_prop r fs = true)
    /\ (forall k x, In (k, x) fs ->
          match schema_of k props with
          | Some s => conforms s x = true
          | None => extra = true
          end).
Proof.
  destruct v as [| | | | | |fs]; try discriminate.
  simpl. intros H. apply andb_prop in H as [Hreq Hfs]. exists fs.
  split; [reflexivity|]. split.
  - intros r Hr. rewrite forallb_forall in Hreq. now apply Hreq.
  - intros k x Hin. rewrite forallb_forall in Hfs. specialize (Hfs _ Hin).
    simpl in Hfs. revert Hfs. clear.
    induction props as [|[k' s] props IH]; simpl; [auto|].
    destruct (String.eqb k k'); auto.
Qed.

Lemma schema_of_names (k : string) (props : list (string * Schema)) :
  schema_of k props <> None -> In k (map fst props).
Proof.
  induction props as [|[k' s] props IH]; simpl; [congruence|].
  destruct (String.eqb_spec k k'); auto.
Qed.

(** [conforms customerServiceSchema] says what the specification calls the
    closed schema. *)
Lemma conforms_closed (v : value) :
  conforms customerServiceSchema v = true -> closed_analysis v.
Proof.
  intros H. apply conforms_object in H as (fs & -> & Hreq & Hfs).
  exists fs. split; [reflexivity|]. split; [exact Hreq|]. split.
  - intros k x Hin. specialize (Hfs k x Hin).
    match type of Hfs with context [schema_of k ?ps] =>
      apply (schema_of_names k ps); destruct (schema_of k ps);
        [discriminate | discriminate Hfs]
    end.
  - assert (Hkey : has_prop "keyInformation" fs = true) by (apply Hreq; simpl; auto).
    specialize (Hfs _ _ (has_prop_lookup _ _ Hkey)).
    match type of Hfs with context [schema_of ?k ?ps] =>
      let s := eval vm_compute in (schema_of k ps) in
      change (schema_of k ps) with s in Hfs
    end.
    cbv beta match in Hfs.
    apply conforms_object in Hfs as (ks & Hks & Hkreq & Hkfs).
    exists ks. split; [exact Hks|]. split.
    + intros k Hk. specialize (Hkreq k Hk).
      specialize (Hkfs _ _ (has_prop_lookup _ _ Hkreq)).
      simpl in Hk. 
      destruct Hk as [<-|[<-|[<-|[<-|[<-|[]]]]]]; simpl in Hkfs;
        (destruct (lookup_prop _ ks); try discriminate; eauto).
    + intros k x Hin. specialize (Hkfs k x Hin).
      match type of Hkfs with context [schema_of k ?ps] =>
        apply (schema_of_names k ps); destruct (schema_of k ps);
          [discriminate | discriminate Hkfs]
      end.
Qed.

(** ** Configuration *)

Lemma initializeOpenAI_env (w : World) : env (initializeOpenAI w) = env w.
Proof.
  unfold initializeOpenAI. destruct (openaiClient w); [reflexivity|].
  now destruct (truthy _ && truthy _).
Qed.

Lemma initializeOpenAI_trace (w : World) : trace (initializeOpenAI w) = trace w.
Proof.
  unfold initializeOpenAI. destruct (openaiClient w); [reflexivity|].
  now destruct (truthy _ && truthy _).
Qed.

Lemma env_get_initializeOpenAI (w : World) (k : string) :
  env_get (initializeOpenAI w) k = env_get w k.
Proof. unfold env_get. now rewrite initializeOpenAI_env. Qed.

(** A client that exists is kept. *)
Lemma initializeOpenAI_keeps (w : World) (c : OpenAI) :
  openaiClient w = Some c -> initializeOpenAI w = w.
Proof. intros Hc. unfold initializeOpenAI. now rewrite Hc. Qed.

Lemma initializeOpenAI_idempotent (w : World) :
  initializeOpenAI (initializeOpenAI w) = initializeOpenAI w.
Proof.
  destruct (openaiClient (initializeOpenAI w)) as [c|] eqn:Hc.
  - now apply initializeOpenAI_keeps with c.
  - revert Hc. unfold initializeOpenAI at 1 3.
    destruct (openaiClient w) eqn:Hw; [congruence|].
    destruct (truthy _ && truthy _) eqn:Hset; [discriminate|].
    intros _. unfold initializeOpenAI. now rewrite Hw, Hset.
Qed.

(** The client is there exactly when one was there already or the endpoint
    and the key are both set to a non-empty string. *)
Lemma initializeOpenAI_client (w : World) :
  openaiClient (initializeOpenAI w) =
    match openaiClient w with
    | Some c => Some c
    | None =>
        if truthy (env_get w "AZURE_OPENAI_ENDPOINT") && truthy (env_get w "AZURE_OPENAI_KEY")
        then Some (new_client w) else None
    end.
Proof.
  unfold initializeOpenAI. destruct (openaiClient w) eqn:Hw; [assumption|].
  now destruct (truthy _ && truthy _).
Qed.

(** ** The closing [catch] block *)

Lemma map_error_classified {A} (e : JsError) (w : World) :
  @map_error A e w = (Throw (classified w e), w).
Proof.
  unfold map_error, classified.
  destruct (strict_eq_str _ _); [reflexivity|].
  destruct (strict_eq_num _ 404); [reflexivity|].
  now destruct (strict_eq_num _ 401).
Qed.

(** ** Decoding the content *)

Lemma parse_content_run (h : Host) (response : value) (w : World) :
  parse_content h response w =
    if truthy (raw_content response) then
      match JSON_parse h (ToString (raw_content response)) with
      | Return v => (Return v, after w [EvParse (ToString (raw_content response))])
      | Throw _ => (Throw invalid_json, after w [EvParse (ToString (raw_content response))])
      end
    else (Throw missing_content, w).
Proof.
  unfold parse_content. destruct (truthy (raw_content response)); simpl; [|reflexivity].
  unfold try_catch, JSON_parse_value, bind, emit, lift, throw.
  now destruct (JSON_parse h _).
Qed.

(** ** One call of [getAIAnalysis], step by step *)

Lemma unconfigured_run_routes (h : Host) (t : value) (w : World) :
  openaiClient (initializeOpenAI w) = None ->
  RoutesAnalysis.getAIAnalysis h t w = (Throw not_configured, initializeOpenAI w).
Proof.
  intros Hc. unfold RoutesAnalysis.getAIAnalysis, bind, ensureOpenAIClient.
  now rewrite Hc.
Qed.

Lemma configured_run_routes (h : Host) (t : value) (w : World) (c : OpenAI) :
  openaiClient (initializeOpenAI w) = Some c ->
  let w1 := initializeOpenAI w in
  let request := legacy_params w1 t in
  RoutesAnalysis.getAIAnalysis h t w =
    match create h (trace w1) c request with
    | Throw e => (Throw (classified (after w1 [EvCreate c request]) e),
                  after w1 [EvCreate c request])
    | Return response =>
        if truthy (raw_content response) then
          match JSON_parse h (ToString (raw_content response)) with
          | Return v =>
              (Return v, after w1 [EvCreate c request; EvParse (ToString (raw_content response))])
          | Throw _ =>
              (Throw invalid_json,
               after w1 [EvCreate c request; EvParse (ToString (raw_content response))])
          end
        else (Throw missing_content, after w1 [EvCreate c request])
    end.
Proof.
  intros Hc w1 request. change (openaiClient w1 = Some c) in Hc.
  unfold RoutesAnalysis.getAIAnalysis, bind, ensureOpenAIClient, try_catch, get_world.
  fold w1. rewrite Hc. unfold chat_completions_create. rewrite Hc. fold request.
  destruct (create h (trace w1) c request) as [response|e].
  - rewrite parse_content_run.
    destruct (truthy (raw_content response)).
    + destruct (JSON_parse h _); now rewrite after_after.
    + now rewrite map_error_classified.
  - now rewrite map_error_classified.
Qed.

Lemma request_completion_run (h : Host) (w w0 : World) (t : value) (c : OpenAI) :
  openaiClient w0 = Some c ->
  let legacy := legacy_params w t in
  let alternate := Part002.alternate_params w t in
  Part002.request_completion h w t w0 =
    match create h (trace w0) c legacy with
    | Return response => (Return response, after w0 [EvCreate c legacy])
    | Throw e =>
        if Part002.unsupported_parameter e
        then (create h (trace w0 ++ [EvCreate c legacy]) c alternate,
              after w0 [EvCreate c legacy; EvCreate c alternate])
        else (Throw e, after w0 [EvCreate c legacy])
    end.
Proof.
  intros Hc legacy alternate.
  unfold Part002.request_completion, try_catch, chat_completions_create.
  rewrite Hc. fold legacy. fold alternate.
  destruct (create h (trace w0) c legacy) as [response|e]; [reflexivity|].
  destruct (Part002.unsupported_parameter e); [|reflexivity].
  simpl. rewrite Hc. now rewrite after_after.
Qed.

Lemma unconfigured_run (h : Host) (t : value) (w : World) :
  openaiClient (initializeOpenAI w) = None ->
  Part002.getAIAnalysis h t w = (Throw not_configured, initializeOpenAI w).
Proof.
  intros Hc. unfold Part002.getAIAnalysis, bind, ensureOpenAIClient.
  now rewrite Hc.
Qed.

Lemma configured_run (h : Host) (t : value) (w : World) (c : OpenAI) :
  openaiClient (initializeOpenAI w) = Some c ->
  let w1 := initializeOpenAI w in
  Part002.getAIAnalysis h t w =
    match Part002.request_completion h w1 t w1 with
    | (Throw e, w2) => (Throw (classified w2 e), w2)
    | (Return response, w2) =>
        match Part002.finish_reason response with
        | Throw e => (Throw e, w2)
        | Return reason =>
            if strict_eq_str reason "length" then (Throw Part002.truncated, w2)
            else if truthy (raw_content response) then
              match JSON_parse h (ToString (raw_content response)) with
              | Return v => (Return v, after w2 [EvParse (ToString (raw_content response))])
              | Throw _ =>
                  (Throw invalid_json, after w2 [EvParse (ToString (raw_content response))])
              end
            else (Throw missing_content, w2)
        end
    end.
Proof.
  intros Hc w1. change (openaiClient w1 = Some c) in Hc.
  unfold Part002.getAIAnalysis, bind, ensureOpenAIClient, try_catch, get_world.
  fold w1. rewrite Hc.
  destruct (Part002.request_completion h w1 t w1) as [[response|e] w2].
  - unfold Part002.validate_response, bind, lift.
    destruct (Part002.finish_reason response) as [reason|e] eqn:Hr.
    + destruct (strict_eq_str reason "length").
      * unfold throw. now rewrite map_error_classified.
      * rewrite parse_content_run. destruct (truthy (raw_content response)).
        -- now destruct (JSON_parse h _).
        -- now rewrite map_error_classified.
    + rewrite map_error_classified.
      destruct (finish_reason_throws _ _ Hr) as (what & key & ->). reflexivity.
  - now rewrite map_error_classified.
Qed.

Lemma conclude_run (h : Host) (last : Outcome value) (w : World) :
  Part002.conclude h last w =
    match last with
    | Throw e => (Throw (classified w e), w)
    | Return response =>
        match Part002.finish_reason response with
        | Throw e => (Throw e, w)
        | Return reason =>
            if strict_eq_str reason "length" then (Throw Part002.truncated, w)
            else if truthy (raw_content response) then
              match JSON_parse h (ToString (raw_content response)) with
              | Return v => (Return v, after w [EvParse (ToString (raw_content response))])
              | Throw _ =>
                  (Throw invalid_json, after w [EvParse (ToString (raw_content response))])
              end
            else (Throw missing_content, w)
        end
    end.
Proof.
  unfold Part002.conclude, try_catch, bind, lift.
  destruct last as [response|e]; [|apply map_error_classified].
  unfold Part002.validate_response, bind, lift.
  destruct (Part002.finish_reason response) as [reason|e] eqn:Hr.
  - destruct (strict_eq_str reason "length").
    + unfold throw. now rewrite map_error_classified.
    + rewrite parse_content_run. destruct (truthy (raw_content response)).
      * now destruct (JSON_parse h _).
      * now rewrite map_error_classified.
  - rewrite map_error_classified.
    now destruct (finish_reason_throws _ _ Hr) as (what & key & ->).
Qed.

Lemma getAIAnalysis_concludes (h : Host) (t : value) (w : World) (c : OpenAI) :
  openaiClient (initializeOpenAI w) = Some c ->
  let w1 := initializeOpenAI w in
  Part002.getAIAnalysis h t w =
    Part002.conclude h (fst (Part002.request_completion h w1 t w1))
      (snd (Part002.request_completion h w1 t w1)).
Proof.
  intros Hc w1. rewrite (configured_run h t w c Hc). fold w1.
  rewrite conclude_run.
  now destruct (Part002.request_completion h w1 t w1) as [[response|e] w2].
Qed.

(** A configured call concludes from the outcome of its last request, in a
    world that differs from the initialised one by the requests sent. *)
Lemma getAIAnalysis_last (h : Host) (t : value) (w : World) (c : OpenAI) :
  openaiClient (initializeOpenAI w) = Some c ->
  exists evs,
    Part002.getAIAnalysis h t w
    = Part002.conclude h (Part002.last_outcome h t (initializeOpenAI w) c)
        (after (initializeOpenAI w) evs)
    /\ parsed evs = [].
Proof.
  intros Hc. rewrite (getAIAnalysis_concludes h t w c Hc). cbv zeta.
  rewrite (request_completion_run h _ _ t c Hc). cbv zeta.
  unfold Part002.last_outcome.
  destruct (create h _ c _) as [response|e];
    [|destruct (Part002.unsupported_parameter e)]; cbn [fst snd];
    eexists; split; reflexivity.
Qed.

Lemma getAIAnalysis_after_initialize (h : Host) (t : value) (w : World) :
  Part002.getAIAnalysis h t (initializeOpenAI w) = Part002.getAIAnalysis h t w
  /\ RoutesAnalysis.getAIAnalysis h t (initializeOpenAI w) = RoutesAnalysis.getAIAnalysis h t w.
Proof.
  unfold Part002.getAIAnalysis, RoutesAnalysis.getAIAnalysis, bind, ensureOpenAIClient.
  now rewrite initializeOpenAI_idempotent.
Qed.


(** ** What one call leaves behind *)

(** Concluding sends nothing, keeps the client and the environment, and
    calls [JSON.parse] at most once. *)
Lemma conclude_footprint (h : Host) (last : Outcome value) (w : World) :
  exists evs, snd (Part002.conclude h last w) = after w evs /\ outbound evs = []
              /\ (length (parsed evs) <= 1)%nat.
Proof.
  rewrite conclude_run.
  destruct last as [response|e].
  - destruct (Part002.finish_reason response) as [reason|e].
    + destruct (strict_eq_str reason "length").
      * exists []. rewrite after_nil. simpl. auto.
      * destruct (truthy (raw_content response)).
        -- exists [EvParse (ToString (raw_content response))].
           destruct (JSON_parse h _); simpl; auto.
        -- exists []. rewrite after_nil. simpl. auto.
    + exists []. rewrite after_nil. simpl. auto.
  - exists []. rewrite after_nil. simpl. auto.
Qed.

Lemma call_footprint (h : Host) (t : value) (w : World) :
  exists evs,
    snd (Part002.getAIAnalysis h t w) = after (initializeOpenAI w) evs
    /\ through w (outbound evs) /\ (length (outbound evs) <= 2)%nat.
Proof.
  destruct (openaiClient (initializeOpenAI w)) as [c|] eqn:Hc.
  - rewrite (getAIAnalysis_concludes h t w c Hc). cbv zeta.
    rewrite (request_completion_run h _ _ t c Hc). cbv zeta.
    set (w1 := initializeOpenAI w).
    assert (Hm : env_get w1 "AZURE_OPENAI_DEPLOYMENT" = env_get w "AZURE_OPENAI_DEPLOYMENT")
      by apply env_get_initializeOpenAI.
    destruct (create h (trace w1) c (legacy_params w1 t)) as [response|e];
      [|destruct (Part002.unsupported_parameter e)]; cbn [fst snd];
      match goal with |- context [Part002.conclude h ?o ?w0] =>
        destruct (conclude_footprint h o w0) as (evs & -> & Hout & _) end;
      eexists (_ ++ evs); rewrite after_after; (split; [reflexivity|]);
      rewrite outbound_app, Hout; simpl; unfold through; rewrite Hc;
      repeat split; auto; repeat constructor; auto.
  - rewrite (unconfigured_run h t w Hc). exists []. rewrite after_nil.
    simpl. repeat split; auto. constructor.
Qed.

Lemma call_footprint_routes (h : Host) (t : value) (w : World) :
  exists evs,
    snd (RoutesAnalysis.getAIAnalysis h t w) = after (initializeOpenAI w) evs
    /\ through w (outbound evs) /\ (length (outbound evs) <= 1)%nat.
Proof.
  destruct (openaiClient (initializeOpenAI w)) as [c|] eqn:Hc.
  - rewrite (configured_run_routes h t w c Hc). cbv zeta.
    set (w1 := initializeOpenAI w).
    assert (Hm : env_get w1 "AZURE_OPENAI_DEPLOYMENT" = env_get w "AZURE_OPENAI_DEPLOYMENT")
      by apply env_get_initializeOpenAI.
    assert (Hthrough : through w [(c, legacy_params w1 t)]).
    { unfold through. rewrite Hc. repeat constructor; auto. }
    destruct (create h (trace w1) c (legacy_params w1 t)) as [response|e].
    + destruct (truthy (raw_content response)).
      * destruct (JSON_parse h _); eexists; (split; [reflexivity|]); simpl; auto.
      * eexists; (split; [reflexivity|]); simpl; auto.
    + eexists; (split; [reflexivity|]); simpl; auto.
  - rewrite (unconfigured_run_routes h t w Hc). exists []. rewrite after_nil.
    simpl. repeat split; auto. constructor.
Qed.

(** ** The route *)

Lemma post_analyze_run (analyse : Host -> value -> M value)
    (h : Host) (req_body : value) (w : World) :
  post_analyze analyse h req_body w =
    match destructure_body req_body with
    | Throw e => (Return (failure_response e), w)
    | Return fs =>
        match analyse h (fst fs) (initializeOpenAI w) with
        | (Throw e, w') => (Return (failure_response e), w')
        | (Return a, w') =>
            (Return {| status := 200;
                       body := {| success := true;
                                  analysis := Some a;
                                  body_schema := Some customerServiceSchema;
                                  timestamp := Some (Date_toISOString h (trace w'));
                                  error := None |} |}, w')
        end
    end.
Proof.
  unfold post_analyze, try_catch, bind, lift, ret, get_world.
  destruct (destructure_body req_body) as [fs|e]; [|reflexivity].
  now destruct (analyse h (fst fs) (initializeOpenAI w)) as [[a|e] w'].
Qed.

(** ** The request and the retry *)

(** C1. For a transcript that is a string and a client that is configured.
    In the revision with the fallback ([part_002]) the first request
    carries [temperature: 0.1] and [max_tokens: 1000].  The call sends a
    second request exactly when the first is rejected with an error whose
    [status] is 400 and whose message includes [max_tokens] or
    [temperature]; that second request has no temperature and
    [max_completion_tokens: 2000], comes after the first, and nothing else
    is sent.  The call then concludes from the outcome of the last request
    it sent: from the alternate one when there was a retry.
    In [routes/analysis.js] the first request is the same one, and it is
    the only one: there is no retry, and a request that is rejected ends
    the call with the error as the outer [catch] classifies it, also when
    the error is the one that asks for the other parameters. *)
Theorem C1_legacy_then_alternate (h : Host) (s : string) (w : World) (c : OpenAI) :
  openaiClient (initializeOpenAI w) = Some c ->
  let t := VStr s in
  let w1 := initializeOpenAI w in
  let legacy := legacy_params w1 t in
  let alternate := Part002.alternate_params w1 t in
  let retry :=
    match create h (trace w1) c legacy with
    | Throw e =>
        strict_eq_num (error_prop e "status") 400
        && (includes (message e) "max_tokens" || includes (message e) "temperature")
    | Return _ => false
    end in
  (temperature legacy = Some {| mant := 1; expo := -1 |}
   /\ max_tokens legacy = Some (num_of_Z 1000)
   /\ max_completion_tokens legacy = None)
  /\ (temperature alternate = None
      /\ max_tokens alternate = None
      /\ max_completion_tokens alternate = Some (num_of_Z 2000)
      /\ model alternate = model legacy
      /\ messages alternate = messages legacy
      /\ response_format alternate = response_format legacy)
  /\ outbound (trace (snd (Part002.getAIAnalysis h t w)))
     = outbound (trace w) ++ (if retry then [(c, legacy); (c, alternate)] else [(c, legacy)])
  /\ Part002.getAIAnalysis h t w
     = (if retry
        then Part002.conclude h (create h (trace w1 ++ [EvCreate c legacy]) c alternate)
               (after w1 [EvCreate c legacy; EvCreate c alternate])
        else Part002.conclude h (create h (trace w1) c legacy) (after w1 [EvCreate c legacy]))
  /\ outbound (trace (snd (RoutesAnalysis.getAIAnalysis h t w)))
     = outbound (trace w) ++ [(c, legacy)]
  /\ (forall e,
        create h (trace w1) c legacy = Throw e ->
        RoutesAnalysis.getAIAnalysis h t w
        = (Throw (classified (after w1 [EvCreate c legacy]) e),
           after w1 [EvCreate c legacy])).
Proof.
  intros Hc t w1 legacy alternate retry.
  split; [repeat split|]. split; [repeat split|].
  assert (Hrun : Part002.getAIAnalysis h t w
     = if retry
       then Part002.conclude h (create h (trace w1 ++ [EvCreate c legacy]) c alternate)
              (after w1 [EvCreate c legacy; EvCreate c alternate])
       else Part002.conclude h (create h (trace w1) c legacy) (after w1 [EvCreate c legacy])).
  { rewrite (getAIAnalysis_concludes h t w c Hc). cbv zeta. fold w1.
    rewrite (request_completion_run h w1 w1 t c Hc). cbv zeta.
    fold legacy. fold alternate. subst retry.
    destruct (create h (trace w1) c legacy) as [response|e]; [reflexivity|].
    fold (Part002.unsupported_parameter e).
    now destruct (Part002.unsupported_parameter e). }
  assert (Ht : trace w1 = trace w) by apply initializeOpenAI_trace.
  split; [|split; [exact Hrun|]].
  - rewrite Hrun.
    destruct retry;
      match goal with |- context [Part002.conclude h ?o ?w0] =>
        destruct (conclude_footprint h o w0) as (evs & -> & Hout & _) end;
      rewrite after_after; simpl trace; rewrite outbound_app, Ht;
      unfold outbound at 2; simpl flat_map; fold (outbound evs); now rewrite Hout.
  - rewrite (configured_run_routes h t w c Hc). cbv zeta. fold w1. fold legacy.
    split.
    + destruct (create h (trace w1) c legacy) as [response|e].
      * destruct (truthy (raw_content response));
          [destruct (JSON_parse h _)|]; simpl trace; now rewrite outbound_app, Ht.
      * simpl trace. now rewrite outbound_app, Ht.
    + intros e He. now rewrite He.
Qed.

(** C1 at a provider of the newer generation: the request with
    [max_tokens] is refused with status 400.  Where there is a fallback the
    retry is answered and the call returns the decoded answer after exactly
    these two requests; [routes/analysis.js] sends the first request only
    and fails with the provider's error. *)
Lemma C1_legacy_then_alternate_witness :
  let answer := Sample.completion "stop" (VStr Sample.analysis_text) in
  let h := node (Sample.newer (Return answer)) Sample.clock in
  let w := Sample.fresh Sample.env_full in
  let c := new_client w in
  openaiClient (initializeOpenAI w) = Some c
  /\ outbound (trace (snd (Part002.getAIAnalysis h Sample.transcript w)))
     = [ (c, legacy_params w Sample.transcript);
         (c, Part002.alternate_params w Sample.transcript) ]
  /\ fst (Part002.getAIAnalysis h Sample.transcript w) = Json.parse Sample.analysis_text
  /\ outbound (trace (snd (RoutesAnalysis.getAIAnalysis h Sample.transcript w)))
     = [ (c, legacy_params w Sample.transcript) ]
  /\ fst (RoutesAnalysis.getAIAnalysis h Sample.transcript w)
     = Throw Sample.unsupported_max_tokens.
Proof.
  cbv zeta. split; [reflexivity|].
  destruct (C1_legacy_then_alternate
              (node (Sample.newer
                       (Return (Sample.completion "stop" (VStr Sample.analysis_text))))
                 Sample.clock)
              (ToString Sample.transcript) (Sample.fresh Sample.env_full)
              (new_client (Sample.fresh Sample.env_full)) eq_refl)
    as (_ & _ & Hout & Hrun & Hone & Hfails).
  specialize (Hfails Sample.unsupported_max_tokens eq_refl).
  change (VStr (ToString Sample.transcript)) with Sample.transcript in *.
  split; [exact Hout|]. split; [rewrite Hrun; vm_compute; reflexivity|].
  split; [exact Hone|].
  rewrite Hfails. vm_compute. reflexivity.
Defined.

(** C5. When the first request fails with an error that is not a status-400
    error mentioning [max_tokens] or [temperature], the call fails, and that
    request is the only one it has sent; if that error's status is 401 the
    call fails with the authentication error.  No call sends more than two
    requests. *)
Theorem C5_no_other_retry (h : Host) (t : value) (w : World) (c : OpenAI) (e : JsError) :
  openaiClient (initializeOpenAI w) = Some c ->
  let w1 := initializeOpenAI w in
  let legacy := legacy_params w1 t in
  create h (trace w1) c legacy = Throw e ->
  strict_eq_num (error_prop e "status") 400
  && (includes (message e) "max_tokens" || includes (message e) "temperature") = false ->
  (exists e', Part002.getAIAnalysis h t w = (Throw e', after w1 [EvCreate c legacy]))
  /\ outbound (trace (snd (Part002.getAIAnalysis h t w))) = outbound (trace w) ++ [(c, legacy)]
  /\ (strict_eq_num (http_status e) 401 = true ->
      strict_eq_str (error_prop e "code") "OPENAI_NOT_CONFIGURED" = false ->
      fst (Part002.getAIAnalysis h t w)
      = Throw (new_Error "Authentication failed. Check your API key."))
  /\ (forall h' t' w',
        exists sent,
          outbound (trace (snd (Part002.getAIAnalysis h' t' w'))) = outbound (trace w') ++ sent
          /\ (length sent <= 2)%nat).
Proof.
  intros Hc w1 legacy Hfail Hother.
  assert (Hrun : Part002.getAIAnalysis h t w
                 = (Throw (classified (after w1 [EvCreate c legacy]) e),
                    after w1 [EvCreate c legacy])).
  { rewrite (configured_run h t w c Hc). cbv zeta. fold w1.
    rewrite (request_completion_run h w1 w1 t c Hc). cbv zeta. fold legacy.
    rewrite Hfail. unfold Part002.unsupported_parameter. now rewrite Hother. }
  split; [eauto|]. rewrite Hrun. cbn [fst snd].
  split.
  { simpl. rewrite outbound_app. unfold w1. now rewrite initializeOpenAI_trace. }
  split.
  { intros H401 Hcode. unfold classified. rewrite Hcode.
    destruct (strict_eq_num (http_status e) 404) eqn:H404.
    - pose proof (strict_eq_num_inj _ _ _ H401 H404). discriminate.
    - now rewrite H401. }
  intros h' t' w'. destruct (call_footprint h' t' w') as (evs & -> & _ & Hlen).
  exists (outbound evs). simpl. now rewrite outbound_app, initializeOpenAI_trace.
Qed.

(** C5 at a provider that answers 401. *)
Lemma C5_no_other_retry_witness :
  let e := Sample.api_error 401 "Unauthorized. Access token is missing, invalid, audience is incorrect, or have expired." in
  let h := node (Sample.fails e) Sample.clock in
  let w := Sample.fresh Sample.env_full in
  openaiClient (initializeOpenAI w) = Some (new_client w)
  /\ create h (trace (initializeOpenAI w)) (new_client w)
       (legacy_params (initializeOpenAI w) Sample.transcript) = Throw e
  /\ outbound (trace (snd (Part002.getAIAnalysis h Sample.transcript w)))
     = [(new_client w, legacy_params w Sample.transcript)]
  /\ fst (Part002.getAIAnalysis h Sample.transcript w) = Throw authentication_failed.
Proof.
  cbv zeta. split; [reflexivity|]. split; [reflexivity|].
  destruct (C5_no_other_retry
              (node (Sample.fails (Sample.api_error 401 "Unauthorized. Access token is missing, invalid, audience is incorrect, or have expired.")) Sample.clock)
              Sample.transcript (Sample.fresh Sample.env_full)
              (new_client (Sample.fresh Sample.env_full)) _ eq_refl eq_refl eq_refl)
    as (_ & Hout & Hauth & _).
  split; [exact Hout | exact (Hauth eq_refl eq_refl)].
Defined.

(** ** Truncated, malformed and undecodable responses *)

(** C2. For a transcript that is a string, a client that is configured
    and a response whose [finish_reason] is ['length'].  In the revision
    with the fallback ([part_002]), when that is the response the call ends
    up with (from the first request or from the retry), the call throws the
    truncation error and [JSON.parse] is not called, whatever the content
    is.  [routes/analysis.js] does not look at [finish_reason]: when its
    request is answered with that response and the content is truthy, the
    content is given to [JSON.parse] and what it decodes to is returned. *)
Theorem C2_truncation_precedes_parsing
    (h : Host) (s : string) (w : World) (c : OpenAI) (response : value) :
  openaiClient (initializeOpenAI w) = Some c ->
  Part002.finish_reason response = Return (VStr "length") ->
  let t := VStr s in
  let w1 := initializeOpenAI w in
  (Part002.last_outcome h t w1 c = Return response ->
   fst (Part002.getAIAnalysis h t w)
   = Throw (new_Error "Response was truncated due to token limit. The analysis may be incomplete.")
   /\ parsed (trace (snd (Part002.getAIAnalysis h t w))) = parsed (trace w))
  /\ (create h (trace w1) c (legacy_params w1 t) = Return response ->
      truthy (raw_content response) = true ->
      fst (RoutesAnalysis.getAIAnalysis h t w)
      = match JSON_parse h (ToString (raw_content response)) with
        | Return v => Return v
        | Throw _ =>
            Throw (new_Error "Failed to parse AI response. Response was not valid JSON.")
        end
      /\ parsed (trace (snd (RoutesAnalysis.getAIAnalysis h t w)))
         = parsed (trace w) ++ [ToString (raw_content response)]).
Proof.
  intros Hc Hreason t w1. split.
  - subst w1. intros Hlast.
    destruct (getAIAnalysis_last h t w c Hc) as (evs & -> & Hparsed).
    rewrite Hlast, conclude_run, Hreason. simpl.
    now rewrite parsed_app, Hparsed, app_nil_r, initializeOpenAI_trace.
  - intros Hcreate Hcontent.
    rewrite (configured_run_routes h t w c Hc). cbv zeta. fold w1.
    rewrite Hcreate, Hcontent.
    assert (Ht : trace w1 = trace w) by apply initializeOpenAI_trace.
    destruct (JSON_parse h _); (split; [reflexivity|]);
      simpl trace; now rewrite parsed_app, Ht.
Qed.

(** C2 at a response cut off for length with content that is valid JSON:
    where there is a fallback it is the retry that is so answered, and the
    call throws; [routes/analysis.js] decodes the content and returns it. *)
Lemma C2_truncation_precedes_parsing_witness :
  let answer := Sample.completion "length" (VStr Sample.analysis_text) in
  let h := node (Sample.newer (Return answer)) Sample.clock in
  let older := node (Sample.answers answer) Sample.clock in
  let w := Sample.fresh Sample.env_full in
  (exists v, Json.parse Sample.analysis_text = Return v)
  /\ openaiClient (initializeOpenAI w) = Some (new_client w)
  /\ Part002.last_outcome h Sample.transcript (initializeOpenAI w) (new_client w)
     = Return answer
  /\ Part002.finish_reason answer = Return (VStr "length")
  /\ fst (Part002.getAIAnalysis h Sample.transcript w) = Throw Part002.truncated
  /\ parsed (trace (snd (Part002.getAIAnalysis h Sample.transcript w))) = []
  /\ fst (RoutesAnalysis.getAIAnalysis older Sample.transcript w)
     = Json.parse Sample.analysis_text
  /\ parsed (trace (snd (RoutesAnalysis.getAIAnalysis older Sample.transcript w)))
     = [Sample.analysis_text].
Proof.
  cbv zeta. split; [eexists; vm_compute; reflexivity|].
  split; [reflexivity|]. split; [reflexivity|]. split; [reflexivity|].
  destruct (proj1 (C2_truncation_precedes_parsing
           (node (Sample.newer
                    (Return (Sample.completion "length" (VStr Sample.analysis_text))))
              Sample.clock)
           (ToString Sample.transcript) (Sample.fresh Sample.env_full)
           (new_client (Sample.fresh Sample.env_full))
           (Sample.completion "length" (VStr Sample.analysis_text))
           eq_refl eq_refl) eq_refl) as [Hthrows Hparsed].
  split; [exact Hthrows|]. split; [exact Hparsed|].
  destruct (proj2 (C2_truncation_precedes_parsing
           (node (Sample.answers (Sample.completion "length" (VStr Sample.analysis_text)))
              Sample.clock)
           (ToString Sample.transcript) (Sample.fresh Sample.env_full)
           (new_client (Sample.fresh Sample.env_full))
           (Sample.completion "length" (VStr Sample.analysis_text))
           eq_refl eq_refl) eq_refl eq_refl) as [Hreturns Hdecoded].
  change (VStr (ToString Sample.transcript)) with Sample.transcript in *.
  split; [rewrite Hreturns; vm_compute; reflexivity|exact Hdecoded].
Defined.

(** The older revision has no such check: a response cut off for length
    is decoded like any other. *)
Lemma routes_decodes_truncated_response :
  fst (RoutesAnalysis.getAIAnalysis
         (node (Sample.answers (Sample.completion "length" (VStr Sample.analysis_text)))
            Sample.clock)
         Sample.transcript (Sample.fresh Sample.env_full))
  = Json.parse Sample.analysis_text.
Proof. vm_compute. reflexivity. Qed.

(** C10. In the revision with the fallback, when the response the call
    ends up with has no first choice ([choices] absent, null or empty, or
    its first element null), the call throws the engine's [TypeError] for
    the failed property read, not the missing-content error; the older
    revision, which reads through optional chaining only, throws the
    missing-content error for the same response.  The missing-content error
    comes out of the revision with the fallback only when there is a first
    choice. *)
Theorem C10_unguarded_finish_reason
    (h : Host) (t : value) (w : World) (c : OpenAI) (response : value) :
  openaiClient (initializeOpenAI w) = Some c ->
  let w1 := initializeOpenAI w in
  let first := opt_first (opt_member response "choices") in
  (Part002.last_outcome h t w1 c = Return response ->
   nullish first = true ->
   exists what key,
     fst (Part002.getAIAnalysis h t w)
     = Throw {| name := "TypeError";
                message := "Cannot read properties of " +:+ what
                           +:+ " (reading '" +:+ key +:+ "')";
                fields := [] |})
  /\ (create h (trace w1) c (legacy_params w1 t) = Return response ->
      nullish first = true ->
      fst (RoutesAnalysis.getAIAnalysis h t w) = Throw missing_content)
  /\ (Part002.last_outcome h t w1 c = Return response ->
      fst (Part002.getAIAnalysis h t w) = Throw missing_content ->
      nullish first = false).
Proof.
  intros Hc w1 first.
  assert (Hthrows : Part002.last_outcome h t w1 c = Return response ->
            nullish first = true ->
            exists what key,
              fst (Part002.getAIAnalysis h t w) = Throw (cannot_read what key)).
  { intros Hlast Hnone. destruct (getAIAnalysis_last h t w c Hc) as (evs & -> & _).
    fold w1. rewrite Hlast, conclude_run.
    destruct (finish_reason_no_first response Hnone) as (what & key & ->). eauto. }
  split; [exact Hthrows|]. split.
  - intros Hok Hnone. rewrite (configured_run_routes h t w c Hc). cbv zeta. fold w1.
    rewrite Hok.
    assert (Hraw : raw_content response = VUndefined).
    { unfold raw_content. fold first. now destruct first. }
    now rewrite Hraw.
  - intros Hlast Hmissing. destruct (nullish first) eqn:Hnone; [|reflexivity].
    destruct (Hthrows Hlast eq_refl) as (what & key & Hthrown).
    rewrite Hthrown in Hmissing. discriminate.
Qed.

(** C10 at a response without [choices], at one whose [choices] is empty,
    and at one with a first choice whose content is [null]. *)
Lemma C10_unguarded_finish_reason_witness :
  let w := Sample.fresh Sample.env_full in
  let type_error (what key : string) :=
    {| name := "TypeError";
       message := "Cannot read properties of " +:+ what +:+ " (reading '" +:+ key +:+ "')";
       fields := [] |} in
  let analyse (response : value) :=
    fst (Part002.getAIAnalysis (node (Sample.answers response) Sample.clock)
           Sample.transcript w) in
  let analyse_older (response : value) :=
    fst (RoutesAnalysis.getAIAnalysis (node (Sample.answers response) Sample.clock)
           Sample.transcript w) in
  (exists what key, analyse (VObj [("id", VStr "chatcmpl-1")]) = Throw (type_error what key))
  /\ (exists what key, analyse (VObj [("choices", VArr [])]) = Throw (type_error what key))
  /\ analyse_older (VObj [("choices", VArr [])]) = Throw missing_content
  /\ analyse (Sample.completion "stop" VNull) = Throw missing_content
  /\ nullish (opt_first (opt_member (Sample.completion "stop" VNull) "choices")) = false.
Proof.
  cbv zeta.
  pose proof (C10_unguarded_finish_reason
                (node (Sample.answers (VObj [("id", VStr "chatcmpl-1")])) Sample.clock)
                Sample.transcript (Sample.fresh Sample.env_full)
                (new_client (Sample.fresh Sample.env_full))
                (VObj [("id", VStr "chatcmpl-1")]) eq_refl) as (Habsent & _ & _).
  pose proof (C10_unguarded_finish_reason
                (node (Sample.answers (VObj [("choices", VArr [])])) Sample.clock)
                Sample.transcript (Sample.fresh Sample.env_full)
                (new_client (Sample.fresh Sample.env_full))
                (VObj [("choices", VArr [])]) eq_refl) as (Hempty & Holder & _).
  pose proof (C10_unguarded_finish_reason
                (node (Sample.answers (Sample.completion "stop" VNull)) Sample.clock)
                Sample.transcript (Sample.fresh Sample.env_full)
                (new_client (Sample.fresh Sample.env_full))
                (Sample.completion "stop" VNull) eq_refl) as (_ & _ & Hfirst).
  split; [exact (Habsent eq_refl eq_refl)|]. split; [exact (Hempty eq_refl eq_refl)|].
  split; [exact (Holder eq_refl eq_refl)|].
  assert (Hmissing : fst (Part002.getAIAnalysis
                            (node (Sample.answers (Sample.completion "stop" VNull))
                               Sample.clock)
                            Sample.transcript (Sample.fresh Sample.env_full))
                     = Throw missing_content) by (vm_compute; reflexivity).
  split; [exact Hmissing | exact (Hfirst eq_refl Hmissing)].
Defined.

(** C7, as the code has it.  When the response the call ends up with is
    not cut off for length, its content is truthy, and [JSON.parse] throws
    on it, the call throws an [Error] whose message is the fixed text and
    which has no other property: the decode error [d] is dropped.  (The
    older revision: the same, without the condition on the finish
    reason.) *)
Theorem C7_invalid_json_drops_decode_error
    (h : Host) (t : value) (w : World) (c : OpenAI) (response : value) (d : JsError) :
  openaiClient (initializeOpenAI w) = Some c ->
  truthy (raw_content response) = true ->
  JSON_parse h (ToString (raw_content response)) = Throw d ->
  let w1 := initializeOpenAI w in
  let thrown :=
    {| name := "Error";
       message := "Failed to parse AI response. Response was not valid JSON.";
       fields := [] |} in
  (Part002.last_outcome h t w1 c = Return response ->
   Part002.finish_reason response <> Return (VStr "length") ->
   fst (Part002.getAIAnalysis h t w) = Throw thrown)
  /\ (create h (trace w1) c (legacy_params w1 t) = Return response ->
      fst (RoutesAnalysis.getAIAnalysis h t w) = Throw thrown).
Proof.
  intros Hc Htruthy Hparse w1 thrown. split.
  - intros Hlast Hreason. destruct (getAIAnalysis_last h t w c Hc) as (evs & -> & _).
    fold w1. rewrite Hlast, conclude_run.
    destruct (raw_content_finish_reason response Htruthy) as (reason & Hr).
    rewrite Hr in Hreason |- *.
    destruct (strict_eq_str reason "length") eqn:Hlen.
    + exfalso. apply Hreason. destruct reason; try discriminate.
      simpl in Hlen. apply String.eqb_eq in Hlen. now subst.
    + now rewrite Htruthy, Hparse.
  - intros Hok. rewrite (configured_run_routes h t w c Hc). cbv zeta. fold w1.
    now rewrite Hok, Htruthy, Hparse.
Qed.

(** C7 as stated does not hold: two contents that fail to decode with
    different errors make the call fail with one and the same error, which
    has no property besides its fixed message, and that message mentions
    neither decode error. *)
Lemma C7_decode_error_not_carried :
  let w := Sample.fresh Sample.env_full in
  let analyse (content : string) :=
    fst (Part002.getAIAnalysis
           (node (Sample.answers (Sample.completion "stop" (VStr content))) Sample.clock)
           Sample.transcript w) in
  exists d1 d2 e,
    Json.parse "{" = Throw d1 /\ Json.parse "}" = Throw d2 /\ d1 <> d2
    /\ analyse "{" = Throw e /\ analyse "}" = Throw e
    /\ fields e = []
    /\ includes (message e) (message d1) = false
    /\ includes (message e) (message d2) = false.
Proof.
  cbv zeta. eexists _, _, _.
  split; [vm_compute; reflexivity|]. split; [vm_compute; reflexivity|].
  split; [discriminate|].
  split; [vm_compute; reflexivity|]. split; [vm_compute; reflexivity|].
  repeat split; vm_compute; reflexivity.
Qed.

(** C7 (as the code has it) at content that is not JSON. *)
Lemma C7_invalid_json_drops_decode_error_witness :
  let answer := Sample.completion "stop" (VStr "Sorry, I cannot help with that.") in
  let h := node (Sample.answers answer) Sample.clock in
  let w := Sample.fresh Sample.env_full in
  Json.parse "Sorry, I cannot help with that."
  = Throw {| name := "SyntaxError";
             message := "Unexpected token S in JSON at position 0";
             fields := [] |}
  /\ fst (Part002.getAIAnalysis h Sample.transcript w) = Throw invalid_json
  /\ fst (RoutesAnalysis.getAIAnalysis h Sample.transcript w) = Throw invalid_json.
Proof.
  cbv zeta. split; [vm_compute; reflexivity|].
  destruct (C7_invalid_json_drops_decode_error
              (node (Sample.answers
                       (Sample.completion "stop" (VStr "Sorry, I cannot help with that.")))
                 Sample.clock)
              Sample.transcript (Sample.fresh Sample.env_full)
              (new_client (Sample.fresh Sample.env_full))
              (Sample.completion "stop" (VStr "Sorry, I cannot help with that."))
              _ eq_refl eq_refl eq_refl) as [Hnew Hold].
  split; [apply Hnew; [reflexivity | discriminate] | apply Hold; reflexivity].
Defined.

(** C4, as the code has it.  What a call returns is what [JSON.parse] made
    of the content of the response the call ended up with; the call does
    not compare it with the schema.  Every request the call sends asks for
    the schema to be enforced: its [response_format] names
    [customerServiceSchema] with [strict: true], and an instance of that
    schema is closed in the specification's sense. *)
Theorem C4_returns_decoded_content (h : Host) (t : value) (w : World) (v : value) :
  let w1 := initializeOpenAI w in
  let asks_for_schema (w' : World) :=
    exists evs,
      w' = after w1 evs
      /\ Forall (fun r : OpenAI * Params => response_format (snd r) = request_format)
           (outbound evs) in
  (fst (Part002.getAIAnalysis h t w) = Return v ->
   exists c response,
     openaiClient w1 = Some c
     /\ Part002.last_outcome h t w1 c = Return response
     /\ JSON_parse h (ToString (raw_content response)) = Return v)
  /\ (fst (RoutesAnalysis.getAIAnalysis h t w) = Return v ->
      exists c response,
        openaiClient w1 = Some c
        /\ create h (trace w1) c (legacy_params w1 t) = Return response
        /\ JSON_parse h (ToString (raw_content response)) = Return v)
  /\ asks_for_schema (snd (Part002.getAIAnalysis h t w))
  /\ asks_for_schema (snd (RoutesAnalysis.getAIAnalysis h t w))
  /\ strict (json_schema request_format) = true
  /\ schema (json_schema request_format) = customerServiceSchema
  /\ (forall x, conforms customerServiceSchema x = true -> closed_analysis x).
Proof.
  intros w1 asks_for_schema.
  assert (Hasks : forall w' evs, w' = after w1 evs -> through w (outbound evs) ->
                    asks_for_schema w').
  { intros w' evs -> Hthrough. exists evs. split; [reflexivity|].
    eapply Forall_impl; [exact Hthrough|]. now intros r (_ & _ & Hformat). }
  split; [|split; [|split; [|split; [|split; [|split]]]]].
  - intros Hret. destruct (openaiClient w1) as [c|] eqn:Hc.
    + destruct (getAIAnalysis_last h t w c Hc) as (evs & Hrun & _).
      rewrite Hrun in Hret. fold w1 in Hret. rewrite conclude_run in Hret.
      exists c. destruct (Part002.last_outcome h t w1 c) as [response|e];
        [|discriminate]. exists response.
      destruct (Part002.finish_reason response) as [reason|e]; [|discriminate].
      destruct (strict_eq_str reason "length"); [discriminate|].
      destruct (truthy (raw_content response)); [|discriminate].
      destruct (JSON_parse h _) as [v'|d]; [|discriminate].
      injection Hret as <-. auto.
    + rewrite (unconfigured_run h t w Hc) in Hret. discriminate.
  - intros Hret. destruct (openaiClient w1) as [c|] eqn:Hc.
    + rewrite (configured_run_routes h t w c Hc) in Hret. cbv zeta in Hret.
      fold w1 in Hret. exists c.
      destruct (create h (trace w1) c (legacy_params w1 t)) as [response|e];
        [|discriminate]. exists response.
      destruct (truthy (raw_content response)); [|discriminate].
      destruct (JSON_parse h _) as [v'|d]; [|discriminate].
      injection Hret as <-. auto.
    + rewrite (unconfigured_run_routes h t w Hc) in Hret. discriminate.
  - destruct (call_footprint h t w) as (evs & Hsnd & Hthrough & _). eauto.
  - destruct (call_footprint_routes h t w) as (evs & Hsnd & Hthrough & _). eauto.
  - reflexivity.
  - reflexivity.
  - apply conforms_closed.
Qed.

(** C4 as stated does not hold: the provider answers with the content [{}],
    and the call (in either revision) returns the empty object, which has
    none of the eight fields. *)
Lemma C4_open_analysis_returned :
  let h := node (Sample.answers (Sample.completion "stop" (VStr "{}"))) Sample.clock in
  let w := Sample.fresh Sample.env_full in
  fst (RoutesAnalysis.getAIAnalysis h Sample.transcript w) = Return (VObj [])
  /\ fst (Part002.getAIAnalysis h Sample.transcript w) = Return (VObj [])
  /\ conforms customerServiceSchema (VObj []) = false
  /\ ~ closed_analysis (VObj []).
Proof.
  cbv zeta. repeat split; try (vm_compute; reflexivity).
  intros (fs & Hfs & Hreq & _). injection Hfs as <-.
  specialize (Hreq "sentiment" (or_introl eq_refl)). discriminate.
Qed.

(** C4 (as the code has it) at the end-to-end scenario: the provider's
    content fits the schema, and the call returns it decoded. *)
Lemma C4_returns_decoded_content_witness :
  let answer := Sample.completion "stop" (VStr Sample.analysis_text) in
  let h := node (Sample.answers answer) Sample.clock in
  let w := Sample.fresh Sample.env_full in
  let w1 := initializeOpenAI w in
  exists v,
    fst (Part002.getAIAnalysis h Sample.transcript w) = Return v
    /\ fst (RoutesAnalysis.getAIAnalysis h Sample.transcript w) = Return v
    /\ conforms customerServiceSchema v = true
    /\ closed_analysis v
    /\ (exists c response,
          openaiClient w1 = Some c
          /\ Part002.last_outcome h Sample.transcript w1 c = Return response
          /\ JSON_parse h (ToString (raw_content response)) = Return v)
    /\ (exists c response,
          openaiClient w1 = Some c
          /\ create h (trace w1) c (legacy_params w1 Sample.transcript) = Return response
          /\ JSON_parse h (ToString (raw_content response)) = Return v).
Proof.
  cbv zeta. eexists.
  split; [vm_compute; reflexivity|]. split; [vm_compute; reflexivity|].
  split; [vm_compute; reflexivity|].
  match goal with |- closed_analysis ?v /\ _ =>
    pose proof (C4_returns_decoded_content
                  (node (Sample.answers
                           (Sample.completion "stop" (VStr Sample.analysis_text)))
                     Sample.clock)
                  Sample.transcript (Sample.fresh Sample.env_full) v)
      as (Hnew & Hold & _ & _ & _ & _ & Hclosed)
  end.
  split; [apply Hclosed; vm_compute; reflexivity|].
  split; [apply Hnew | apply Hold]; vm_compute; reflexivity.
Defined.

(** ** Failures of the transport *)

(** C6. When the last request of a call fails with [e] (an error that does
    not bear the router's own OPENAI_NOT_CONFIGURED code), the call throws:
    for status 404 the deployment error, which names the configured
    deployment; for status 401 the authentication error; otherwise [e]
    itself, unchanged.  The status is the one the router reads,
    [e.response.status] or else [e.status].  The older revision does the
    same with the failure of its one request. *)
Theorem C6_transport_failures (h : Host) (t : value) (w : World) (c : OpenAI) (e : JsError) :
  openaiClient (initializeOpenAI w) = Some c ->
  strict_eq_str (error_prop e "code") "OPENAI_NOT_CONFIGURED" = false ->
  let w1 := initializeOpenAI w in
  let thrown :=
    if strict_eq_num (http_status e) 404 then
      new_Error ("Deployment '" +:+ ToString (env_get w "AZURE_OPENAI_DEPLOYMENT")
                 +:+ "' not found. Check your deployment name.")
    else if strict_eq_num (http_status e) 401 then
      new_Error "Authentication failed. Check your API key."
    else e in
  (Part002.last_outcome h t w1 c = Throw e ->
   fst (Part002.getAIAnalysis h t w) = Throw thrown)
  /\ (create h (trace w1) c (legacy_params w1 t) = Throw e ->
      fst (RoutesAnalysis.getAIAnalysis h t w) = Throw thrown).
Proof.
  intros Hc Hcode w1 thrown.
  assert (Hthrown : forall evs, classified (after w1 evs) e = thrown).
  { intros evs. unfold classified, thrown, deployment_not_found.
    rewrite Hcode, env_get_after. unfold w1. now rewrite env_get_initializeOpenAI. }
  split.
  - intros Hlast. destruct (getAIAnalysis_last h t w c Hc) as (evs & -> & _).
    fold w1. rewrite Hlast, conclude_run. cbn [fst]. now rewrite Hthrown.
  - intros Hfail. rewrite (configured_run_routes h t w c Hc). cbv zeta. fold w1.
    rewrite Hfail. cbn [fst]. now rewrite Hthrown.
Qed.

(** C6 at a provider that answers 404, and at one that answers 429. *)
Lemma C6_transport_failures_witness :
  let w := Sample.fresh Sample.env_full in
  let e404 := Sample.api_error 404 "Resource not found" in
  let e429 := Sample.api_error 429 "Rate limit reached" in
  let analyse (e : JsError) :=
    fst (Part002.getAIAnalysis (node (Sample.fails e) Sample.clock) Sample.transcript w) in
  let analyse_older (e : JsError) :=
    fst (RoutesAnalysis.getAIAnalysis (node (Sample.fails e) Sample.clock)
           Sample.transcript w) in
  analyse e404
  = Throw (new_Error "Deployment 'gpt-4o' not found. Check your deployment name.")
  /\ analyse e429 = Throw e429
  /\ analyse_older e404
     = Throw (new_Error "Deployment 'gpt-4o' not found. Check your deployment name.").
Proof.
  cbv zeta.
  pose proof (C6_transport_failures
                (node (Sample.fails (Sample.api_error 404 "Resource not found"))
                   Sample.clock)
                Sample.transcript (Sample.fresh Sample.env_full)
                (new_client (Sample.fresh Sample.env_full))
                (Sample.api_error 404 "Resource not found") eq_refl eq_refl)
    as [H404 H404_older].
  pose proof (C6_transport_failures
                (node (Sample.fails (Sample.api_error 429 "Rate limit reached"))
                   Sample.clock)
                Sample.transcript (Sample.fresh Sample.env_full)
                (new_client (Sample.fresh Sample.env_full))
                (Sample.api_error 429 "Rate limit reached") eq_refl eq_refl)
    as [H429 _].
  split; [exact (H404 eq_refl)|]. split; [exact (H429 eq_refl) | exact (H404_older eq_refl)].
Defined.

(** ** The client and its configuration *)

(** C3. Calling analyze while the deployment identifier is unset does not
    fail with NotConfigured: with the endpoint and the key set, the client
    is built for the deployment named undefined and the request goes out
    (in both revisions).  The guard of [initializeOpenAI] tests the
    endpoint and the key only. *)
Theorem C3_deployment_unset_is_not_refused :
  let w := Sample.fresh Sample.env_no_deployment in
  let c := {| apiKey := "0123456789abcdef";
              baseURL := "https://contoso.openai.azure.com/openai/deployments/undefined";
              defaultQuery := [("api-version", "2024-08-01-preview")];
              defaultHeaders := [("api-key", "0123456789abcdef")] |} in
  let answer := Return (Sample.completion "stop" (VStr Sample.analysis_text)) in
  env w !! "AZURE_OPENAI_DEPLOYMENT" = None
  /\ (forall (h : Host) (t : value),
        hd_error (outbound (trace (snd (Part002.getAIAnalysis h t w))))
          = Some (c, legacy_params w t)
        /\ hd_error (outbound (trace (snd (RoutesAnalysis.getAIAnalysis h t w))))
          = Some (c, legacy_params w t))
  /\ model (legacy_params w Sample.transcript) = VUndefined
  /\ fst (Part002.getAIAnalysis (node (Sample.newer answer) Sample.clock) Sample.transcript w)
     = Json.parse Sample.analysis_text
  /\ fst (RoutesAnalysis.getAIAnalysis (node (Sample.answers (value_of answer)) Sample.clock)
            Sample.transcript w)
     = Json.parse Sample.analysis_text.
Proof.
  cbv zeta. split; [reflexivity|]. split; [|repeat split; vm_compute; reflexivity].
  intros h t.
  set (w := Sample.fresh Sample.env_no_deployment).
  set (c := {| apiKey := _; baseURL := _; defaultQuery := _; defaultHeaders := _ |}).
  assert (Hc : openaiClient (initializeOpenAI w) = Some c) by reflexivity.
  assert (Hp : legacy_params (initializeOpenAI w) t = legacy_params w t) by reflexivity.
  split.
  - rewrite (getAIAnalysis_concludes h t w c Hc). cbv zeta.
    rewrite (request_completion_run h _ _ t c Hc). cbv zeta. rewrite Hp.
    destruct (create h _ c (legacy_params w t)) as [r|e];
      [|destruct (Part002.unsupported_parameter e)]; cbn [fst snd];
      match goal with |- context [Part002.conclude h ?o ?w0] =>
        destruct (conclude_footprint h o w0) as (evs & -> & _) end;
      reflexivity.
  - rewrite (configured_run_routes h t w c Hc). cbv zeta. rewrite Hp.
    destruct (create h _ c (legacy_params w t)) as [r|e]; [|reflexivity].
    destruct (truthy (raw_content r)); [|reflexivity].
    now destruct (JSON_parse h _).
Qed.

(** C8. Initialising is idempotent and a client, once there, is never
    replaced: initialising twice is initialising once; a world that has a
    client is left as it is by [initializeOpenAI], whatever the environment
    says by then; a call made after a second initialisation is the call made
    after the first; and every call in a world with client [c] keeps [c],
    keeps the environment, and sends all its requests through [c] (its
    endpoint and key) with the environment's deployment as [model].  The
    client itself is a function of the environment alone. *)
Theorem C8_client_built_once (w : World) :
  initializeOpenAI (initializeOpenAI w) = initializeOpenAI w
  /\ (forall c, openaiClient w = Some c -> initializeOpenAI w = w)
  /\ (forall h t,
        Part002.getAIAnalysis h t (initializeOpenAI w) = Part002.getAIAnalysis h t w
        /\ RoutesAnalysis.getAIAnalysis h t (initializeOpenAI w)
           = RoutesAnalysis.getAIAnalysis h t w)
  /\ (forall c h t, openaiClient w = Some c ->
        let sent_through_c :=
          Forall (fun r : OpenAI * Params =>
                    fst r = c /\ model (snd r) = env_get w "AZURE_OPENAI_DEPLOYMENT") in
        (exists evs, snd (Part002.getAIAnalysis h t w) = after w evs
                     /\ sent_through_c (outbound evs))
        /\ (exists evs, snd (RoutesAnalysis.getAIAnalysis h t w) = after w evs
                        /\ sent_through_c (outbound evs)))
  /\ (forall w', env w' = env w -> new_client w' = new_client w).
Proof.
  split; [apply initializeOpenAI_idempotent|].
  split; [apply initializeOpenAI_keeps|].
  split; [intros h t; apply getAIAnalysis_after_initialize|].
  split.
  - intros c h t Hc. cbv zeta.
    pose proof (initializeOpenAI_keeps w c Hc) as Hw.
    assert (Hforall : forall rs, through w rs ->
              Forall (fun r : OpenAI * Params =>
                        fst r = c /\ model (snd r) = env_get w "AZURE_OPENAI_DEPLOYMENT") rs).
    { unfold through. rewrite Hw, Hc. intros rs Hrs.
      eapply Forall_impl; [exact Hrs|]. intros r (Heq & Hm & _). split; congruence. }
    split.
    + destruct (call_footprint h t w) as (evs & Hsnd & Hthrough & _).
      exists evs. rewrite Hw in Hsnd. auto.
    + destruct (call_footprint_routes h t w) as (evs & Hsnd & Hthrough & _).
      exists evs. rewrite Hw in Hsnd. auto.
  - intros w' Henv. unfold new_client, env_get. now rewrite Henv.
Qed.

(** C8 at the sample process: the client built from the full environment
    survives a second initialisation, and a call that the provider rejects
    leaves it in place and has gone through it. *)
Lemma C8_client_built_once_witness :
  let w := initializeOpenAI (Sample.fresh Sample.env_full) in
  let c := new_client (Sample.fresh Sample.env_full) in
  let h := node (Sample.fails (Sample.api_error 429 "Rate limit reached")) Sample.clock in
  openaiClient w = Some c
  /\ initializeOpenAI w = w
  /\ baseURL c = "https://contoso.openai.azure.com/openai/deployments/gpt-4o"
  /\ apiKey c = "0123456789abcdef"
  /\ (exists evs,
        snd (Part002.getAIAnalysis h Sample.transcript w) = after w evs
        /\ Forall (fun r : OpenAI * Params => fst r = c /\ model (snd r) = VStr "gpt-4o")
             (outbound evs))
  /\ new_client w = c.
Proof.
  cbv zeta. split; [reflexivity|].
  pose proof (C8_client_built_once (initializeOpenAI (Sample.fresh Sample.env_full)))
    as (_ & Hkeeps & _ & Hsent & Hpure).
  split; [exact (Hkeeps _ eq_refl)|]. split; [reflexivity|]. split; [reflexivity|].
  split.
  - exact (proj1 (Hsent (new_client (Sample.fresh Sample.env_full))
                    (node (Sample.fails (Sample.api_error 429 "Rate limit reached"))
                       Sample.clock)
                    Sample.transcript eq_refl)).
  - exact (Hpure (initializeOpenAI (Sample.fresh Sample.env_full)) eq_refl).
Defined.

(** ** The HTTP boundary *)



(** * More of the router *)

(** ** Case records *)

Lemma toISOString_in_range (iso : Z -> string) (t hours : Z) :
  clock_reading t -> 0 <= hours <= 72 ->
  Date_toISOString_at iso (t + hours * 60 * 60 * 1000) = Return (iso (t + hours * 60 * 60 * 1000)).
Proof.
  unfold clock_reading, Date_toISOString_at. intros Ht Hh.
  destruct (Z.leb_spec (Z.abs (t + hours * 60 * 60 * 1000)) 8640000000000000); [reflexivity|lia].
Qed.

Lemma resolution_hours_range (riskLevel : value) : 0 <= resolution_hours riskLevel <= 72.
Proof.
  unfold resolution_hours.
  destruct (strict_eq_str riskLevel "high"); [lia|].
  destruct (strict_eq_str riskLevel "medium"); lia.
Qed.

Lemma String_of_throws (v : value) (e : JsError) :
  String_of v = Throw e -> e = not_primitive.
Proof.
  revert e.
  induction v as [| |b|n|s|items IH|props] using value_nested_ind; intros e;
    try discriminate.
  - simpl.
    assert (Hpieces : forall e',
      (fix pieces (l : list value) : Outcome (list string) :=
         match l with
         | [] => Return []
         | x :: rest =>
             and_then (if nullish x then Return EmptyString else String_of x) (fun s =>
             and_then (pieces rest) (fun ss => Return (s :: ss)))
         end) items = Throw e' -> e' = not_primitive).
    { induction IH as [|x rest Hx _ IHrest]; intros e'; [discriminate|].
      destruct (nullish x).
      - cbn [and_then].
        match goal with |- and_then ?o _ = _ -> _ => destruct o eqn:Hrest end;
          [discriminate|]. intros [= <-]. now apply IHrest.
      - destruct (String_of x) eqn:Hshown; cbn [and_then].
        + match goal with |- and_then ?o _ = _ -> _ => destruct o eqn:Hrest end;
            [discriminate|]. intros [= <-]. now apply IHrest.
        + intros [= <-]. now apply Hx. }
    match goal with |- and_then ?o _ = _ -> _ => destruct o eqn:Hall end;
      [discriminate|]. intros [= <-]. now apply Hpieces.
  - simpl. destruct (has_prop "toString" props); [now intros [= <-]|discriminate].
Qed.

(** For an analysis that is not [null] or [undefined], every property read
    gives what optional chaining gives. *)
Lemma createMockCRMRecord_run (iso : Z -> string) (now : nat -> Z)
    (analysis scenarioId : value) (shown : string) :
  (forall k, clock_reading (now k)) ->
  nullish analysis = false ->
  String_of (opt_member analysis "primaryIntent") = Return shown ->
  let risk := opt_member analysis "escalationRisk" in
  createMockCRMRecord iso now analysis scenarioId =
    Return {| caseId := "CASE-" +:+ Number_toString (num_of_Z (now 0%nat));
              title := "Customer Service Case - " +:+ shown;
              priority := priority_of risk;
              case_status := "Active";
              assignedTo := "Customer Service Team";
              category := opt_member analysis "primaryIntent";
              description := opt_member analysis "summary";
              sentiment := opt_member analysis "sentiment";
              customerInfo := opt_member analysis "keyInformation";
              nextActions := opt_member analysis "suggestedActions";
              commitments := opt_member analysis "commitments";
              createdAt := iso (now 1%nat);
              estimatedResolution :=
                iso (now 2%nat + resolution_hours risk * 60 * 60 * 1000);
              confidenceScore := opt_member analysis "confidenceScore" |}.
Proof.
  intros Hclock Hdefined Hshown risk. unfold createMockCRMRecord, getEstimatedResolution.
  rewrite !(get_member_opt analysis _ Hdefined). cbn [and_then].
  rewrite Hshown. cbn [and_then]. fold risk.
  rewrite (toISOString_in_range iso (now 2%nat) (resolution_hours risk) (Hclock _)
             (resolution_hours_range risk)).
  pose proof (toISOString_in_range iso (now 1%nat) 0 (Hclock _) ltac:(lia)) as Hcreated.
  change (0 * 60 * 60 * 1000) with 0 in Hcreated. rewrite Z.add_0_r in Hcreated.
  now rewrite Hcreated.
Qed.

Lemma strict_eq_str_true (v : value) (s : string) :
  strict_eq_str v s = true <-> v = VStr s.
Proof.
  split.
  - destruct v; try discriminate. simpl. intros H. apply String.eqb_eq in H. now subst.
  - intros ->. simpl. apply String.eqb_refl.
Qed.

Lemma strict_eq_str_false (v : value) (s : string) :
  strict_eq_str v s = false <-> v <> VStr s.
Proof.
  rewrite <- strict_eq_str_true. destruct (strict_eq_str v s); split; congruence.
Qed.

Lemma createMockCRMRecord_defined (iso : Z -> string) (now : nat -> Z)
    (analysis scenarioId : value) (record : CrmRecord) :
  createMockCRMRecord iso now analysis scenarioId = Return record ->
  nullish analysis = false.
Proof. destruct analysis; try reflexivity; discriminate. Qed.

Lemma createMockCRMRecord_shown (iso : Z -> string) (now : nat -> Z)
    (analysis scenarioId : value) (record : CrmRecord) :
  createMockCRMRecord iso now analysis scenarioId = Return record ->
  exists shown, String_of (opt_member analysis "primaryIntent") = Return shown.
Proof.
  intros Hrecord.
  pose proof (createMockCRMRecord_defined _ _ _ _ _ Hrecord) as Hdefined.
  unfold createMockCRMRecord in Hrecord.
  rewrite (get_member_opt analysis "primaryIntent" Hdefined) in Hrecord.
  cbn [and_then] in Hrecord.
  destruct (String_of (opt_member analysis "primaryIntent")) as [shown|e];
    [now exists shown|discriminate].
Qed.

(** X1. The priority of a case and its deadline always go together: High with
    4 hours, Medium with 24, Low with 72, counted from the third reading of
    the clock; and a risk that is not exactly ['high'] or ['medium'] (absent,
    written otherwise, not a string) makes a Low case. *)
Theorem crm_priority_matches_deadline (iso : Z -> string) (now : nat -> Z)
    (analysis scenarioId : value) (record : CrmRecord) :
  (forall k, clock_reading (now k)) ->
  createMockCRMRecord iso now analysis scenarioId = Return record ->
  let risk := opt_member analysis "escalationRisk" in
  let deadline (hours : Z) := iso (now 2%nat + hours * 60 * 60 * 1000) in
  (risk = VStr "high" /\ priority record = "High"
   /\ estimatedResolution record = deadline 4)
  \/ (risk = VStr "medium" /\ priority record = "Medium"
      /\ estimatedResolution record = deadline 24)
  \/ (risk <> VStr "high" /\ risk <> VStr "medium" /\ priority record = "Low"
      /\ estimatedResolution record = deadline 72).
Proof.
  intros Hclock Hrecord risk deadline.
  pose proof (createMockCRMRecord_defined _ _ _ _ _ Hrecord) as Hdefined.
  destruct (createMockCRMRecord_shown _ _ _ _ _ Hrecord) as (shown & Hshown).
  rewrite (createMockCRMRecord_run iso now analysis scenarioId shown Hclock Hdefined Hshown)
    in Hrecord.
  injection Hrecord as <-. cbn [priority estimatedResolution]. fold risk.
  unfold priority_of, resolution_hours, deadline.
  destruct (strict_eq_str risk "high") eqn:Hhigh.
  - left. apply strict_eq_str_true in Hhigh. auto.
  - apply strict_eq_str_false in Hhigh.
    destruct (strict_eq_str risk "medium") eqn:Hmedium.
    + right. left. apply strict_eq_str_true in Hmedium. auto.
    + right. right. apply strict_eq_str_false in Hmedium. auto.
Qed.

Lemma crm_priority_matches_deadline_witness :
  exists record,
    createMockCRMRecord Sample2.iso Sample2.now Sample2.analysis (VStr "airline")
    = Return record
    /\ priority record = "Medium"
    /\ estimatedResolution record = "2025-01-02T00:00:00.002Z".
Proof.
  eexists. split; [vm_compute; reflexivity|].
  assert (Hclock : forall k, clock_reading (Sample2.now k)).
  { intros k. unfold clock_reading, Sample2.now. lia. }
  destruct (crm_priority_matches_deadline Sample2.iso Sample2.now Sample2.analysis
              (VStr "airline") _ Hclock eq_refl)
    as [(Hrisk & _)|[(_ & Hpriority & Hdeadline)|(_ & Hrisk & _)]].
  - vm_compute in Hrisk. discriminate.
  - split; [exact Hpriority | exact Hdeadline].
  - exfalso. apply Hrisk. vm_compute. reflexivity.
Defined.

(** X2. [/finalize] checks nothing of the body but what it needs to go on:
    the body and its [analysis] must not be [null] or [undefined], and what
    is formatted into a line must have a string form (the scenario id that
    [routes/analysis.js] writes to the console, the [primaryIntent] of the
    title in both revisions).  Every other body, an empty object or a number
    as analysis included, is answered 200 with a case record; each of the
    failures is answered 500 with the error's message after
    ['Failed to finalize analysis: ']. *)
Theorem finalize_accepts_what_it_can_read (iso : Z -> string) (now : nat -> Z)
    (req_body : value) :
  (forall k, clock_reading (now k)) ->
  let analysis := opt_member req_body "analysis" in
  let scenarioId := opt_member req_body "scenarioId" in
  let failure (msg : string) :=
    {| finalize_status := 500;
       finalize_body := {| finalize_success := false;
                           crmRecord := None;
                           finalize_message := None;
                           finalize_timestamp := None;
                           finalize_error := Some ("Failed to finalize analysis: " +:+ msg) |} |} in
  let answer (announced : bool) :=
    if nullish req_body then
      failure ("Cannot destructure property 'analysis' of 'req.body' as it is "
               +:+ ToString req_body +:+ ".")
    else if negb announced then
      failure "Cannot convert object to primitive value"
    else if nullish analysis then
      failure ("Cannot read properties of " +:+ ToString analysis
               +:+ " (reading 'primaryIntent')")
    else if negb (printable (opt_member analysis "primaryIntent")) then
      failure "Cannot convert object to primitive value"
    else
      {| finalize_status := 200;
         finalize_body :=
           {| finalize_success := true;
              crmRecord :=
                match createMockCRMRecord iso now analysis scenarioId with
                | Return record => Some record
                | Throw _ => None
                end;
              finalize_message := Some "Analysis finalized and sent to CRM";
              finalize_timestamp := Some (iso (now 3%nat));
              finalize_error := None |} |} in
  post_finalize announce_scenario iso now req_body = answer (printable scenarioId)
  /\ post_finalize announce_nothing iso now req_body = answer true.
Proof.
  intros Hclock analysis scenarioId failure answer.
  assert (Hrest : forall announce : value -> Outcome unit,
            announce scenarioId = Return tt ->
            post_finalize announce iso now req_body = answer true).
  { intros announce Hannounce. unfold post_finalize, answer.
    destruct (nullish req_body) eqn:Hbody.
    { destruct req_body; try discriminate; reflexivity. }
    assert (Hfields : destructure_finalize req_body = Return (analysis, scenarioId)).
    { unfold analysis, scenarioId, opt_member. rewrite Hbody.
      destruct req_body; try discriminate; reflexivity. }
    rewrite Hfields. cbn [and_then fst snd negb]. rewrite Hannounce. cbn [and_then].
    destruct (nullish analysis) eqn:Hanalysis.
    { destruct analysis; try discriminate; reflexivity. }
    unfold printable.
    destruct (String_of (opt_member analysis "primaryIntent")) as [shown|e] eqn:Hshown.
    - rewrite (createMockCRMRecord_run iso now analysis _ shown Hclock Hanalysis Hshown).
      cbn [and_then negb].
      pose proof (toISOString_in_range iso (now 3%nat) 0 (Hclock _) ltac:(lia)) as Hstamp.
      change (0 * 60 * 60 * 1000) with 0 in Hstamp. rewrite Z.add_0_r in Hstamp.
      now rewrite Hstamp.
    - rewrite (String_of_throws _ e Hshown) in Hshown.
      unfold createMockCRMRecord.
      rewrite (get_member_opt analysis "primaryIntent" Hanalysis). cbn [and_then].
      rewrite Hshown. reflexivity. }
  split; [|now apply Hrest].
  unfold printable, announce_scenario in *.
  destruct (String_of scenarioId) as [shown|e] eqn:Hshown.
  - apply Hrest. now rewrite Hshown.
  - rewrite (String_of_throws _ e Hshown) in Hshown.
    unfold post_finalize, answer. destruct (nullish req_body) eqn:Hbody.
    { destruct req_body; try discriminate; reflexivity. }
    assert (Hfields : destructure_finalize req_body = Return (analysis, scenarioId)).
    { unfold analysis, scenarioId, opt_member. rewrite Hbody.
      destruct req_body; try discriminate; reflexivity. }
    rewrite Hfields. cbn [and_then fst snd negb]. rewrite Hshown. reflexivity.
Qed.

(** X2 at an analysis that is a number (200), at one whose [primaryIntent]
    has an own [toString] (500 in both revisions), and at a scenario id with
    one (500 where it is written to the console, 200 where it is not). *)
Lemma finalize_accepts_what_it_can_read_witness :
  let hidden := VObj [("toString", VInt 1)] in
  let text := Some "Failed to finalize analysis: Cannot convert object to primitive value" in
  finalize_status
    (post_finalize announce_scenario Sample2.iso Sample2.now (VObj [("analysis", VInt 7)]))
  = 200
  /\ finalize_error
       (finalize_body
          (post_finalize announce_nothing Sample2.iso Sample2.now
             (VObj [("analysis", VObj [("primaryIntent", hidden)])])))
     = text
  /\ finalize_error
       (finalize_body
          (post_finalize announce_scenario Sample2.iso Sample2.now
             (VObj [("analysis", VObj []); ("scenarioId", hidden)])))
     = text
  /\ finalize_status
       (post_finalize announce_nothing Sample2.iso Sample2.now
          (VObj [("analysis", VObj []); ("scenarioId", hidden)]))
     = 200.
Proof.
  cbv zeta.
  assert (Hclock : forall k, clock_reading (Sample2.now k)).
  { intros k. unfold clock_reading, Sample2.now. lia. }
  split; [|split; [|split]].
  - now rewrite (proj1 (finalize_accepts_what_it_can_read Sample2.iso Sample2.now
                          (VObj [("analysis", VInt 7)]) Hclock)).
  - now rewrite (proj2 (finalize_accepts_what_it_can_read Sample2.iso Sample2.now
                          (VObj [("analysis", VObj [("primaryIntent",
                                                     VObj [("toString", VInt 1)])])])
                          Hclock)).
  - now rewrite (proj1 (finalize_accepts_what_it_can_read Sample2.iso Sample2.now
                          (VObj [("analysis", VObj []);
                                 ("scenarioId", VObj [("toString", VInt 1)])])
                          Hclock)).
  - now rewrite (proj2 (finalize_accepts_what_it_can_read Sample2.iso Sample2.now
                          (VObj [("analysis", VObj []);
                                 ("scenarioId", VObj [("toString", VInt 1)])])
                          Hclock)).
Defined.

(** X3. The page sets its escalation reminder (2, 8 or 24 hours) no later than
    half way to the deadline the router gave the case (4, 24 or 72 hours):
    the three priorities the router writes are the three the page
    distinguishes. *)
Theorem reminder_before_deadline (iso : Z -> string) (now : nat -> Z)
    (analysis scenarioId : value) (record : CrmRecord) :
  (forall k, clock_reading (now k)) ->
  createMockCRMRecord iso now analysis scenarioId = Return record ->
  let risk := opt_member analysis "escalationRisk" in
  let reminder := App.escalationHours (VStr (priority record)) in
  0 < reminder /\ 2 * reminder <= resolution_hours risk
  /\ (reminder = 24 <-> priority record = "Low").
Proof.
  intros Hclock Hrecord risk reminder.
  pose proof (createMockCRMRecord_defined _ _ _ _ _ Hrecord) as Hdefined.
  destruct (createMockCRMRecord_shown _ _ _ _ _ Hrecord) as (shown & Hshown).
  rewrite (createMockCRMRecord_run iso now analysis scenarioId shown Hclock Hdefined Hshown)
    in Hrecord.
  injection Hrecord as <-. subst reminder. cbn [priority]. fold risk.
  unfold priority_of, resolution_hours.
  destruct (strict_eq_str risk "high"); [|destruct (strict_eq_str risk "medium")];
    vm_compute; repeat split; intros; congruence.
Qed.

Lemma reminder_before_deadline_witness :
  exists record,
    createMockCRMRecord Sample2.iso Sample2.now Sample2.analysis (VStr "airline")
    = Return record
    /\ 0 < App.escalationHours (VStr (priority record))
    /\ 2 * App.escalationHours (VStr (priority record))
       <= resolution_hours (opt_member Sample2.analysis "escalationRisk").
Proof.
  assert (Hclock : forall k, clock_reading (Sample2.now k)).
  { intros k. unfold clock_reading, Sample2.now. lia. }
  eexists. split; [vm_compute; reflexivity|].
  pose proof (reminder_before_deadline Sample2.iso Sample2.now Sample2.analysis
                (VStr "airline") _ Hclock eq_refl) as H.
  cbv zeta in H. destruct H as (Hpos & Hhalf & _).
  split; [exact Hpos | exact Hhalf].
Defined.

(** ** Scenarios *)

Lemma find_scenario_found (id : string) (scenarios : list value) (s : value) :
  find_scenario id scenarios = Return s ->
  s = VUndefined /\ (forall x, In x scenarios -> opt_member x "id" <> VStr id)
  \/ In s scenarios /\ opt_member s "id" = VStr id.
Proof.
  induction scenarios as [|x rest IH]; simpl.
  - intros [= <-]. left. split; [reflexivity|]. intros x [].
  - destruct (nullish x) eqn:Hx.
    { destruct x; try discriminate; simpl; discriminate. }
    rewrite (get_member_opt x "id" Hx). cbn [and_then].
    destruct (strict_eq_str (opt_member x "id") id) eqn:Hid.
    + intros [= <-]. right. apply strict_eq_str_true in Hid. auto.
    + intros Hrest. apply strict_eq_str_false in Hid.
      destruct (IH Hrest) as [[-> Hnone]|[Hin Hs]]; [left|right; auto].
      split; [reflexivity|]. intros y [<-|Hy]; auto.
Qed.

(** X4. What [/scenarios/:id] answers, when it answers: 200 with an element of
    the array whose [id] is the string asked for, or 404 with the error
    object when no element has that string as its [id].  A scenario whose
    [id] is not a string (a number, say) is therefore never served. *)
Theorem scenario_lookup (scenarios : list value) (id : string) (code : Z) (answer : value) :
  get_scenario scenarios id = Return (code, answer) ->
  (code = 200 /\ In answer scenarios /\ opt_member answer "id" = VStr id)
  \/ (code = 404 /\ answer = VObj [("error", VStr "Scenario not found")]
      /\ forall s, In s scenarios -> opt_member s "id" <> VStr id).
Proof.
  unfold get_scenario. destruct (find_scenario id scenarios) as [s|e] eqn:Hfind; [|discriminate].
  cbn [and_then]. destruct (find_scenario_found id scenarios s Hfind) as [[-> Hnone]|[Hin Hid]].
  - simpl. intros [= <- <-]. right. auto.
  - assert (Htruthy : truthy s = true).
    { destruct s; try discriminate; reflexivity. }
    rewrite Htruthy. simpl. intros [= <- <-]. left. auto.
Qed.

Lemma scenario_lookup_witness :
  get_scenario Sample2.scenarios "electronics"
  = Return (200, VObj [("id", VStr "electronics"); ("title", VStr "Contoso Electronics");
                       ("transcription", VStr "Agent: Hello.")])
  /\ get_scenario Sample2.scenarios "Electronics"
     = Return (404, VObj [("error", VStr "Scenario not found")]).
Proof.
  split.
  - destruct (get_scenario Sample2.scenarios "electronics") as [[code answer]|e] eqn:Hget;
      [|vm_compute in Hget; discriminate].
    destruct (scenario_lookup Sample2.scenarios "electronics" code answer Hget) as [_|_];
      vm_compute in Hget; exact (eq_sym Hget).
  - vm_compute. reflexivity.
Defined.

(** X5. Every scenario of the list can be fetched by its own [id], provided the
    array has no [null] in it and no two elements share an [id]. *)
Theorem scenario_round_trip (scenarios : list value) (s : value) (id : string) :
  (forall x, In x scenarios -> nullish x = false) ->
  List.NoDup (map (fun x => opt_member x "id") scenarios) ->
  In s scenarios ->
  opt_member s "id" = VStr id ->
  get_scenario scenarios id = Return (200, s).
Proof.
  intros Hdefined Hdistinct Hin Hid.
  assert (Hfind : find_scenario id scenarios = Return s).
  { induction scenarios as [|x rest IH]; [destruct Hin|]. simpl.
    rewrite (get_member_opt x "id" (Hdefined x (or_introl eq_refl))). cbn [and_then].
    simpl in Hdistinct. apply List.NoDup_cons_iff in Hdistinct as [Hfresh Hrest].
    destruct (strict_eq_str (opt_member x "id") id) eqn:Hx.
    - apply strict_eq_str_true in Hx. destruct Hin as [->|Hin]; [reflexivity|].
      exfalso. apply Hfresh. rewrite Hx, <- Hid.
      exact (in_map (fun y => opt_member y "id") rest s Hin).
    - destruct Hin as [->|Hin].
      + apply strict_eq_str_false in Hx. contradiction.
      + apply IH; auto. intros y Hy. apply Hdefined. now right. }
  unfold get_scenario. rewrite Hfind. cbn [and_then].
  assert (Htruthy : truthy s = true).
  { pose proof (Hdefined s Hin). destruct s; try discriminate; reflexivity. }
  now rewrite Htruthy.
Qed.

Lemma scenario_round_trip_witness :
  let s := VObj [("id", VStr "airline"); ("title", VStr "Contoso Airlines");
                 ("transcription", Sample.transcript)] in
  In s Sample2.scenarios /\ get_scenario Sample2.scenarios "airline" = Return (200, s).
Proof.
  cbv zeta.
  assert (Hin : In (VObj [("id", VStr "airline"); ("title", VStr "Contoso Airlines");
                          ("transcription", Sample.transcript)]) Sample2.scenarios)
    by (left; reflexivity).
  split; [exact Hin|].
  apply scenario_round_trip; [| |exact Hin|reflexivity].
  - intros x [<-|[<-|[]]]; reflexivity.
  - simpl. repeat constructor; simpl; intuition discriminate.
Defined.

(** * The page: [public/app.js] *)

(** ** Strings *)

Lemma append_cons (c : ascii) (a b : string) : String c a +:+ b = String c (a +:+ b).
Proof. reflexivity. Qed.

Lemma append_nil_l (s : string) : EmptyString +:+ s = s.
Proof. reflexivity. Qed.

Lemma append_nil_r (s : string) : s +:+ EmptyString = s.
Proof.
  induction s as [|c s IH]; [reflexivity|]. now rewrite append_cons, IH.
Qed.

Lemma append_assoc (a b c : string) : (a +:+ b) +:+ c = a +:+ (b +:+ c).
Proof.
  induction a as [|x a IH]; [reflexivity|]. now rewrite !append_cons, IH.
Qed.

Lemma length_append (a b : string) :
  String.length (a +:+ b) = (String.length a + String.length b)%nat.
Proof.
  induction a as [|x a IH]; [reflexivity|]. rewrite append_cons. simpl. now rewrite IH.
Qed.

Lemma has_char_append (c : ascii) (a b : string) :
  has_char c (a +:+ b) = has_char c a || has_char c b.
Proof.
  induction a as [|x a IH]; [reflexivity|]. rewrite append_cons. simpl.
  rewrite IH. now rewrite orb_assoc.
Qed.

Lemma count_char_append (c : ascii) (a b : string) :
  count_char c (a +:+ b) = (count_char c a + count_char c b)%nat.
Proof.
  induction a as [|x a IH]; [reflexivity|]. rewrite append_cons. simpl. rewrite IH. lia.
Qed.

Lemma replace_char_append (c : ascii) (r a b : string) :
  App.replace_char c r (a +:+ b) = App.replace_char c r a +:+ App.replace_char c r b.
Proof.
  induction a as [|x a IH]; [reflexivity|]. rewrite append_cons. simpl.
  now rewrite IH, append_assoc.
Qed.

(** ** [escapeHtml] *)

(** The five replacements in a row do to one character what
    [escape_char] says. *)
Lemma escape_one (c : ascii) :
  App.replace_char "'" "&#039;"
    (App.replace_char dquote "&quot;"
       (App.replace_char ">" "&gt;"
          (App.replace_char "<" "&lt;"
             (App.replace_char "&" "&amp;" (String c EmptyString)))))
  = escape_char c.
Proof.
  assert (Hone : forall d r, App.replace_char d r (String c EmptyString)
                             = if Ascii.eqb d c then r else String c EmptyString).
  { intros d r. simpl. now rewrite append_nil_r. }
  unfold escape_char. rewrite !(Ascii.eqb_sym c). rewrite Hone.
  destruct (Ascii.eqb "&" c); [reflexivity|]. rewrite Hone.
  destruct (Ascii.eqb "<" c); [reflexivity|]. rewrite Hone.
  destruct (Ascii.eqb ">" c); [reflexivity|]. rewrite Hone.
  destruct (Ascii.eqb dquote c); [reflexivity|]. rewrite Hone.
  now destruct (Ascii.eqb "'" c).
Qed.

(** The five replacements, one after the other over the whole text, come
    to one pass that writes each character's entity: no replacement sees
    what an earlier one wrote. *)
Lemma escapeHtml_chars (s : string) : App.escapeHtml (VStr s) = escape_chars s.
Proof.
  unfold App.escapeHtml. simpl nullish. cbv iota. simpl ToString.
  induction s as [|c s IH]; [reflexivity|].
  change (String c s) with (String c EmptyString +:+ s).
  rewrite !replace_char_append, IH, escape_one. reflexivity.
Qed.

Lemma escapeHtml_any (v : value) :
  App.escapeHtml v = if nullish v then EmptyString else escape_chars (ToString v).
Proof.
  destruct (nullish v) eqn:Hv; [unfold App.escapeHtml; now rewrite Hv|].
  pose proof (escapeHtml_chars (ToString v)) as H.
  unfold App.escapeHtml in *. rewrite Hv. exact H.
Qed.

Lemma escape_chars_append (a b : string) :
  escape_chars (a +:+ b) = escape_chars a +:+ escape_chars b.
Proof.
  induction a as [|x a IH]; [reflexivity|]. rewrite append_cons. simpl.
  now rewrite IH, append_assoc.
Qed.

Lemma escape_char_safe (c d : ascii) :
  In d ["<"; ">"; dquote; "'"]%char -> has_char d (escape_char c) = false.
Proof.
  intros Hd. unfold escape_char.
  destruct (Ascii.eqb_spec c "&"); [destruct Hd as [<-|[<-|[<-|[<-|[]]]]]; reflexivity|].
  destruct (Ascii.eqb_spec c "<"); [destruct Hd as [<-|[<-|[<-|[<-|[]]]]]; reflexivity|].
  destruct (Ascii.eqb_spec c ">"); [destruct Hd as [<-|[<-|[<-|[<-|[]]]]]; reflexivity|].
  destruct (Ascii.eqb_spec c dquote); [destruct Hd as [<-|[<-|[<-|[<-|[]]]]]; reflexivity|].
  destruct (Ascii.eqb_spec c "'"); [destruct Hd as [<-|[<-|[<-|[<-|[]]]]]; reflexivity|].
  simpl. rewrite orb_false_r. apply Ascii.eqb_neq.
  destruct Hd as [<-|[<-|[<-|[<-|[]]]]]; congruence.
Qed.

(** X6. Nothing that [escapeHtml] returns has a [<], a [>], a double quote or
    an apostrophe in it, whatever it is given; escaping a text piece by
    piece is escaping the text; and a text without the five characters is
    returned as it is. *)
Theorem escapeHtml_safe (v : value) (a b : string) (d : ascii) :
  (In d ["<"; ">"; dquote; "'"]%char -> has_char d (App.escapeHtml v) = false)
  /\ App.escapeHtml (VStr (a +:+ b)) = App.escapeHtml (VStr a) +:+ App.escapeHtml (VStr b)
  /\ ((forall c, In c ["&"; "<"; ">"; dquote; "'"]%char -> has_char c a = false) ->
      App.escapeHtml (VStr a) = a).
Proof.
  split; [|split].
  - intros Hd. rewrite escapeHtml_any. destruct (nullish v); [reflexivity|].
    induction (ToString v) as [|c s IH]; [reflexivity|]. simpl.
    now rewrite has_char_append, (escape_char_safe c d Hd), IH.
  - rewrite !escapeHtml_chars. apply escape_chars_append.
  - intros Hclean. rewrite escapeHtml_chars.
    induction a as [|c a IH]; [reflexivity|]. simpl.
    assert (Hc : escape_char c = String c EmptyString).
    { unfold escape_char.
      assert (Hne : forall x, In x ["&"; "<"; ">"; dquote; "'"]%char -> Ascii.eqb c x = false).
      { intros x Hx. specialize (Hclean x Hx). simpl in Hclean.
        apply orb_false_elim in Hclean as [Hxc _]. now rewrite Ascii.eqb_sym. }
      rewrite !Hne; simpl; auto 10. }
    rewrite Hc, append_cons, append_nil_l. f_equal. apply IH.
    intros x Hx. specialize (Hclean x Hx). simpl in Hclean.
    now apply orb_false_elim in Hclean as [_ Hrest].
Qed.

Lemma escapeHtml_safe_witness :
  App.escapeHtml (VStr "<img src=x onerror='alert(1)'>")
  = "&lt;img src=x onerror=&#039;alert(1)&#039;&gt;"
  /\ has_char "<" (App.escapeHtml (VStr "<img src=x onerror='alert(1)'>")) = false
  /\ App.escapeHtml (VStr "Order 12345") = "Order 12345".
Proof.
  split; [vm_compute; reflexivity|]. split.
  - apply (proj1 (escapeHtml_safe (VStr "<img src=x onerror='alert(1)'>")
                    EmptyString EmptyString "<")).
    simpl. auto.
  - apply (proj2 (proj2 (escapeHtml_safe VNull "Order 12345" EmptyString "<"))).
    intros c [<-|[<-|[<-|[<-|[<-|[]]]]]]; reflexivity.
Defined.

(** X7. [escapeHtml] loses nothing: two texts that are escaped alike are the
    same text. *)
Theorem escapeHtml_injective (a b : string) :
  App.escapeHtml (VStr a) = App.escapeHtml (VStr b) -> a = b.
Proof.
  rewrite !escapeHtml_chars. revert b.
  assert (Hshape : forall c,
            escape_char c = String c EmptyString /\ c <> "&"%char
            \/ In (c, escape_char c)
                 [("&"%char, "&amp;"); ("<"%char, "&lt;"); (">"%char, "&gt;");
                  (dquote, "&quot;"); ("'"%char, "&#039;")]).
  { intros c. unfold escape_char.
    destruct (Ascii.eqb_spec c "&"); [subst; right; simpl; auto|].
    destruct (Ascii.eqb_spec c "<"); [subst; right; simpl; auto|].
    destruct (Ascii.eqb_spec c ">"); [subst; right; simpl; auto|].
    destruct (Ascii.eqb_spec c dquote); [subst; right; simpl; auto 6|].
    destruct (Ascii.eqb_spec c "'"); [subst; right; simpl; auto 7|].
    left. auto. }
  induction a as [|x a IH]; intros [|y b] H.
  - reflexivity.
  - exfalso. simpl in H. destruct (Hshape y) as [[Hy _]|Hy].
    + rewrite Hy in H. discriminate.
    + simpl in Hy. destruct Hy as [Hy|[Hy|[Hy|[Hy|[Hy|[]]]]]];
        injection Hy as Hc He; rewrite <- He in H; discriminate.
  - exfalso. simpl in H. destruct (Hshape x) as [[Hx _]|Hx].
    + rewrite Hx in H. discriminate.
    + simpl in Hx. destruct Hx as [Hx|[Hx|[Hx|[Hx|[Hx|[]]]]]];
        injection Hx as Hc He; rewrite <- He in H; discriminate.
  - simpl in H.
    destruct (Hshape x) as [[Hx Hxamp]|Hx]; destruct (Hshape y) as [[Hy Hyamp]|Hy].
    + rewrite Hx, Hy in H. injection H as -> H. f_equal. now apply IH.
    + rewrite Hx in H. simpl in Hy.
      destruct Hy as [Hy|[Hy|[Hy|[Hy|[Hy|[]]]]]]; injection Hy as Hc He;
        rewrite <- He in H; injection H as Hamp _; congruence.
    + rewrite Hy in H. simpl in Hx.
      destruct Hx as [Hx|[Hx|[Hx|[Hx|[Hx|[]]]]]]; injection Hx as Hc He;
        rewrite <- He in H; injection H as Hamp _; congruence.
    + simpl in Hx, Hy.
      destruct Hx as [Hx|[Hx|[Hx|[Hx|[Hx|[]]]]]]; injection Hx as Hcx Hex;
        destruct Hy as [Hy|[Hy|[Hy|[Hy|[Hy|[]]]]]]; injection Hy as Hcy Hey;
        rewrite <- Hex, <- Hey in H; try discriminate;
        injection H as H; subst x y; f_equal; now apply IH.
Qed.

Lemma escapeHtml_injective_witness :
  App.escapeHtml (VStr ("a" +:+ "<b")) = App.escapeHtml (VStr ("a<" +:+ "b"))
  /\ "a" +:+ "<b" = "a<" +:+ "b".
Proof.
  assert (H : App.escapeHtml (VStr ("a" +:+ "<b")) = App.escapeHtml (VStr ("a<" +:+ "b")))
    by reflexivity.
  split; [exact H | exact (escapeHtml_injective _ _ H)].
Defined.

(** ** [trim] *)

Lemma prefix_cons (c d : ascii) (m s : string) :
  String.prefix (String c m) (String d s) = Ascii.eqb c d && String.prefix m s.
Proof.
  simpl. destruct (ascii_dec c d) as [->|Hne].
  - now rewrite Ascii.eqb_refl.
  - apply Ascii.eqb_neq in Hne. now rewrite Hne.
Qed.

Lemma prefix_skip (m s : string) :
  String.prefix m s = true -> s = m +:+ skip_chars (String.length m) s.
Proof.
  revert s. induction m as [|c m IH]; intros s H; [reflexivity|].
  destruct s as [|d s]; [discriminate|]. rewrite prefix_cons in H.
  apply andb_prop in H as [Hc Hm]. apply Ascii.eqb_eq in Hc as ->.
  rewrite append_cons. simpl. f_equal. now apply IH.
Qed.

Lemma prefix_append (m q : string) : String.prefix m (m +:+ q) = true.
Proof.
  induction m as [|c m IH]; [now destruct q|].
  rewrite append_cons, prefix_cons, Ascii.eqb_refl. exact IH.
Qed.

Lemma prefix_longer (m r q : string) :
  String.prefix m r = true -> String.prefix m (r +:+ q) = true.
Proof.
  intros H. rewrite (prefix_skip m r H), append_assoc. apply prefix_append.
Qed.

(** A mark is found at the front exactly when [mark_length] is not 0. *)
Lemma mark_length_found (marks : list string) (s : string) (k : nat) :
  App.mark_length marks s = S k ->
  exists m, In m marks /\ String.prefix m s = true /\ String.length m = S k.
Proof.
  unfold App.mark_length.
  destruct (List.find (fun m => String.prefix m s) marks) as [m|] eqn:Hfind; [|discriminate].
  apply List.find_some in Hfind as [Hin Hprefix]. eauto.
Qed.

Lemma mark_length_none (marks : list string) (s m : string) :
  proper_marks marks -> App.mark_length marks s = O -> In m marks ->
  String.prefix m s = false.
Proof.
  unfold App.mark_length, proper_marks. intros Hproper Hlen Hin.
  destruct (List.find (fun m => String.prefix m s) marks) as [m'|] eqn:Hfind.
  - apply List.find_some in Hfind as [Hin' _].
    rewrite List.Forall_forall in Hproper. specialize (Hproper m' Hin').
    destruct m'; [congruence|discriminate].
  - now apply (List.find_none _ _ Hfind).
Qed.

Lemma strip_marks_skip (marks : list string) (k : nat) (s : string) :
  App.strip_marks marks k s = App.strip_marks marks 0 (skip_chars k s).
Proof.
  revert k. induction s as [|c s IH]; intros k; [now destruct k|].
  destruct k as [|k]; [reflexivity|]. simpl skip_chars. rewrite <- IH. reflexivity.
Qed.

(** What stripping does: it takes a run of marks off the front and stops
    where no mark begins. *)
Lemma strip_marks_spec (marks : list string) (s : string) :
  exists ms,
    Forall (fun m => In m marks) ms
    /\ s = concat_strings ms +:+ App.strip_marks marks 0 s
    /\ (App.strip_marks marks 0 s = EmptyString
        \/ App.mark_length marks (App.strip_marks marks 0 s) = O).
Proof.
  remember (String.length s) as n eqn:Hn. revert s Hn.
  induction n as [n IH] using lt_wf_ind. intros s Hn.
  destruct s as [|c s']; [exists []; simpl; auto|].
  simpl App.strip_marks.
  destruct (App.mark_length marks (String c s')) as [|k] eqn:Hlen.
  - exists []. simpl. auto.
  - destruct (mark_length_found marks _ k Hlen) as (m & Hin & Hprefix & Hm).
    rewrite strip_marks_skip.
    pose proof (prefix_skip m _ Hprefix) as Hsplit. rewrite Hm in Hsplit.
    simpl skip_chars in Hsplit.
    destruct (IH (String.length (skip_chars k s'))) with (s := skip_chars k s')
      as (ms & Hms & Hrest & Hstop); [|reflexivity|].
    { subst n. rewrite Hsplit, length_append, Hm. lia. }
    exists (m :: ms). split; [constructor; assumption|]. split; [|exact Hstop].
    simpl. rewrite append_assoc, <- Hrest. exact Hsplit.
Qed.

Lemma string_rev_append (a b : string) :
  App.string_rev (a +:+ b) = App.string_rev b +:+ App.string_rev a.
Proof.
  induction a as [|c a IH]; [now rewrite append_nil_l, append_nil_r|].
  rewrite append_cons. simpl. now rewrite IH, append_assoc.
Qed.

Lemma string_rev_involutive (s : string) : App.string_rev (App.string_rev s) = s.
Proof.
  induction s as [|c s IH]; [reflexivity|].
  simpl. rewrite string_rev_append, IH. reflexivity.
Qed.

Lemma has_char_rev (c : ascii) (s : string) : has_char c (App.string_rev s) = has_char c s.
Proof.
  induction s as [|d s IH]; [reflexivity|].
  simpl. rewrite has_char_append, IH. simpl. now rewrite orb_false_r, orb_comm.
Qed.

Lemma has_char_concat (c : ascii) (ms : list string) :
  Forall (fun m => has_char c m = false) ms -> has_char c (concat_strings ms) = false.
Proof.
  induction 1 as [|m ms Hm _ IH]; [reflexivity|].
  simpl. now rewrite has_char_append, Hm, IH.
Qed.

Lemma append_empty (a b : string) : a +:+ b = EmptyString -> a = EmptyString /\ b = EmptyString.
Proof. destruct a; [now rewrite append_nil_l|rewrite append_cons; discriminate]. Qed.

Lemma append_same_length (p r : string) : p +:+ r = r -> p = EmptyString.
Proof.
  intros H. apply (f_equal String.length) in H. rewrite length_append in H.
  destruct p; [reflexivity|simpl in H; lia].
Qed.

(** Stripping stops where no mark begins, so stripping again changes
    nothing. *)
Lemma strip_marks_fixed (marks : list string) (s : string) :
  s = EmptyString \/ App.mark_length marks s = O -> App.strip_marks marks 0 s = s.
Proof.
  intros [->|H]; [reflexivity|]. destruct s; [reflexivity|]. simpl. now rewrite H.
Qed.

Lemma strip_marks_idempotent (marks : list string) (s : string) :
  App.strip_marks marks 0 (App.strip_marks marks 0 s) = App.strip_marks marks 0 s.
Proof.
  destruct (strip_marks_spec marks s) as (_ & _ & _ & Hstop).
  now apply strip_marks_fixed.
Qed.

(** A character of no mark is never stripped. *)
Lemma strip_marks_keeps (marks : list string) (c : ascii) (s : string) :
  Forall (fun m => has_char c m = false) marks ->
  has_char c (App.strip_marks marks 0 s) = has_char c s.
Proof.
  intros Hmarks. destruct (strip_marks_spec marks s) as (ms & Hms & Hsplit & _).
  rewrite Hsplit at 2. rewrite has_char_append, has_char_concat; [reflexivity|].
  rewrite List.Forall_forall in *. auto.
Qed.

(** What is left is a part of what was given. *)
Lemma strip_marks_part (marks : list string) (c : ascii) (s : string) :
  has_char c (App.strip_marks marks 0 s) = true -> has_char c s = true.
Proof.
  intros H. destruct (strip_marks_spec marks s) as (ms & _ & Hsplit & _).
  rewrite Hsplit, has_char_append, H. apply orb_true_r.
Qed.

Lemma mark_length_prefix (marks : list string) (r q : string) :
  proper_marks marks -> App.mark_length marks (r +:+ q) = O ->
  App.mark_length marks r = O.
Proof.
  intros Hproper Hlen. destruct (App.mark_length marks r) as [|k] eqn:Hr; [reflexivity|].
  destruct (mark_length_found marks r k Hr) as (m & Hin & Hprefix & _).
  pose proof (mark_length_none marks _ m Hproper Hlen Hin) as Hnone.
  rewrite (prefix_longer m r q Hprefix) in Hnone. discriminate.
Qed.

Lemma white_space_proper : proper_marks App.white_space.
Proof. unfold proper_marks, App.white_space. repeat constructor; discriminate. Qed.

Lemma white_space_rev_proper : proper_marks (map App.string_rev App.white_space).
Proof. unfold proper_marks, App.white_space. repeat constructor; discriminate. Qed.

(** [trimEnd] gives a beginning of its argument. *)
Lemma trimEnd_prefix (s : string) : exists q, s = App.trimEnd s +:+ q.
Proof.
  unfold App.trimEnd.
  destruct (strip_marks_spec (map App.string_rev App.white_space) (App.string_rev s))
    as (ms & _ & Hsplit & _).
  exists (App.string_rev (concat_strings ms)).
  rewrite <- string_rev_append, <- Hsplit. symmetry. apply string_rev_involutive.
Qed.

Lemma trimEnd_idempotent (s : string) : App.trimEnd (App.trimEnd s) = App.trimEnd s.
Proof.
  unfold App.trimEnd. now rewrite string_rev_involutive, strip_marks_idempotent.
Qed.

(** Trimming a trimmed string changes nothing. *)
Lemma trim_idempotent (s : string) : App.trim (App.trim s) = App.trim s.
Proof.
  unfold App.trim. set (t := App.trimStart s).
  assert (Hstart : App.trimStart (App.trimEnd t) = App.trimEnd t).
  { unfold App.trimStart. apply strip_marks_fixed.
    destruct (strip_marks_spec App.white_space s) as (_ & _ & _ & [Hempty|Hstop]).
    - left. subst t. unfold App.trimStart. rewrite Hempty. reflexivity.
    - right. destruct (trimEnd_prefix t) as (q & Hq).
      apply (mark_length_prefix _ _ q white_space_proper).
      rewrite <- Hq. exact Hstop. }
  rewrite Hstart. apply trimEnd_idempotent.
Qed.

(** A trimmed string is one that neither [trimStart] nor [trimEnd] changes. *)
Lemma trim_fixed (s : string) :
  App.trim s = s -> App.trimStart s = s /\ App.trimEnd s = s.
Proof.
  intros H. unfold App.trim in H.
  destruct (strip_marks_spec App.white_space s) as (ms & _ & Hsplit & _).
  fold (App.trimStart s) in Hsplit.
  destruct (trimEnd_prefix (App.trimStart s)) as (q & Hq).
  rewrite H in Hq.
  assert (Hlen : concat_strings ms = EmptyString).
  { apply (f_equal String.length) in Hsplit, Hq.
    rewrite length_append in Hsplit, Hq.
    destruct (concat_strings ms); [reflexivity|simpl in Hsplit; lia]. }
  rewrite Hlen, append_nil_l in Hsplit.
  split; [now symmetry|]. rewrite <- Hsplit in H. exact H.
Qed.

(** No character other than white space is trimmed away, and no character
    is added. *)
Lemma trim_keeps (c : ascii) (s : string) :
  Forall (fun m => has_char c m = false) App.white_space ->
  has_char c (App.trim s) = has_char c s.
Proof.
  intros Hmarks. unfold App.trim, App.trimEnd.
  rewrite has_char_rev, strip_marks_keeps, has_char_rev.
  - now apply strip_marks_keeps.
  - rewrite List.Forall_forall in *. intros m Hin.
    apply List.in_map_iff in Hin as (m' & <- & Hin'). rewrite has_char_rev. auto.
Qed.

Lemma trim_part (c : ascii) (s : string) :
  has_char c (App.trim s) = true -> has_char c s = true.
Proof.
  unfold App.trim, App.trimEnd. rewrite has_char_rev. intros H.
  apply strip_marks_part in H. rewrite has_char_rev in H.
  now apply strip_marks_part in H.
Qed.

(** ** [split] and [join] *)

Lemma skip_chars_append (a b : string) : skip_chars (String.length a) (a +:+ b) = b.
Proof. induction a as [|c a IH]; [now rewrite append_nil_l|now rewrite append_cons]. Qed.

Lemma split_from_skip (sep : string) (k : nat) (cur s : string) :
  App.split_from sep k cur s = App.split_from sep 0 cur (skip_chars k s).
Proof.
  revert k. induction s as [|c s IH]; intros k; [now destruct k|].
  destruct k as [|k]; [reflexivity|]. simpl skip_chars. rewrite <- IH. reflexivity.
Qed.

(** At a separator the piece read so far is closed. *)
Lemma split_from_separator (c : ascii) (sep cur s : string) :
  App.split_from (String c sep) 0 cur (String c sep +:+ s)
  = cur :: App.split_from (String c sep) 0 EmptyString s.
Proof.
  rewrite append_cons. cbn [App.split_from].
  rewrite prefix_cons, Ascii.eqb_refl, prefix_append. cbn [andb]. f_equal.
  rewrite split_from_skip. cbn [String.length]. rewrite Nat.sub_succ, Nat.sub_0_r.
  now rewrite skip_chars_append.
Qed.

(** Characters other than the first of the separator are read into the
    piece. *)
Lemma split_from_plain (c : ascii) (sep cur a s : string) :
  has_char c a = false ->
  App.split_from (String c sep) 0 cur (a +:+ s)
  = App.split_from (String c sep) 0 (cur +:+ a) s.
Proof.
  revert cur. induction a as [|d a IH]; intros cur Ha.
  - now rewrite append_nil_l, append_nil_r.
  - simpl in Ha. apply orb_false_elim in Ha as [Hd Ha].
    rewrite append_cons. cbn [App.split_from]. rewrite prefix_cons, Hd. cbn [andb].
    rewrite IH by exact Ha. now rewrite append_assoc, append_cons, append_nil_l.
Qed.

Lemma split_from_end (sep cur : string) : App.split_from sep 0 cur EmptyString = [cur].
Proof. reflexivity. Qed.

(** Splitting what [join] wrote gives the pieces back, when none of them
    has the first character of the separator. *)
Lemma split_join (c : ascii) (sep : string) (l : list string) :
  l <> [] -> Forall (fun x => has_char c x = false) l ->
  App.split (String c sep) (App.join (String c sep) l) = l.
Proof.
  unfold App.split. intros Hl Hall.
  induction Hall as [|x rest Hx Hrest IH]; [congruence|].
  destruct rest as [|y rest].
  - cbn [App.join]. rewrite <- (append_nil_r x) at 1.
    rewrite split_from_plain by exact Hx. now rewrite append_nil_l.
  - change (App.join (String c sep) (x :: y :: rest))
      with (x +:+ String c sep +:+ App.join (String c sep) (y :: rest)).
    rewrite split_from_plain by exact Hx. rewrite append_nil_l, split_from_separator.
    f_equal. apply IH. discriminate.
Qed.

(** A piece of [s.split(c)] has no [c] in it. *)
Lemma split_from_pieces (c : ascii) (cur s : string) :
  has_char c cur = false ->
  Forall (fun x => has_char c x = false) (App.split_from (String c EmptyString) 0 cur s).
Proof.
  revert cur. induction s as [|d s IH]; intros cur Hcur; [now repeat constructor|].
  cbn [App.split_from]. rewrite prefix_cons.
  destruct (Ascii.eqb c d) eqn:Hd; cbn [andb].
  - destruct s; (constructor; [exact Hcur|now apply IH]).
  - apply IH. rewrite has_char_append, Hcur. simpl. now rewrite Hd.
Qed.

Lemma join_wide (sep1 sep2 x : string) (rest : list string) :
  App.join (sep1 +:+ sep2) (x :: rest)
  = App.join sep1 (x :: map (fun y => sep2 +:+ y) rest).
Proof.
  revert x. induction rest as [|y rest IH]; intros x; [reflexivity|].
  change (App.join (sep1 +:+ sep2) (x :: y :: rest))
    with (x +:+ (sep1 +:+ sep2) +:+ App.join (sep1 +:+ sep2) (y :: rest)).
  rewrite IH. cbn [map].
  change (App.join sep1 (x :: (sep2 +:+ y) :: map (fun y => sep2 +:+ y) rest))
    with (x +:+ sep1 +:+ App.join sep1 ((sep2 +:+ y) :: map (fun y => sep2 +:+ y) rest)).
  destruct rest as [|z rest]; cbn [map App.join]; now rewrite !append_assoc.
Qed.

(** ** [parseCommaSeparatedValues] *)

Lemma prefix_starts_with (m s : string) : String.prefix m s = starts_with m s.
Proof.
  revert s. induction m as [|c m IH]; intros s; [now destruct s|].
  destruct s as [|d s]; [reflexivity|]. rewrite prefix_cons, IH. reflexivity.
Qed.

Lemma mark_length_starts_with (marks : list string) (s : string) :
  App.mark_length marks s
  = match List.find (fun m => starts_with m s) marks with
    | Some m => String.length m
    | None => O
    end.
Proof.
  unfold App.mark_length. induction marks as [|m marks IH]; [reflexivity|].
  cbn [List.find]. rewrite prefix_starts_with. now destruct (starts_with m s).
Qed.

Lemma trim_after_space (x : string) : App.trim (" " +:+ x) = App.trim x.
Proof.
  unfold App.trim, App.trimStart. rewrite append_cons, append_nil_l.
  cbn [App.strip_marks].
  assert (Hmark : App.mark_length App.white_space (String " " x) = 1%nat)
    by (rewrite mark_length_starts_with; vm_compute; reflexivity).
  rewrite Hmark. reflexivity.
Qed.

Lemma comma_is_no_white_space :
  Forall (fun m => has_char "," m = false) App.white_space.
Proof. unfold App.white_space. repeat constructor. Qed.

Lemma parseCommaSeparatedValues_plain (s x : string) :
  In x (App.parseCommaSeparatedValues s) -> plain_value x.
Proof.
  unfold App.parseCommaSeparatedValues, App.split. intros Hin.
  apply List.filter_In in Hin as [Hin Hfull].
  apply List.in_map_iff in Hin as (piece & <- & Hpiece).
  pose proof (split_from_pieces "," EmptyString s eq_refl) as Hpieces.
  rewrite List.Forall_forall in Hpieces. specialize (Hpieces piece Hpiece).
  repeat split.
  - intros Hempty. rewrite Hempty in Hfull. discriminate.
  - rewrite trim_keeps; [exact Hpieces|exact comma_is_no_white_space].
  - apply trim_idempotent.
Qed.

Lemma parseCommaSeparatedValues_join (l : list string) :
  Forall plain_value l -> App.parseCommaSeparatedValues (App.join ", " l) = l.
Proof.
  intros Hall. destruct l as [|x rest]; [reflexivity|].
  unfold App.parseCommaSeparatedValues.
  change ", " with ("," +:+ " "). rewrite join_wide.
  rewrite split_join; [|discriminate|].
  - rewrite List.Forall_forall in Hall.
    assert (Hmap : map App.trim (x :: map (fun y => " " +:+ y) rest) = x :: rest).
    { cbn [map]. f_equal; [apply Hall; now left|].
      rewrite List.map_map. rewrite <- (List.map_id rest) at 2.
      apply List.map_ext_in. intros y Hy. rewrite trim_after_space.
      apply Hall. now right. }
    rewrite Hmap. clear Hmap.
    induction (x :: rest) as [|y l IH]; [reflexivity|].
    cbn [List.filter]. destruct (Hall y (or_introl eq_refl)) as (Hy & _ & _).
    destruct y; [congruence|]. cbn [String.eqb negb]. f_equal.
    apply IH. intros z Hz. apply Hall. now right.
  - inversion Hall as [|? ? Hx Hrest]; subst. constructor; [apply Hx|].
    rewrite List.Forall_forall in *. intros y Hy.
    apply List.in_map_iff in Hy as (z & <- & Hz).
    rewrite has_char_append. simpl. apply (Hrest z Hz).
Qed.

(** X8. What [parseCommaSeparatedValues] returns are values that are not
    empty, have no comma and nothing left to trim; so writing them into
    the edit field (joined with a comma and a space, as
    [createEditFormMarkup] does) and reading the field again changes
    nothing. *)
Theorem csv_values_stable (inputString : string) :
  Forall plain_value (App.parseCommaSeparatedValues inputString)
  /\ App.parseCommaSeparatedValues
       (App.join ", " (App.parseCommaSeparatedValues inputString))
     = App.parseCommaSeparatedValues inputString.
Proof.
  assert (H : Forall plain_value (App.parseCommaSeparatedValues inputString)).
  { apply List.Forall_forall. intros x. apply parseCommaSeparatedValues_plain. }
  split; [exact H|]. now apply parseCommaSeparatedValues_join.
Qed.

(** X9. Joining a list with a comma and a space and reading the text with
    [parseCommaSeparatedValues] gives the list back exactly when no item is
    empty, has a comma or has white space at an end. *)
Theorem csv_round_trip (l : list string) :
  App.parseCommaSeparatedValues (App.join ", " l) = l <-> Forall plain_value l.
Proof.
  split; [|apply parseCommaSeparatedValues_join].
  intros Hback. apply List.Forall_forall. intros x Hx. rewrite <- Hback in Hx.
  exact (parseCommaSeparatedValues_plain _ x Hx).
Qed.

(** X9 at two items that are given back, and at one with a comma in it,
    which is not. *)
Lemma csv_round_trip_witness :
  App.parseCommaSeparatedValues (App.join ", " ["issue refund"; "send email"])
  = ["issue refund"; "send email"]
  /\ App.parseCommaSeparatedValues (App.join ", " ["refund, in full"])
     <> ["refund, in full"].
Proof.
  split.
  - apply (proj2 (csv_round_trip ["issue refund"; "send email"])).
    repeat constructor; try discriminate; vm_compute; reflexivity.
  - intros Hback. apply (proj1 (csv_round_trip ["refund, in full"])) in Hback.
    inversion Hback as [|x l [_ [Hcomma _]] _]. vm_compute in Hcomma. discriminate.
Defined.

(** ** [parseTranscription] *)

Lemma substring_all (s : string) : String.substring 0 (String.length s) s = s.
Proof. induction s as [|c s IH]; [reflexivity|]. simpl. now rewrite IH. Qed.

Lemma string_drop_append (a b : string) : string_drop (String.length a) (a +:+ b) = b.
Proof.
  unfold string_drop. rewrite length_append.
  replace (String.length a + String.length b - String.length a)%nat
    with (String.length b) by lia.
  induction a as [|c a IH]; [rewrite append_nil_l; apply substring_all|].
  rewrite append_cons. simpl. exact IH.
Qed.

Lemma replace_first_prefix (c : ascii) (p r s : string) :
  App.replace_first (String c p) r (String c p +:+ s) = r +:+ s.
Proof.
  rewrite append_cons. cbn [App.replace_first].
  rewrite <- append_cons, prefix_append, string_drop_append. reflexivity.
Qed.

Lemma colon_is_no_white_space :
  Forall (fun m => has_char ":" m = false) App.white_space.
Proof. unfold App.white_space. repeat constructor. Qed.

Lemma parse_line_show (l : App.ChatLine) : utterance l -> App.parse_line (show_line l) = Some l.
Proof.
  destruct l as [type content]. unfold utterance, show_line. cbn [App.type App.content].
  intros [[-> | ->] Htrim]; unfold App.parse_line.
  - change ("agent" =? "agent")%string with true. cbv iota.
    rewrite prefix_append, replace_first_prefix, append_nil_l, trim_after_space, Htrim.
    reflexivity.
  - change ("customer" =? "agent")%string with false. cbv iota.
    assert (Hno : String.prefix "Agent:" ("Customer:" +:+ " " +:+ content) = false).
    { rewrite append_cons, prefix_cons. reflexivity. }
    rewrite Hno, prefix_append, replace_first_prefix, append_nil_l, trim_after_space, Htrim.
    reflexivity.
Qed.

Lemma show_line_colon (l : App.ChatLine) : has_char ":" (show_line l) = true.
Proof.
  unfold show_line. rewrite has_char_append.
  destruct (App.type l =? "agent")%string; reflexivity.
Qed.

Lemma show_line_feed (l : App.ChatLine) :
  has_char line_feed (App.content l) = false -> has_char line_feed (show_line l) = false.
Proof.
  intros H. unfold show_line. rewrite !has_char_append, H.
  destruct (App.type l =? "agent")%string; reflexivity.
Qed.

Lemma parse_line_utterance (line : string) (l : App.ChatLine) :
  App.parse_line line = Some l -> utterance l.
Proof.
  unfold App.parse_line, utterance.
  destruct (String.prefix "Agent:" line);
    [|destruct (String.prefix "Customer:" line)]; intros [= <-]; cbn [App.type App.content].
  - split; [now left|apply trim_idempotent].
  - split; [now right|apply trim_idempotent].
Qed.

Lemma parse_line_labelled (block : string) :
  labelled block = true ->
  negb (App.trim block =? EmptyString)%string = true
  /\ App.parse_line block = Some (line_of block).
Proof.
  unfold labelled, App.parse_line, line_of. intros Hlabel.
  assert (Hcolon : has_char ":" block = true).
  { apply orb_prop in Hlabel as [H|H]; apply prefix_skip in H; rewrite H;
      rewrite has_char_append; reflexivity. }
  split.
  - destruct (App.trim block) as [|c t] eqn:Htrim; [|reflexivity].
    pose proof (trim_keeps ":" block colon_is_no_white_space) as Hkept.
    rewrite Htrim, Hcolon in Hkept. discriminate.
  - destruct (String.prefix "Agent:" block) eqn:Hagent.
    + apply prefix_skip in Hagent. rewrite Hagent at 1.
      now rewrite replace_first_prefix, append_nil_l.
    + cbn [orb] in Hlabel. rewrite Hlabel. apply prefix_skip in Hlabel.
      rewrite Hlabel at 1. now rewrite replace_first_prefix, append_nil_l.
Qed.

Lemma parse_line_unlabelled (block : string) :
  labelled block = false -> App.parse_line block = None.
Proof.
  unfold labelled, App.parse_line. intros H. apply orb_false_elim in H as [-> ->].
  reflexivity.
Qed.

Lemma lines_of_blocks (blocks : list string) :
  flat_map App.some_list
    (map App.parse_line
       (List.filter (fun line => negb (App.trim line =? EmptyString)%string) blocks))
  = map line_of (List.filter labelled blocks).
Proof.
  induction blocks as [|block blocks IH]; [reflexivity|].
  cbn [List.filter]. destruct (labelled block) eqn:Hlabel.
  - destruct (parse_line_labelled block Hlabel) as [-> Hline].
    cbn [map flat_map]. rewrite Hline, IH. reflexivity.
  - destruct (negb (App.trim block =? EmptyString)%string); [|exact IH].
    cbn [map flat_map]. rewrite (parse_line_unlabelled block Hlabel), IH. reflexivity.
Qed.

(** X10. Only a string is parsed.  Of its blocks (the pieces between blank
    lines) those that start with [Agent:] or [Customer:] give one line
    each, in their order: the speaker of the label and what follows the
    label, trimmed.  Every other block is dropped. *)
Theorem transcript_lines (transcription : value) (lines : list App.ChatLine) :
  App.parseTranscription transcription = Return lines ->
  exists s,
    transcription = VStr s
    /\ lines = map line_of (List.filter labelled (App.split (App.bytes [10; 10]) s))
    /\ Forall utterance lines.
Proof.
  unfold App.parseTranscription. intros H.
  destruct transcription as [| | | |s| |]; try discriminate.
  exists s. split; [reflexivity|]. cbn in H. injection H as <-.
  split; [apply lines_of_blocks|].
  apply List.Forall_forall. intros l Hl.
  apply List.in_flat_map in Hl as (o & Ho & Hl).
  apply List.in_map_iff in Ho as (line & <- & _).
  destruct (App.parse_line line) as [l'|] eqn:Hline; [|contradiction].
  destruct Hl as [<-|[]]. exact (parse_line_utterance line l' Hline).
Qed.

(** X10 at a transcript of three blocks, the last of which has no label. *)
Lemma transcript_lines_witness :
  let transcript :=
    "Agent: Hello, how can I help?" +:+ App.bytes [10; 10]
    +:+ "Customer:   My order is late. " +:+ App.bytes [10; 10]
    +:+ "(call ends)" in
  let lines :=
    [ {| App.type := "agent"; App.content := "Hello, how can I help?" |};
      {| App.type := "customer"; App.content := "My order is late." |} ] in
  App.parseTranscription (VStr transcript) = Return lines
  /\ List.filter labelled (App.split (App.bytes [10; 10]) transcript)
     = ["Agent: Hello, how can I help?"; "Customer:   My order is late. "]
  /\ Forall utterance lines.
Proof.
  cbv zeta. split; [reflexivity|]. split; [reflexivity|].
  destruct (transcript_lines
              (VStr ("Agent: Hello, how can I help?" +:+ App.bytes [10; 10]
                     +:+ "Customer:   My order is late. " +:+ App.bytes [10; 10]
                     +:+ "(call ends)"))
              _ eq_refl) as (s & _ & _ & Hlines).
  exact Hlines.
Defined.

(** X11. A transcript written one utterance a block, the blocks a blank line
    apart, is parsed back into the utterances, when no utterance has a line
    feed in it. *)
Theorem transcript_round_trip (lines : list App.ChatLine) :
  Forall utterance lines ->
  Forall (fun l => has_char line_feed (App.content l) = false) lines ->
  App.parseTranscription (VStr (App.join (App.bytes [10; 10]) (map show_line lines)))
  = Return lines.
Proof.
  intros Hlines Hfeed. destruct lines as [|l0 rest]; [reflexivity|].
  unfold App.parseTranscription. cbn [App.string_receiver and_then]. f_equal.
  change (App.bytes [10; 10]) with (String line_feed (String line_feed EmptyString)).
  rewrite split_join; [|discriminate|].
  - induction Hlines as [|l ls Hl Hls IH]; [reflexivity|].
    inversion Hfeed as [|? ? Hl_feed Hls_feed]; subst.
    cbn [map List.filter].
    assert (Hfull : negb (App.trim (show_line l) =? EmptyString)%string = true).
    { destruct (App.trim (show_line l)) as [|c t] eqn:Htrim; [|reflexivity].
      pose proof (trim_keeps ":" (show_line l) colon_is_no_white_space) as Hcolon.
      rewrite Htrim, show_line_colon in Hcolon. discriminate. }
    rewrite Hfull. cbn [map flat_map]. rewrite (parse_line_show l Hl).
    cbn [App.some_list app]. f_equal. now apply IH.
  - apply List.Forall_forall. intros x Hx.
    apply List.in_map_iff in Hx as (l & <- & Hl).
    rewrite List.Forall_forall in Hfeed. apply show_line_feed. now apply Hfeed.
Qed.

Lemma transcript_round_trip_witness :
  App.parseTranscription
    (VStr (App.join (App.bytes [10; 10])
             (map show_line
                [ {| App.type := "agent"; App.content := "Agent: is that you?" |};
                  {| App.type := "customer"; App.content := EmptyString |} ])))
  = Return [ {| App.type := "agent"; App.content := "Agent: is that you?" |};
             {| App.type := "customer"; App.content := EmptyString |} ].
Proof.
  apply transcript_round_trip.
  - repeat constructor; vm_compute; reflexivity.
  - repeat constructor.
Defined.

(** ** [formatIntent], [formatAction], [createActionTags] *)

Lemma is_word_upper (c : ascii) : App.is_word (App.upper c) = App.is_word c.
Proof. destruct c as [[] [] [] [] [] [] [] []]; reflexivity. Qed.

Lemma upper_upper (c : ascii) : App.upper (App.upper c) = App.upper c.
Proof. destruct c as [[] [] [] [] [] [] [] []]; reflexivity. Qed.

Lemma upper_underscore (c : ascii) : Ascii.eqb "_" (App.upper c) = Ascii.eqb "_" c.
Proof. destruct c as [[] [] [] [] [] [] [] []]; reflexivity. Qed.

Lemma upper_word_starts_length (inside : bool) (s : string) :
  String.length (App.upper_word_starts inside s) = String.length s.
Proof. revert inside. induction s as [|c s IH]; intros inside; simpl; [|rewrite IH]; reflexivity. Qed.

Lemma upper_word_starts_underscore (inside : bool) (s : string) :
  has_char "_" (App.upper_word_starts inside s) = has_char "_" s.
Proof.
  revert inside. induction s as [|c s IH]; intros inside; [reflexivity|].
  simpl. rewrite IH. f_equal.
  destruct (App.is_word c && negb inside); [apply upper_underscore|reflexivity].
Qed.

Lemma upper_word_starts_idempotent (inside : bool) (s : string) :
  App.upper_word_starts inside (App.upper_word_starts inside s)
  = App.upper_word_starts inside s.
Proof.
  revert inside. induction s as [|c s IH]; intros inside; [reflexivity|].
  simpl. destruct (App.is_word c && negb inside) eqn:Hc.
  - rewrite is_word_upper, Hc, upper_upper, IH. reflexivity.
  - rewrite Hc, IH. reflexivity.
Qed.

Lemma replace_char_length (c d : ascii) (s : string) :
  String.length (App.replace_char c (String d EmptyString) s) = String.length s.
Proof.
  induction s as [|x s IH]; [reflexivity|].
  simpl. rewrite length_append, IH. now destruct (Ascii.eqb c x).
Qed.

Lemma replace_char_gone (c d : ascii) (s : string) :
  Ascii.eqb c d = false -> has_char c (App.replace_char c (String d EmptyString) s) = false.
Proof.
  intros Hd. induction s as [|x s IH]; [reflexivity|].
  simpl. rewrite has_char_append, IH, orb_false_r.
  destruct (Ascii.eqb c x) eqn:Hx; simpl; now rewrite ?Hd, ?Hx.
Qed.

Lemma replace_char_absent (c : ascii) (r s : string) :
  has_char c s = false -> App.replace_char c r s = s.
Proof.
  induction s as [|x s IH]; [reflexivity|]. simpl. intros H.
  apply orb_false_elim in H as [Hx Hs]. rewrite Hx, IH by exact Hs. reflexivity.
Qed.

(** X12. The two formatters are one function on strings: it returns a string of
    the same length with no underscore in it, and formatting twice is
    formatting once. *)
Theorem format_intent_shape (s : string) :
  exists r,
    App.formatIntent (VStr s) = Return r
    /\ App.formatAction (VStr s) = Return r
    /\ String.length r = String.length s
    /\ has_char "_" r = false
    /\ App.formatIntent (VStr r) = Return r.
Proof.
  eexists. split; [reflexivity|]. split; [reflexivity|]. split; [|split].
  - now rewrite upper_word_starts_length, replace_char_length.
  - rewrite upper_word_starts_underscore. now apply replace_char_gone.
  - unfold App.formatIntent. cbn [App.string_receiver and_then]. f_equal.
    rewrite (replace_char_absent "_" " " (App.upper_word_starts _ _)).
    + apply upper_word_starts_idempotent.
    + rewrite upper_word_starts_underscore. now apply replace_char_gone.
Qed.

Lemma has_char_count (c : ascii) (s : string) :
  has_char c s = false -> count_char c s = O.
Proof.
  induction s as [|x s IH]; [reflexivity|]. simpl. intros H.
  apply orb_false_elim in H as [Hx Hs]. now rewrite Hx, IH.
Qed.

Lemma escape_chars_safe (d : ascii) (s : string) :
  In d ["<"; ">"; dquote; "'"]%char -> has_char d (escape_chars s) = false.
Proof.
  intros Hd. induction s as [|c s IH]; [reflexivity|]. simpl.
  now rewrite has_char_append, (escape_char_safe c d Hd), IH.
Qed.

Lemma join_empty_cons (x : string) (rest : list string) :
  App.join EmptyString (x :: rest) = x +:+ App.join EmptyString rest.
Proof. destruct rest; [now rewrite append_nil_r|reflexivity]. Qed.

Lemma action_tag_string (s : string) (d : ascii) :
  In d ["<"; ">"; dquote]%char ->
  exists tag, App.action_tag (VStr s) = Return tag /\ count_char d tag = 2%nat.
Proof.
  intros Hd. eexists. split; [reflexivity|].
  rewrite escapeHtml_chars.
  set (inner := escape_chars _).
  assert (Hinner : count_char d inner = O).
  { apply has_char_count, escape_chars_safe. simpl in *. intuition. }
  rewrite !count_char_append, Hinner.
  destruct Hd as [<-|[<-|[<-|[]]]]; reflexivity.
Qed.

(** X13. For a list of strings [createActionTags] writes one [span] an action:
    the markup has two [<], two [>] and two double quotes for each action,
    whatever the actions say. *)
Theorem action_tags_markup (items : list value) (d : ascii) :
  Forall is_string items -> In d ["<"; ">"; dquote]%char ->
  exists html,
    App.createActionTags (VArr items) = Return html
    /\ count_char d html = (2 * List.length items)%nat.
Proof.
  intros Hitems Hd. unfold App.createActionTags. cbn [App.array_receiver and_then].
  induction Hitems as [|v items [s ->] _ IH]; [exists EmptyString; split; reflexivity|].
  destruct IH as (html & Hhtml & Hcount).
  destruct (action_tag_string s d Hd) as (tag & Htag & Htag_count).
  cbn [App.map_outcome]. rewrite Htag. cbn [and_then].
  destruct (App.map_outcome App.action_tag items) as [tags|e]; [|discriminate].
  cbn [and_then] in *. injection Hhtml as <-.
  eexists. split; [reflexivity|].
  rewrite join_empty_cons, count_char_append, Htag_count, Hcount.
  cbn [List.length]. lia.
Qed.

Lemma action_tags_markup_witness :
  exists html,
    App.createActionTags (VArr [VStr "send_<b>email</b>"; VStr "call_back"]) = Return html
    /\ count_char "<" html = 4%nat.
Proof.
  apply (action_tags_markup [VStr "send_<b>email</b>"; VStr "call_back"] "<").
  - repeat constructor; eexists; reflexivity.
  - simpl. auto.
Defined.

(** ** [buildCrmPayload] *)

Lemma object_conforms (props : list (string * Schema)) (req : list string)
    (extra : bool) (d : option string) (fs : list (string * value)) :
  (forall r, In r req -> has_prop r fs = true) ->
  (forall k x, In (k, x) fs ->
     match schema_of k props with
     | Some s => conforms s x = true
     | None => extra = true
     end) ->
  conforms (SObject props req extra d) (VObj fs) = true.
Proof.
  intros Hreq Hfs. simpl. apply andb_true_intro. split.
  - apply forallb_forall. exact Hreq.
  - apply forallb_forall. intros [k x] Hin. specialize (Hfs k x Hin).
    simpl. revert Hfs. clear.
    induction props as [|[k' s] props IH]; simpl; [auto|].
    destruct (String.eqb k k'); auto.
Qed.

Lemma buildCrmPayload_run (analysis : value) :
  nullish analysis = false ->
  App.buildCrmPayload analysis
  = Return (VObj (map (fun k => (k, opt_member analysis k)) top_fields)).
Proof.
  intros Hdefined. unfold App.buildCrmPayload.
  rewrite !(get_member_opt analysis _ Hdefined). reflexivity.
Qed.

(** X14. The payload shown as what goes to the CRM has the eight fields of the
    schema, in its order, each as the analysis has it, and nothing else; so
    it is an instance of the schema when the analysis is one.  Of [null]
    and [undefined] there is no payload. *)
Theorem crm_payload_fields (analysis : value) :
  (nullish analysis = true ->
   exists e, App.buildCrmPayload analysis = Throw e /\ name e = "TypeError")
  /\ (nullish analysis = false ->
      exists fs,
        App.buildCrmPayload analysis = Return (VObj fs)
        /\ map fst fs = top_fields
        /\ (forall k, In k top_fields -> lookup_prop k fs = opt_member analysis k)
        /\ (conforms customerServiceSchema analysis = true ->
            conforms customerServiceSchema (VObj fs) = true)).
Proof.
  split.
  - destruct analysis; try discriminate; intros _; eexists; split; reflexivity.
  - intros Hdefined. eexists. split; [exact (buildCrmPayload_run analysis Hdefined)|].
    split; [reflexivity|]. split.
    + intros k Hk. simpl in Hk.
      repeat (destruct Hk as [<-|Hk]; [reflexivity|]). contradiction.
    + intros Hconforms. unfold customerServiceSchema in *.
      destruct (conforms_object _ _ _ _ _ Hconforms) as (afs & -> & Hreq & Hfs).
      apply object_conforms.
      * intros r Hr. simpl in Hr.
        repeat (destruct Hr as [<-|Hr]; [reflexivity|]). contradiction.
      * intros k x Hin. apply List.in_map_iff in Hin as (k' & [= <- <-] & Hk).
        assert (Hthere : In (k', lookup_prop k' afs) afs)
          by (apply has_prop_lookup, Hreq, Hk).
        exact (Hfs _ _ Hthere).
Qed.

Lemma crm_payload_fields_witness :
  exists fs,
    App.buildCrmPayload Sample2.analysis = Return (VObj fs)
    /\ conforms customerServiceSchema (VObj fs) = true.
Proof.
  destruct (proj2 (crm_payload_fields Sample2.analysis) eq_refl)
    as (fs & Hrun & _ & _ & Hconforms).
  exists fs. split; [exact Hrun|]. apply Hconforms. vm_compute. reflexivity.
Defined.

(** ** The page and the router *)

(** X15. Of an answer of [/api/analyze] the page reads the body only when the
    route succeeded: every failure of the route (status 500) reaches the
    user as the same text, without the message the route wrote. *)
Theorem page_reads_analyze_status (analyse : Host -> value -> M value) (h : Host)
    (req_body : value) (w : World) (resp : HttpResponse)
    (b : App.Browser) (selectedScenario : value) (json : Outcome value) :
  nullish selectedScenario = false ->
  fst (post_analyze analyse h req_body w) = Return resp ->
  App.fetch b "/api/analyze"
    (App.JSON_stringify b
       (VObj [("transcription", opt_member selectedScenario "transcription");
              ("scenarioId", opt_member selectedScenario "id")]))
  = Return (answered (status resp) json) ->
  App.requestAnalysis b selectedScenario
  = if success (body resp) then json
    else Throw (new_Error "Analysis request failed: HTTP 500").
Proof.
  intros Hscenario Hresp Hfetch. unfold App.requestAnalysis.
  rewrite !(get_member_opt selectedScenario _ Hscenario). cbn [and_then].
  rewrite Hfetch. cbn [and_then].
  rewrite post_analyze_run in Hresp.
  destruct (destructure_body req_body) as [fs|e].
  - destruct (analyse h (fst fs) (initializeOpenAI w)) as [[a|e] w'];
      injection Hresp as <-; reflexivity.
  - injection Hresp as <-. reflexivity.
Qed.

Lemma page_reads_analyze_status_witness :
  App.requestAnalysis
    (Sample2.browser (answered 500 (Return (VObj [("success", VBool false)]))))
    (VObj [("id", VStr "airline"); ("transcription", Sample.transcript)])
  = Throw (new_Error "Analysis request failed: HTTP 500").
Proof.
  exact (page_reads_analyze_status Part002.getAIAnalysis
           (node (Sample.answers (Sample.completion "stop" (VStr Sample.analysis_text)))
              Sample.clock)
           (VObj [("transcription", Sample.transcript); ("scenarioId", VStr "airline")])
           (Sample.fresh Sample.env_no_key) _
           (Sample2.browser (answered 500 (Return (VObj [("success", VBool false)]))))
           (VObj [("id", VStr "airline"); ("transcription", Sample.transcript)])
           (Return (VObj [("success", VBool false)]))
           eq_refl eq_refl eq_refl).
Defined.

Lemma post_finalize_status (announce : value -> Outcome unit)
    (iso : Z -> string) (now : nat -> Z) (req_body : value) :
  let answer := post_finalize announce iso now req_body in
  finalize_status answer = 200 /\ finalize_success (finalize_body answer) = true
  \/ finalize_status answer = 500 /\ finalize_success (finalize_body answer) = false.
Proof.
  unfold post_finalize.
  destruct (destructure_finalize req_body) as [fields|e]; [|right; split; reflexivity].
  cbn [and_then].
  destruct (announce (snd fields)); [|right; split; reflexivity].
  cbn [and_then].
  destruct (createMockCRMRecord iso now (fst fields) (snd fields));
    [|right; split; reflexivity].
  cbn [and_then].
  destruct (Date_toISOString_at iso (now 3%nat)); [left|right]; split; reflexivity.
Qed.

(** X16. The same of [/api/finalize]: the page reads the body of a 200 and
    reports any other answer of the route as [HTTP 500]. *)
Theorem page_reads_finalize_status (announce : value -> Outcome unit)
    (iso : Z -> string) (now : nat -> Z) (req_body : value)
    (b : App.Browser) (currentAnalysisResult selectedScenario : value)
    (json : Outcome value) :
  nullish selectedScenario = false ->
  let answer := post_finalize announce iso now req_body in
  App.fetch b "/api/finalize"
    (App.JSON_stringify b
       (VObj [("analysis", currentAnalysisResult);
              ("scenarioId", opt_member selectedScenario "id")]))
  = Return (answered (finalize_status answer) json) ->
  App.submitFinalAnalysis b currentAnalysisResult selectedScenario
  = if finalize_success (finalize_body answer) then json
    else Throw (new_Error "Finalization failed: HTTP 500").
Proof.
  intros Hscenario answer Hfetch. unfold App.submitFinalAnalysis.
  rewrite !(get_member_opt selectedScenario _ Hscenario). cbn [and_then].
  rewrite Hfetch. cbn [and_then].
  destruct (post_finalize_status announce iso now req_body) as [[Hstatus Hsuccess]|[Hstatus Hsuccess]];
    fold answer in Hstatus, Hsuccess; rewrite Hsuccess, Hstatus; reflexivity.
Qed.

Lemma page_reads_finalize_status_witness :
  App.submitFinalAnalysis
    (Sample2.browser (answered 500 (Throw (new_Error "Unexpected end of JSON input"))))
    VNull (VObj [("id", VStr "airline")])
  = Throw (new_Error "Finalization failed: HTTP 500").
Proof.
  exact (page_reads_finalize_status announce_scenario Sample2.iso Sample2.now
           (VObj [("analysis", VNull); ("scenarioId", VStr "airline")])
           (Sample2.browser (answered 500 (Throw (new_Error "Unexpected end of JSON input"))))
           VNull (VObj [("id", VStr "airline")])
           (Throw (new_Error "Unexpected end of JSON input"))
           eq_refl eq_refl).
Defined.

(** ** More of [getAIAnalysis] and [initializeOpenAI] *)

(** X17. A response without content (none, [null], or the empty string) is an
    error of its own and never reaches [JSON.parse], in either revision. *)
Theorem missing_content_is_not_parsed (h : Host) (t : value) (w : World) (c : OpenAI)
    (response : value) :
  openaiClient (initializeOpenAI w) = Some c ->
  truthy (raw_content response) = false ->
  let w1 := initializeOpenAI w in
  (create h (trace w1) c (legacy_params w1 t) = Return response ->
   RoutesAnalysis.getAIAnalysis h t w
   = (Throw missing_content, after w1 [EvCreate c (legacy_params w1 t)]))
  /\ (Part002.last_outcome h t w1 c = Return response ->
      forall reason,
        Part002.finish_reason response = Return reason ->
        strict_eq_str reason "length" = false ->
        exists evs,
          Part002.getAIAnalysis h t w = (Throw missing_content, after w1 evs)
          /\ parsed evs = []).
Proof.
  intros Hc Hcontent w1. split.
  - intros Hcreate. rewrite (configured_run_routes h t w c Hc). cbv zeta.
    fold w1. now rewrite Hcreate, Hcontent.
  - intros Hlast reason Hreason Hlength.
    destruct (getAIAnalysis_last h t w c Hc) as (evs & Hrun & Hparsed).
    exists evs. split; [|exact Hparsed].
    rewrite Hrun, conclude_run. fold w1. now rewrite Hlast, Hreason, Hlength, Hcontent.
Qed.

Lemma missing_content_is_not_parsed_witness :
  let h := node (Sample.answers (Sample.completion "stop" (VStr EmptyString))) Sample.clock in
  let w := Sample.fresh Sample.env_full in
  fst (RoutesAnalysis.getAIAnalysis h Sample.transcript w) = Throw missing_content
  /\ parsed (trace (snd (RoutesAnalysis.getAIAnalysis h Sample.transcript w))) = [].
Proof.
  cbv zeta.
  pose proof (proj1 (missing_content_is_not_parsed
    (node (Sample.answers (Sample.completion "stop" (VStr EmptyString))) Sample.clock)
    Sample.transcript (Sample.fresh Sample.env_full) _
    (Sample.completion "stop" (VStr EmptyString)) eq_refl eq_refl) eq_refl) as H.
  rewrite H. split; reflexivity.
Defined.

(** X18. The revision with the fallback does what the other one does whenever
    the first request is answered with a finish reason other than
    ['length'], or fails without asking for the retry, and whenever the
    client is not configured: same result, same requests, same parsing. *)
Theorem revisions_agree (h : Host) (t : value) (w : World) :
  let w1 := initializeOpenAI w in
  match openaiClient w1 with
  | Some c => plainly_answered (create h (trace w1) c (legacy_params w1 t))
  | None => True
  end ->
  Part002.getAIAnalysis h t w = RoutesAnalysis.getAIAnalysis h t w.
Proof.
  intros w1 Hfirst. destruct (openaiClient w1) as [c|] eqn:Hc.
  - rewrite (configured_run h t w c Hc), (configured_run_routes h t w c Hc). cbv zeta.
    fold w1. rewrite (request_completion_run h w1 w1 t c Hc). cbv zeta.
    destruct (create h (trace w1) c (legacy_params w1 t)) as [response|e].
    + destruct Hfirst as (reason & -> & ->).
      destruct (truthy (raw_content response)); [|reflexivity].
      destruct (JSON_parse h _); now rewrite after_after.
    + simpl in Hfirst. now rewrite Hfirst.
  - now rewrite (unconfigured_run h t w Hc), (unconfigured_run_routes h t w Hc).
Qed.

Lemma revisions_agree_witness :
  let h := node (Sample.answers (Sample.completion "stop" (VStr Sample.analysis_text)))
             Sample.clock in
  Part002.getAIAnalysis h Sample.transcript (Sample.fresh Sample.env_full)
  = RoutesAnalysis.getAIAnalysis h Sample.transcript (Sample.fresh Sample.env_full).
Proof.
  cbv zeta. apply revisions_agree. cbv zeta.
  change (openaiClient (initializeOpenAI (Sample.fresh Sample.env_full)))
    with (Some (new_client (Sample.fresh Sample.env_full))).
  exists (VStr "stop"). split; reflexivity.
Defined.

(** X19. Every request a call sends carries the same two messages, made of the
    transcript alone: the retry repeats those of the first request. *)
Theorem requests_carry_transcript (h : Host) (t : value) (w : World) :
  (exists evs,
     snd (Part002.getAIAnalysis h t w) = after (initializeOpenAI w) evs
     /\ Forall (fun r => messages (snd r) = request_messages t) (outbound evs))
  /\ (exists evs,
        snd (RoutesAnalysis.getAIAnalysis h t w) = after (initializeOpenAI w) evs
        /\ Forall (fun r => messages (snd r) = request_messages t) (outbound evs)).
Proof.
  destruct (openaiClient (initializeOpenAI w)) as [c|] eqn:Hc.
  - split.
    + rewrite (getAIAnalysis_concludes h t w c Hc). cbv zeta.
      rewrite (request_completion_run h _ _ t c Hc). cbv zeta.
      set (w1 := initializeOpenAI w).
      destruct (create h (trace w1) c (legacy_params w1 t)) as [response|e];
        [|destruct (Part002.unsupported_parameter e)]; cbn [fst snd];
        match goal with |- context [Part002.conclude h ?o ?w0] =>
          destruct (conclude_footprint h o w0) as (evs & -> & Hout & _) end;
        eexists (_ ++ evs); rewrite after_after; (split; [reflexivity|]);
        rewrite outbound_app, Hout; simpl; repeat constructor.
    + rewrite (configured_run_routes h t w c Hc). cbv zeta.
      set (w1 := initializeOpenAI w).
      destruct (create h (trace w1) c (legacy_params w1 t)) as [response|e].
      * destruct (truthy (raw_content response)).
        -- destruct (JSON_parse h _); eexists; (split; [reflexivity|]);
             simpl; repeat constructor.
        -- eexists; (split; [reflexivity|]); simpl; repeat constructor.
      * eexists; (split; [reflexivity|]); simpl; repeat constructor.
  - rewrite (unconfigured_run h t w Hc), (unconfigured_run_routes h t w Hc).
    split; exists []; rewrite after_nil; simpl; split; auto; constructor.
Qed.

Lemma strip_trailing_slash_append (s : string) : strip_trailing_slash (s +:+ "/") = s.
Proof.
  induction s as [|c s IH]; [reflexivity|].
  rewrite append_cons. simpl. rewrite IH.
  destruct s; [reflexivity|]. now rewrite append_cons.
Qed.

(** X20. One slash at the end of the endpoint is dropped before the path of the
    deployment is put after it. *)
Theorem endpoint_slash_dropped (w : World) (s key : string) :
  openaiClient w = None ->
  env w !! "AZURE_OPENAI_ENDPOINT" = Some (s +:+ "/") ->
  env w !! "AZURE_OPENAI_KEY" = Some key ->
  key <> EmptyString ->
  exists c,
    openaiClient (initializeOpenAI w) = Some c
    /\ baseURL c = s +:+ "/openai/deployments/"
                   +:+ ToString (env_get w "AZURE_OPENAI_DEPLOYMENT")
    /\ apiKey c = key.
Proof.
  intros Hnone Hendpoint Hkey Hfull. rewrite initializeOpenAI_client, Hnone.
  unfold new_client, env_get. rewrite Hendpoint, Hkey.
  assert (Htruthy : truthy (VStr (s +:+ "/")) && truthy (VStr key) = true).
  { apply andb_true_intro. split; simpl.
    - destruct s; [reflexivity|]. now rewrite append_cons.
    - destruct key; [congruence|reflexivity]. }
  rewrite Htruthy. eexists. split; [reflexivity|]. cbn [baseURL apiKey ToString].
  now rewrite strip_trailing_slash_append.
Qed.

Lemma endpoint_slash_dropped_witness :
  exists c,
    openaiClient (initializeOpenAI (Sample.fresh Sample.env_full)) = Some c
    /\ baseURL c = "https://contoso.openai.azure.com" +:+ "/openai/deployments/"
                   +:+ ToString (env_get (Sample.fresh Sample.env_full)
                                   "AZURE_OPENAI_DEPLOYMENT")
    /\ apiKey c = "0123456789abcdef".
Proof.
  apply (endpoint_slash_dropped (Sample.fresh Sample.env_full)
           "https://contoso.openai.azure.com" "0123456789abcdef");
    [reflexivity|reflexivity|reflexivity|discriminate].
Defined.
